(** * mak_forum: the content-consistency and trust-enforcement layer

    A shallow embedding of the server side of the forum:
    - the route module ([registerRoutes]: the middlewares [requireAuth],
      [requireRole], [checkBanned], the helper [sanitizeInput] and the
      route handlers),
    - the csrf module ([csrfProtection], [getCsrfToken]),
    - the storage module (class [DatabaseStorage]),
    - [shared/schema.ts] (tables, defaults, keys and cascades).

    Conventions of the model.
    - A JavaScript string is the list of its UTF-16 code units.
    - A table is the list of its rows in insertion order; [select ... where]
      is [filter], [update ... where] is [map], [delete ... where] is
      [filter] on the complement, [const [x] = ...] takes the head.
    - Identity columns draw from a per-table sequence kept in the database.
    - [new Date()] and [defaultNow()] read the time carried by the
      environment of the request; [crypto.randomBytes] reads the random
      token carried by it.
    - An insert that violates a constraint declared in the schema (unique
      key, foreign key, varchar length) throws: the storage function returns
      [None] and the handler's [catch] answers 500; the tables are then as
      before (sequence values a failed insert may have consumed are not
      modelled).
    - So does a statement with a parameter the database refuses: an
      integer beyond the 32 bits of an [integer] column, a text holding
      U+0000.  A text reaches the database as UTF-8, so a surrogate that
      is not part of a pair is stored as U+FFFD.
    - The counters that count rows (the reply count of a thread, the
      thread and post counts of a category and of a user) are kept as
      unbounded integers; the rows they count are bounded by the identity
      columns.  Every other persistence call is taken to succeed.
    - The two [express-rate-limit] middlewares are outside the model:
      [handle] describes a request that they let through.
    - Requests are taken one at a time: the interleaving of the
      statements of two requests is outside the model. *)

From Stdlib Require Import List ZArith NArith Bool Lia String Ascii DecimalString.
Import ListNotations.

(* ================================================================== *)
(** * JavaScript strings *)
(* ================================================================== *)

Definition jsstring := list N.

Definition str_eqb (a b : jsstring) : bool :=
  if list_eq_dec N.eq_dec a b then true else false.

Lemma str_eqb_eq a b : str_eqb a b = true <-> a = b.
Proof. unfold str_eqb; destruct (list_eq_dec N.eq_dec a b); split; congruence. Qed.

Lemma str_eqb_refl a : str_eqb a a = true.
Proof. apply str_eqb_eq; reflexivity. Qed.

Lemma str_eqb_neq a b : a <> b -> str_eqb a b = false.
Proof. unfold str_eqb; destruct (list_eq_dec N.eq_dec a b); congruence. Qed.

(** Literals of the source are written as Rocq strings, whose bytes are the
    UTF-8 encoding of the text; [js] decodes them (Basic Multilingual Plane,
    which covers every literal of the program). *)
Fixpoint utf8_decode (bs : list N) : jsstring :=
  match bs with
  | [] => []
  | b :: r =>
      if (b <? 128)%N then b :: utf8_decode r
      else if (b <? 224)%N then
        match r with
        | b1 :: r1 => ((b - 192) * 64 + (b1 - 128))%N :: utf8_decode r1
        | [] => []
        end
      else
        match r with
        | b1 :: b2 :: r2 =>
            ((b - 224) * 4096 + (b1 - 128) * 64 + (b2 - 128))%N :: utf8_decode r2
        | _ => []
        end
  end.

Definition js (s : string) : jsstring :=
  utf8_decode (map N_of_ascii (list_ascii_of_string s)).

(** ECMAScript [WhiteSpace] and [LineTerminator] code units, the ones
    [String.prototype.trim] strips. *)
Definition isWhiteSpace (c : N) : bool :=
  ((c =? 9) || (c =? 10) || (c =? 11) || (c =? 12) || (c =? 13) || (c =? 32)
   || (c =? 160) || (c =? 5760) || ((8192 <=? c) && (c <=? 8202))
   || (c =? 8232) || (c =? 8233) || (c =? 8239) || (c =? 8287)
   || (c =? 12288) || (c =? 65279))%N.

Fixpoint trimStart (s : jsstring) : jsstring :=
  match s with
  | [] => []
  | c :: r => if isWhiteSpace c then trimStart r else s
  end.

Fixpoint trimEnd (s : jsstring) : jsstring :=
  match s with
  | [] => []
  | c :: r =>
      match trimEnd r with
      | [] => if isWhiteSpace c then [] else [c]
      | r' => c :: r'
      end
  end.

Definition trim (s : jsstring) : jsstring := trimEnd (trimStart s).

(** [s.replace(/c/g, by)] for a one-character pattern. *)
Fixpoint replaceAll (c : N) (by_ : jsstring) (s : jsstring) : jsstring :=
  match s with
  | [] => []
  | x :: r => if (x =? c)%N then by_ ++ replaceAll c by_ r
              else x :: replaceAll c by_ r
  end.

Definition ch_lt : N := 60.    (* < *)
Definition ch_gt : N := 62.    (* > *)
Definition ch_dquote : N := 34.
Definition ch_squote : N := 39.

(** The route module's [sanitizeInput]. *)
Definition sanitizeInput (input : jsstring) : jsstring :=
  trim
    (replaceAll ch_squote (js "&#x27;")
       (replaceAll ch_dquote (js "&quot;")
          (replaceAll ch_gt (js "&gt;")
             (replaceAll ch_lt (js "&lt;") input)))).

Example sanitize_ex :
  sanitizeInput (js "  <b>'a'</b> ") = js "&lt;b&gt;&#x27;a&#x27;&lt;/b&gt;".
Proof. vm_compute. reflexivity. Qed.

Example js_accent : js "déjà" = [100; 233; 106; 224]%N.
Proof. vm_compute. reflexivity. Qed.

(* ------------------------------------------------------------------ *)
(** ** Facts about [trim] and [replaceAll] *)

Lemma trimStart_incl s x : In x (trimStart s) -> In x s.
Proof.
  induction s as [|c r IH]; simpl; auto.
  destruct (isWhiteSpace c); simpl; auto.
Qed.

Lemma trimEnd_incl s x : In x (trimEnd s) -> In x s.
Proof.
  revert x; induction s as [|c r IH]; simpl; intros x; auto.
  destruct (trimEnd r) as [|y r'] eqn:E.
  - destruct (isWhiteSpace c); simpl; tauto.
  - simpl. intros [H|H]; auto.
Qed.

Lemma trim_incl s x : In x (trim s) -> In x s.
Proof. unfold trim; intros H; apply trimStart_incl, trimEnd_incl, H. Qed.

Lemma trimEnd_idem s : trimEnd (trimEnd s) = trimEnd s.
Proof.
  induction s as [|c r IH]; simpl; auto.
  destruct (trimEnd r) as [|y r'] eqn:E.
  - destruct (isWhiteSpace c) eqn:W; simpl; auto. rewrite W; reflexivity.
  - change (trimEnd (c :: y :: r')) with
      (match trimEnd (y :: r') with
       | [] => if isWhiteSpace c then [] else [c]
       | r'' => c :: r''
       end).
    rewrite IH. reflexivity.
Qed.

Lemma trimEnd_head c r :
  isWhiteSpace c = false -> exists r', trimEnd (c :: r) = c :: r'.
Proof.
  intros W; simpl. destruct (trimEnd r); rewrite ?W; eauto.
Qed.

Lemma trimStart_trimEnd_trimStart s :
  trimStart (trimEnd (trimStart s)) = trimEnd (trimStart s).
Proof.
  induction s as [|c r IH]; [reflexivity|].
  cbn [trimStart]. destruct (isWhiteSpace c) eqn:W; auto.
  destruct (trimEnd_head c r W) as [r' E].
  rewrite E. cbn [trimStart]. rewrite W. reflexivity.
Qed.

Lemma trim_idem s : trim (trim s) = trim s.
Proof.
  unfold trim. rewrite trimStart_trimEnd_trimStart. apply trimEnd_idem.
Qed.

Lemma replaceAll_absent c by_ s : ~ In c s -> replaceAll c by_ s = s.
Proof.
  induction s as [|x r IH]; simpl; intros H; auto.
  destruct (N.eqb_spec x c) as [->|N]; [tauto|].
  f_equal; apply IH; tauto.
Qed.

Lemma replaceAll_in c by_ s x :
  In x (replaceAll c by_ s) -> In x by_ \/ (In x s /\ x <> c).
Proof.
  induction s as [|y r IH]; simpl; [tauto|].
  destruct (N.eqb_spec y c) as [->|N].
  - rewrite in_app_iff. intros [H|H]; [auto|]. destruct (IH H); tauto.
  - simpl. intros [->|H]; [right; auto|]. destruct (IH H); tauto.
Qed.

(** The characters [sanitizeInput] rewrites. *)
Definition special (c : N) : Prop :=
  c = ch_lt \/ c = ch_gt \/ c = ch_dquote \/ c = ch_squote.

Lemma sanitizeInput_clean s c : special c -> ~ In c (sanitizeInput s).
Proof.
  intros Hc Hin. unfold sanitizeInput in Hin. apply trim_incl in Hin.
  apply replaceAll_in in Hin. destruct Hin as [Hin|[Hin N1]].
  { vm_compute in Hin. unfold special, ch_lt, ch_gt, ch_dquote, ch_squote in Hc.
    intuition (subst; discriminate). }
  apply replaceAll_in in Hin. destruct Hin as [Hin|[Hin N2]].
  { vm_compute in Hin. unfold special, ch_lt, ch_gt, ch_dquote, ch_squote in Hc.
    intuition (subst; discriminate). }
  apply replaceAll_in in Hin. destruct Hin as [Hin|[Hin N3]].
  { vm_compute in Hin. unfold special, ch_lt, ch_gt, ch_dquote, ch_squote in Hc.
    intuition (subst; discriminate). }
  apply replaceAll_in in Hin. destruct Hin as [Hin|[Hin N4]].
  { vm_compute in Hin. unfold special, ch_lt, ch_gt, ch_dquote, ch_squote in Hc.
    intuition (subst; discriminate). }
  unfold special in Hc. intuition.
Qed.

(** C9. [sanitizeInput] is idempotent: for every string [s],
    [sanitizeInput (sanitizeInput s) = sanitizeInput s].  Its output holds
    none of the four characters it rewrites, so the four replacements leave
    it as it is, and trimming a trimmed string changes nothing. *)
Theorem sanitizeInput_idempotent (s : jsstring) :
  sanitizeInput (sanitizeInput s) = sanitizeInput s.
Proof.
  assert (C : forall c, special c -> ~ In c (sanitizeInput s))
    by (intros c; apply sanitizeInput_clean).
  unfold sanitizeInput at 1.
  rewrite (replaceAll_absent ch_lt) by (apply C; unfold special; auto).
  rewrite (replaceAll_absent ch_gt) by (apply C; unfold special; auto).
  rewrite (replaceAll_absent ch_dquote) by (apply C; unfold special; auto).
  rewrite (replaceAll_absent ch_squote) by (apply C; unfold special; auto).
  unfold sanitizeInput. apply trim_idem.
Qed.

(* ================================================================== *)
(** * JSON values (request bodies and response bodies) *)
(* ================================================================== *)

#[local] Set Warnings "-register-all".

Inductive JSON : Type :=
| JUndefined                      (* an absent property *)
| JNull
| JBool (b : bool)
| JNum (z : Z)
| JStr (s : jsstring)
| JDate (t : Z)                   (* a Date, serialised by res.json *)
| JArr (items : list JSON)
| JObj (props : list (string * JSON)).

Fixpoint lookup (k : string) (props : list (string * JSON)) : JSON :=
  match props with
  | [] => JUndefined
  | (k', v) :: r => if String.eqb k k' then v else lookup k r
  end.

(** [obj.k] on a value that may not be an object. *)
Definition field (k : string) (v : JSON) : JSON :=
  match v with
  | JObj props => lookup k props
  | _ => JUndefined
  end.

(** [const { k: _, ...rest } = obj]. *)
Definition omit (k : string) (v : JSON) : JSON :=
  match v with
  | JObj props => JObj (filter (fun kv => negb (String.eqb k (fst kv))) props)
  | _ => v
  end.

(** JavaScript truthiness of a JSON value. *)
Definition truthy (v : JSON) : bool :=
  match v with
  | JUndefined | JNull => false
  | JBool b => b
  | JNum z => negb (z =? 0)%Z
  | JStr s => match s with [] => false | _ => true end
  | JDate _ | JArr _ | JObj _ => true
  end.

(** Does the property [k] occur anywhere inside the value? *)
Fixpoint mentions (k : string) (v : JSON) : bool :=
  match v with
  | JArr items => existsb (mentions k) items
  | JObj props =>
      existsb (fun kv => String.eqb k (fst kv) || mentions k (snd kv)) props
  | _ => false
  end.

Definition opt_json {A} (f : A -> JSON) (o : option A) : JSON :=
  match o with Some a => f a | None => JNull end.

(* ================================================================== *)
(** * shared/schema.ts: enums and tables *)
(* ================================================================== *)

Inductive Role := admin | moderator | member | new_user.
Inductive InviteStatus := pending | approved | rejected.
Inductive ModerationAction :=
| delete_post | delete_thread | ban_user | warn_user | lock_thread
| pin_thread | unpin_thread | approve_invite | reject_invite.

Definition role_eqb (a b : Role) : bool :=
  match a, b with
  | admin, admin | moderator, moderator | member, member
  | new_user, new_user => true
  | _, _ => false
  end.

Definition role_name (r : Role) : jsstring :=
  match r with
  | admin => js "admin" | moderator => js "moderator"
  | member => js "member" | new_user => js "new_user"
  end.

Definition status_name (s : InviteStatus) : jsstring :=
  match s with
  | pending => js "pending" | approved => js "approved"
  | rejected => js "rejected"
  end.

Definition action_name (a : ModerationAction) : jsstring :=
  match a with
  | delete_post => js "delete_post" | delete_thread => js "delete_thread"
  | ban_user => js "ban_user" | warn_user => js "warn_user"
  | lock_thread => js "lock_thread" | pin_thread => js "pin_thread"
  | unpin_thread => js "unpin_thread" | approve_invite => js "approve_invite"
  | reject_invite => js "reject_invite"
  end.

Module User.
Record t := mk {
  id : Z; username : jsstring; email : jsstring; password : jsstring;
  role : Role; avatar : option jsstring; bio : option jsstring;
  postCount : Z; threadCount : Z; isBanned : bool;
  banReason : option jsstring; hasPrivateAccess : bool;
  createdAt : Z; lastActive : Z }.

Definition set_role (r : Role) (u : t) : t :=
  mk (id u) (username u) (email u) (password u) r (avatar u) (bio u)
     (postCount u) (threadCount u) (isBanned u) (banReason u)
     (hasPrivateAccess u) (createdAt u) (lastActive u).
Definition set_postCount (n : Z) (u : t) : t :=
  mk (id u) (username u) (email u) (password u) (role u) (avatar u) (bio u)
     n (threadCount u) (isBanned u) (banReason u)
     (hasPrivateAccess u) (createdAt u) (lastActive u).
Definition set_threadCount (n : Z) (u : t) : t :=
  mk (id u) (username u) (email u) (password u) (role u) (avatar u) (bio u)
     (postCount u) n (isBanned u) (banReason u)
     (hasPrivateAccess u) (createdAt u) (lastActive u).
Definition set_isBanned (b : bool) (u : t) : t :=
  mk (id u) (username u) (email u) (password u) (role u) (avatar u) (bio u)
     (postCount u) (threadCount u) b (banReason u)
     (hasPrivateAccess u) (createdAt u) (lastActive u).
Definition set_banReason (r : option jsstring) (u : t) : t :=
  mk (id u) (username u) (email u) (password u) (role u) (avatar u) (bio u)
     (postCount u) (threadCount u) (isBanned u) r
     (hasPrivateAccess u) (createdAt u) (lastActive u).
Definition set_hasPrivateAccess (b : bool) (u : t) : t :=
  mk (id u) (username u) (email u) (password u) (role u) (avatar u) (bio u)
     (postCount u) (threadCount u) (isBanned u) (banReason u)
     b (createdAt u) (lastActive u).
Definition set_lastActive (n : Z) (u : t) : t :=
  mk (id u) (username u) (email u) (password u) (role u) (avatar u) (bio u)
     (postCount u) (threadCount u) (isBanned u) (banReason u)
     (hasPrivateAccess u) (createdAt u) n.

(** The row as [res.json] sends it. *)
Definition json (u : t) : JSON :=
  JObj [ ("id", JNum (id u)); ("username", JStr (username u));
         ("email", JStr (email u)); ("password", JStr (password u));
         ("role", JStr (role_name (role u)));
         ("avatar", opt_json JStr (avatar u)); ("bio", opt_json JStr (bio u));
         ("postCount", JNum (postCount u));
         ("threadCount", JNum (threadCount u));
         ("isBanned", JBool (isBanned u));
         ("banReason", opt_json JStr (banReason u));
         ("hasPrivateAccess", JBool (hasPrivateAccess u));
         ("createdAt", JDate (createdAt u));
         ("lastActive", JDate (lastActive u)) ]%string.
End User.

Module Category.
Record t := mk {
  id : Z; name : jsstring; description : option jsstring; slug : jsstring;
  icon : option jsstring; sortOrder : Z; isPrivate : bool;
  threadCount : Z; postCount : Z }.

Definition set_counts (tc pc : Z) (c : t) : t :=
  mk (id c) (name c) (description c) (slug c) (icon c) (sortOrder c)
     (isPrivate c) tc pc.

Definition json (c : t) : JSON :=
  JObj [ ("id", JNum (id c)); ("name", JStr (name c));
         ("description", opt_json JStr (description c));
         ("slug", JStr (slug c)); ("icon", opt_json JStr (icon c));
         ("sortOrder", JNum (sortOrder c));
         ("isPrivate", JBool (isPrivate c));
         ("threadCount", JNum (threadCount c));
         ("postCount", JNum (postCount c)) ]%string.
End Category.

Module Thread.
Record t := mk {
  id : Z; title : jsstring; content : jsstring; categoryId : Z;
  authorId : Z; isPinned : bool; isLocked : bool; viewCount : Z;
  replyCount : Z; lastReplyAt : option Z; lastReplyById : option Z;
  createdAt : Z; updatedAt : Z }.

Definition set_replyCount (n : Z) (x : t) : t :=
  mk (id x) (title x) (content x) (categoryId x) (authorId x) (isPinned x)
     (isLocked x) (viewCount x) n (lastReplyAt x) (lastReplyById x)
     (createdAt x) (updatedAt x).
Definition set_lastReply (at_ by_ : option Z) (x : t) : t :=
  mk (id x) (title x) (content x) (categoryId x) (authorId x) (isPinned x)
     (isLocked x) (viewCount x) (replyCount x) at_ by_
     (createdAt x) (updatedAt x).
Definition set_viewCount (n : Z) (x : t) : t :=
  mk (id x) (title x) (content x) (categoryId x) (authorId x) (isPinned x)
     (isLocked x) n (replyCount x) (lastReplyAt x) (lastReplyById x)
     (createdAt x) (updatedAt x).

Definition json (x : t) : JSON :=
  JObj [ ("id", JNum (id x)); ("title", JStr (title x));
         ("content", JStr (content x)); ("categoryId", JNum (categoryId x));
         ("authorId", JNum (authorId x)); ("isPinned", JBool (isPinned x));
         ("isLocked", JBool (isLocked x)); ("viewCount", JNum (viewCount x));
         ("replyCount", JNum (replyCount x));
         ("lastReplyAt", opt_json JDate (lastReplyAt x));
         ("lastReplyById", opt_json JNum (lastReplyById x));
         ("createdAt", JDate (createdAt x));
         ("updatedAt", JDate (updatedAt x)) ]%string.
End Thread.

Module Post.
Record t := mk {
  id : Z; content : jsstring; threadId : Z; authorId : Z;
  parentId : option Z; isEdited : bool; createdAt : Z; updatedAt : Z }.

Definition json (p : t) : JSON :=
  JObj [ ("id", JNum (id p)); ("content", JStr (content p));
         ("threadId", JNum (threadId p)); ("authorId", JNum (authorId p));
         ("parentId", opt_json JNum (parentId p));
         ("isEdited", JBool (isEdited p));
         ("createdAt", JDate (createdAt p));
         ("updatedAt", JDate (updatedAt p)) ]%string.
End Post.

Module Invite.
Record t := mk {
  id : Z; userId : Z; reason : jsstring; status : InviteStatus;
  reviewedById : option Z; reviewedAt : option Z; createdAt : Z }.

Definition review (s : InviteStatus) (reviewer now : Z) (i : t) : t :=
  mk (id i) (userId i) (reason i) s (Some reviewer) (Some now) (createdAt i).

Definition json (i : t) : JSON :=
  JObj [ ("id", JNum (id i)); ("userId", JNum (userId i));
         ("reason", JStr (reason i));
         ("status", JStr (status_name (status i)));
         ("reviewedById", opt_json JNum (reviewedById i));
         ("reviewedAt", opt_json JDate (reviewedAt i));
         ("createdAt", JDate (createdAt i)) ]%string.
End Invite.

Module ModLog.
Record t := mk {
  id : Z; moderatorId : Z; targetUserId : option Z;
  action : ModerationAction; reason : option jsstring;
  details : option jsstring; createdAt : Z }.
End ModLog.

(** The database: the six tables the server writes, and the identity
    sequences of the five it inserts into. *)
Record DB := mkDB {
  users : list User.t;
  categories : list Category.t;
  threads : list Thread.t;
  posts : list Post.t;
  privateInvites : list Invite.t;
  moderationLogs : list ModLog.t;
  seqUsers : Z; seqThreads : Z; seqPosts : Z; seqInvites : Z; seqLogs : Z }.

Definition set_users (l : list User.t) (d : DB) : DB :=
  mkDB l (categories d) (threads d) (posts d) (privateInvites d)
       (moderationLogs d) (seqUsers d) (seqThreads d) (seqPosts d)
       (seqInvites d) (seqLogs d).
Definition set_categories (l : list Category.t) (d : DB) : DB :=
  mkDB (users d) l (threads d) (posts d) (privateInvites d)
       (moderationLogs d) (seqUsers d) (seqThreads d) (seqPosts d)
       (seqInvites d) (seqLogs d).
Definition set_threads (l : list Thread.t) (d : DB) : DB :=
  mkDB (users d) (categories d) l (posts d) (privateInvites d)
       (moderationLogs d) (seqUsers d) (seqThreads d) (seqPosts d)
       (seqInvites d) (seqLogs d).
Definition set_posts (l : list Post.t) (d : DB) : DB :=
  mkDB (users d) (categories d) (threads d) l (privateInvites d)
       (moderationLogs d) (seqUsers d) (seqThreads d) (seqPosts d)
       (seqInvites d) (seqLogs d).
Definition set_privateInvites (l : list Invite.t) (d : DB) : DB :=
  mkDB (users d) (categories d) (threads d) (posts d) l
       (moderationLogs d) (seqUsers d) (seqThreads d) (seqPosts d)
       (seqInvites d) (seqLogs d).

(** One row appended, the table's sequence advanced. *)
Definition push_user (u : User.t) (d : DB) : DB :=
  mkDB (users d ++ [u]) (categories d) (threads d) (posts d)
       (privateInvites d) (moderationLogs d) (seqUsers d + 1) (seqThreads d)
       (seqPosts d) (seqInvites d) (seqLogs d).
Definition push_thread (x : Thread.t) (d : DB) : DB :=
  mkDB (users d) (categories d) (threads d ++ [x]) (posts d)
       (privateInvites d) (moderationLogs d) (seqUsers d) (seqThreads d + 1)
       (seqPosts d) (seqInvites d) (seqLogs d).
Definition push_post (p : Post.t) (d : DB) : DB :=
  mkDB (users d) (categories d) (threads d) (posts d ++ [p])
       (privateInvites d) (moderationLogs d) (seqUsers d) (seqThreads d)
       (seqPosts d + 1) (seqInvites d) (seqLogs d).
Definition push_invite (i : Invite.t) (d : DB) : DB :=
  mkDB (users d) (categories d) (threads d) (posts d)
       (privateInvites d ++ [i]) (moderationLogs d) (seqUsers d)
       (seqThreads d) (seqPosts d) (seqInvites d + 1) (seqLogs d).
Definition push_log (l : ModLog.t) (d : DB) : DB :=
  mkDB (users d) (categories d) (threads d) (posts d)
       (privateInvites d) (moderationLogs d ++ [l]) (seqUsers d)
       (seqThreads d) (seqPosts d) (seqInvites d) (seqLogs d + 1).

Local Open Scope Z_scope.

(* ================================================================== *)
(** * The storage module: class DatabaseStorage *)
(* ================================================================== *)

(** Number of characters PostgreSQL counts in a string: a surrogate pair is
    one character. *)
Definition isHighSurrogate (c : N) : bool := ((55296 <=? c) && (c <=? 56319))%N.
Definition isLowSurrogate (c : N) : bool := ((56320 <=? c) && (c <=? 57343))%N.

Fixpoint pg_length (s : jsstring) : nat :=
  match s with
  | [] => O
  | c :: r =>
      match r with
      | d :: r' => if isHighSurrogate c && isLowSurrogate d
                   then S (pg_length r') else S (pg_length r)
      | [] => 1%nat
      end
  end.

Definition varchar (n : nat) (s : jsstring) : bool := (pg_length s <=? n)%nat.

(** ** What the driver and the server make of a parameter *)

(** The columns [integer] hold 32 bits: a statement raises an error when an
    integer parameter, the next value of an identity sequence or the result
    of an increment is beyond that range. *)
Definition int4 (n : Z) : bool := (-2147483648 <=? n) && (n <=? 2147483647).

(** A text parameter goes to the server as UTF-8: the driver turns a
    surrogate that is not part of a pair into U+FFFD. *)
Fixpoint wire (s : jsstring) : jsstring :=
  match s with
  | [] => []
  | c :: r =>
      if isHighSurrogate c then
        match r with
        | d :: r' => if isLowSurrogate d then c :: d :: wire r'
                     else 65533%N :: wire r
        | [] => [65533%N]
        end
      else if isLowSurrogate c then 65533%N :: wire r
      else c :: wire r
  end.

(** The server refuses a text that holds U+0000: the statement raises an
    error. *)
Definition text_ok (s : jsstring) : bool := negb (existsb (N.eqb 0) s).

Definition opt_text_ok (o : option jsstring) : bool :=
  match o with Some s => text_ok s | None => true end.

Definition count {A} (f : A -> bool) (l : list A) : Z :=
  Z.of_nat (List.length (filter f l)).

(** ** Users *)

Definition getUser (d : DB) (id : Z) : option User.t :=
  find (fun u => User.id u =? id) (users d).

(** The two lookups by text: [None] when the query raises. *)
Definition getUserByEmail (d : DB) (email : jsstring)
  : option (option User.t) :=
  if text_ok email
  then Some (find (fun u => str_eqb (User.email u) (wire email)) (users d))
  else None.

Definition getUserByUsername (d : DB) (username : jsstring)
  : option (option User.t) :=
  if text_ok username
  then Some (find (fun u => str_eqb (User.username u) (wire username)) (users d))
  else None.

Record InsertUser := {
  iu_username : jsstring; iu_email : jsstring; iu_password : jsstring;
  iu_role : Role }.

Definition createUser (now : Z) (ins : InsertUser) (d : DB)
  : option (User.t * DB) :=
  let row := User.mk (seqUsers d) (wire (iu_username ins))
               (wire (iu_email ins)) (wire (iu_password ins)) (iu_role ins)
               None None 0 0 false None false now now in
  if int4 (seqUsers d)
     && text_ok (iu_username ins) && text_ok (iu_email ins)
     && text_ok (iu_password ins)
     && negb (existsb (fun u => User.id u =? seqUsers d) (users d))
     && negb (existsb (fun u => str_eqb (User.username u) (User.username row))
                (users d))
     && negb (existsb (fun u => str_eqb (User.email u) (User.email row))
                (users d))
     && varchar 50 (User.username row) && varchar 255 (User.email row)
  then Some (row, push_user row d)
  else None.

(** [Partial<User>], on the columns the routes set. *)
Record UserPatch := {
  p_role : option Role;
  p_isBanned : option bool;
  p_banReason : option (option jsstring);
  p_lastActive : option Z }.

Definition patch_user (p : UserPatch) (u : User.t) : User.t :=
  let u := match p_role p with Some r => User.set_role r u | None => u end in
  let u := match p_isBanned p with Some b => User.set_isBanned b u | None => u end in
  let u := match p_banReason p with
           | Some r => User.set_banReason (option_map wire r) u
           | None => u
           end in
  match p_lastActive p with Some n => User.set_lastActive n u | None => u end.

(** [None] when the statement raises: the id is beyond the column's range,
    or the new ban reason is a text the server refuses. *)
Definition updateUser (id : Z) (data : UserPatch) (d : DB)
  : option (option User.t * DB) :=
  if int4 id
     && match p_banReason data with Some r => opt_text_ok r | None => true end
  then
    let d' := set_users (map (fun u => if User.id u =? id then patch_user data u
                                        else u) (users d)) d in
    Some (find (fun u => User.id u =? id) (users d'), d')
  else None.

(** [orderBy]: a stable insertion sort; [before a b] says that [a] must
    come strictly before [b]. *)
Fixpoint insert_by {A} (before : A -> A -> bool) (a : A) (l : list A) : list A :=
  match l with
  | [] => [a]
  | b :: r => if before b a then b :: insert_by before a r else a :: l
  end.

Definition order_by {A} (before : A -> A -> bool) (l : list A) : list A :=
  fold_right (insert_by before) [] l.

(** [orderBy(desc(users.createdAt))]. *)
Definition getAllUsers (d : DB) : list User.t :=
  order_by (fun a b => User.createdAt b <? User.createdAt a) (users d).

(** ** Categories *)

(** [orderBy(categories.sortOrder)]. *)
Definition getCategories (d : DB) : list Category.t :=
  order_by (fun a b => Category.sortOrder a <? Category.sortOrder b)
    (categories d).

Definition getCategoryBySlug (d : DB) (slug : jsstring) : option Category.t :=
  find (fun c => str_eqb (Category.slug c) slug) (categories d).

Definition updateCategoryStats (id : Z) (d : DB) : DB :=
  let threadCount := count (fun x => Thread.categoryId x =? id) (threads d) in
  let postCount :=
    fold_right Z.add 0
      (map (fun p => count (fun x => (Thread.id x =? Post.threadId p)
                                     && (Thread.categoryId x =? id))
                       (threads d))
           (posts d)) in
  set_categories
    (map (fun c => if Category.id c =? id
                   then Category.set_counts threadCount postCount c else c)
       (categories d)) d.

(** ** Threads *)

Record ThreadWithRelations := {
  thread : Thread.t;
  author : option User.t;
  category : option Category.t;
  lastReplyBy : option User.t }.

(** The row with its relations.  As a query by id, [getThread] raises when
    the id is beyond the column's range; no stored id is, so the callers
    tell that case apart when no row is found. *)
Definition getThread (d : DB) (id : Z) : option ThreadWithRelations :=
  match find (fun x => Thread.id x =? id) (threads d) with
  | Some x =>
      Some {| thread := x;
              author := getUser d (Thread.authorId x);
              category := find (fun c => Category.id c =? Thread.categoryId x)
                            (categories d);
              lastReplyBy := match Thread.lastReplyById x with
                             | Some u => getUser d u
                             | None => None
                             end |}
  | None => None
  end.

Record InsertThread := {
  it_title : jsstring; it_content : jsstring; it_categoryId : Z;
  it_authorId : Z }.

Definition createThread (now : Z) (ins : InsertThread) (d : DB)
  : option (Thread.t * DB) :=
  let row := Thread.mk (seqThreads d) (wire (it_title ins))
               (wire (it_content ins)) (it_categoryId ins) (it_authorId ins)
               false false 0 0 None None now now in
  if int4 (seqThreads d)
     && text_ok (it_title ins) && text_ok (it_content ins)
     && negb (existsb (fun x => Thread.id x =? seqThreads d) (threads d))
     && existsb (fun c => Category.id c =? it_categoryId ins) (categories d)
     && existsb (fun u => User.id u =? it_authorId ins) (users d)
     && varchar 255 (Thread.title row)
  then
    let d1 := push_thread row d in
    let d2 := set_users
                (map (fun u => if User.id u =? it_authorId ins
                               then User.set_threadCount (User.threadCount u + 1) u
                               else u) (users d1)) d1 in
    Some (row, updateCategoryStats (it_categoryId ins) d2)
  else None.

(** [onDelete: "cascade"] on [posts.threadId]; [None] when the first query
    raises on an id beyond the column's range. *)
Definition deleteThread (id : Z) (d : DB) : option DB :=
  if int4 id then
    match getThread d id with
    | Some x =>
        let d1 := set_threads
                    (filter (fun y => negb (Thread.id y =? id)) (threads d)) d in
        let d2 := set_posts
                    (filter (fun p => negb (Post.threadId p =? id)) (posts d1)) d1 in
        Some (updateCategoryStats (Thread.categoryId (thread x)) d2)
    | None => Some d
    end
  else None.

(** [None] when the statement raises: the id is beyond the column's range,
    or the count of the thread would leave it. *)
Definition incrementViewCount (id : Z) (d : DB) : option DB :=
  if int4 id
     && forallb (fun x => negb (Thread.id x =? id)
                          || int4 (Thread.viewCount x + 1)) (threads d)
  then
    Some (set_threads
            (map (fun x => if Thread.id x =? id
                           then Thread.set_viewCount (Thread.viewCount x + 1) x
                           else x) (threads d)) d)
  else None.

(** ** Posts *)

Record InsertPost := {
  ip_content : jsstring; ip_threadId : Z; ip_authorId : Z;
  ip_parentId : option Z }.

Definition createPost (now : Z) (ins : InsertPost) (d : DB)
  : option (Post.t * DB) :=
  let row := Post.mk (seqPosts d) (wire (ip_content ins)) (ip_threadId ins)
               (ip_authorId ins) (ip_parentId ins) false now now in
  if int4 (seqPosts d) && text_ok (ip_content ins)
     && negb (existsb (fun p => Post.id p =? seqPosts d) (posts d))
     && existsb (fun x => Thread.id x =? ip_threadId ins) (threads d)
     && existsb (fun u => User.id u =? ip_authorId ins) (users d)
  then
    let d1 := push_post row d in
    let d2 := set_threads
                (map (fun x => if Thread.id x =? ip_threadId ins
                               then Thread.set_lastReply (Some now)
                                      (Some (ip_authorId ins))
                                      (Thread.set_replyCount
                                         (Thread.replyCount x + 1) x)
                               else x) (threads d1)) d1 in
    let d3 := set_users
                (map (fun u => if User.id u =? ip_authorId ins
                               then User.set_postCount (User.postCount u + 1) u
                               else u) (users d2)) d2 in
    Some (row,
          match find (fun x => Thread.id x =? ip_threadId ins) (threads d3) with
          | Some x => updateCategoryStats (Thread.categoryId x) d3
          | None => d3
          end)
  else None.

(** [None] when the first query raises: the id is beyond the column's
    range. *)
Definition deletePost (id : Z) (d : DB) : option DB :=
  if int4 id then
    match find (fun p => Post.id p =? id) (posts d) with
    | Some p =>
        let d1 := set_posts
                    (filter (fun q => negb (Post.id q =? id)) (posts d)) d in
        let d2 := set_threads
                    (map (fun x => if Thread.id x =? Post.threadId p
                                   then Thread.set_replyCount
                                          (Thread.replyCount x - 1) x
                                   else x) (threads d1)) d1 in
        match find (fun x => Thread.id x =? Post.threadId p) (threads d2) with
        | Some x => Some (updateCategoryStats (Thread.categoryId x) d2)
        | None => Some d2
        end
    | None => Some d
    end
  else None.

(** ** Private invites *)

(** First row of [orderBy(desc(privateInvites.createdAt))]; among rows of
    equal time the one inserted first. *)
Fixpoint latest (l : list Invite.t) : option Invite.t :=
  match l with
  | [] => None
  | i :: r =>
      match latest r with
      | Some j => if Invite.createdAt i <? Invite.createdAt j then Some j
                  else Some i
      | None => Some i
      end
  end.

Definition getPrivateInviteByUser (d : DB) (userId : Z) : option Invite.t :=
  latest (filter (fun i => Invite.userId i =? userId) (privateInvites d)).

Record InsertPrivateInvite := { ii_userId : Z; ii_reason : jsstring }.

Definition createPrivateInvite (now : Z) (ins : InsertPrivateInvite) (d : DB)
  : option (Invite.t * DB) :=
  let row := Invite.mk (seqInvites d) (ii_userId ins) (wire (ii_reason ins))
               pending None None now in
  if int4 (seqInvites d) && text_ok (ii_reason ins)
     && negb (existsb (fun i => Invite.id i =? seqInvites d) (privateInvites d))
     && existsb (fun u => User.id u =? ii_userId ins) (users d)
  then Some (row, push_invite row d)
  else None.

Definition updatePrivateInvite (now : Z) (id : Z) (status : InviteStatus)
    (reviewerId : Z) (d : DB) : option (option Invite.t * DB) :=
  if negb (int4 id)
     || existsb (fun i => Invite.id i =? id) (privateInvites d)
        && negb (existsb (fun u => User.id u =? reviewerId) (users d))
  then None
  else
    let d1 := set_privateInvites
                (map (fun i => if Invite.id i =? id
                               then Invite.review status reviewerId now i
                               else i) (privateInvites d)) d in
    match find (fun i => Invite.id i =? id) (privateInvites d1) with
    | Some result =>
        match status with
        | approved =>
            Some (Some result,
                  set_users
                    (map (fun u => if User.id u =? Invite.userId result
                                   then User.set_hasPrivateAccess true u
                                   else u) (users d1)) d1)
        | _ => Some (Some result, d1)
        end
    | None => Some (None, d1)
    end.

(** ** Moderation *)

Record InsertModerationLog := {
  il_moderatorId : Z; il_targetUserId : option Z;
  il_action : ModerationAction; il_reason : option jsstring;
  il_details : option jsstring }.

Definition createModerationLog (now : Z) (ins : InsertModerationLog) (d : DB)
  : option (ModLog.t * DB) :=
  let row := ModLog.mk (seqLogs d) (il_moderatorId ins) (il_targetUserId ins)
               (il_action ins) (option_map wire (il_reason ins))
               (option_map wire (il_details ins)) now in
  if int4 (seqLogs d)
     && opt_text_ok (il_reason ins) && opt_text_ok (il_details ins)
     && negb (existsb (fun l => ModLog.id l =? seqLogs d) (moderationLogs d))
     && existsb (fun u => User.id u =? il_moderatorId ins) (users d)
     && match il_targetUserId ins with
        | Some t => existsb (fun u => User.id u =? t) (users d)
        | None => true
        end
  then Some (row, push_log row d)
  else None.

(* ================================================================== *)
(** * Requests, responses, sessions *)
(* ================================================================== *)

Inductive Method := GET | HEAD | OPTIONS | POST | PUT | PATCH | DELETE.

(** The paths of [registerRoutes] that change state or return user rows,
    together with the token endpoint and the two reads of a thread (the
    thread itself, which counts a view, and its posts).  A path parameter
    [:id] is carried as the result of [parseInt] on it, [None] standing for
    [NaN]; a handler that passes [NaN] on to the database gets the
    database's error, hence its [catch] and 500.  The listing and
    statistics endpoints, which only read, are not modelled. *)
Inductive Path :=
| P_csrf_token                         (* /api/csrf-token *)
| P_auth_register                      (* /api/auth/register *)
| P_auth_login                         (* /api/auth/login *)
| P_auth_logout                        (* /api/auth/logout *)
| P_auth_me                            (* /api/auth/me *)
| P_threads                            (* /api/threads *)
| P_thread (id : option Z)             (* /api/threads/:id *)
| P_thread_posts (id : option Z)       (* /api/threads/:id/posts *)
| P_post (id : option Z)               (* /api/posts/:id *)
| P_private_invites                    (* /api/private-invites *)
| P_admin_users                        (* /api/admin/users *)
| P_admin_private_invite (id : option Z) (* /api/admin/private-invites/:id *)
| P_admin_user_role (id : option Z)    (* /api/admin/users/:id/role *)
| P_admin_user_ban (id : option Z).    (* /api/admin/users/:id/ban *)

Record Request := {
  r_method : Method;
  r_path : Path;
  r_cookie : option N;                 (* the session id of the cookie *)
  r_csrf : option jsstring;            (* the x-csrf-token header *)
  r_body : JSON }.

Record Response := { status : Z; body : JSON }.

Definition message (code : Z) (text : string) : Response :=
  {| status := code; body := JObj [("message"%string, JStr (js text))] |}.

Definition json (code : Z) (v : JSON) : Response :=
  {| status := code; body := v |}.

(** What the outside world contributes to one request. *)
Record Env := {
  now : Z;                             (* new Date(), defaultNow() *)
  randomToken : jsstring;              (* crypto.randomBytes(32).toString("hex") *)
  randomSalt : jsstring;               (* the salt bcrypt.hash draws *)
  newSid : N }.                        (* the id of a session created now *)

Record SessionData := {
  userId : option Z;
  csrfToken : option jsstring }.

Definition emptySession : SessionData :=
  {| userId := None; csrfToken := None |}.

Definition session_eqb (a b : SessionData) : bool :=
  match userId a, userId b with
  | Some x, Some y => x =? y
  | None, None => true
  | _, _ => false
  end
  && match csrfToken a, csrfToken b with
     | Some x, Some y => str_eqb x y
     | None, None => true
     | _, _ => false
     end.

(** The session store, keyed by session id. *)
Definition Sessions := list (N * SessionData).

Definition sess_get (sid : N) (l : Sessions) : option SessionData :=
  match find (fun kv => (fst kv =? sid)%N) l with
  | Some kv => Some (snd kv)
  | None => None
  end.

Fixpoint sess_set (sid : N) (sd : SessionData) (l : Sessions) : Sessions :=
  match l with
  | [] => [(sid, sd)]
  | kv :: r => if (fst kv =? sid)%N then (sid, sd) :: r
               else kv :: sess_set sid sd r
  end.

Definition sess_del (sid : N) (l : Sessions) : Sessions :=
  filter (fun kv => negb (fst kv =? sid)%N) l.

Record World := { db : DB; sessions : Sessions }.

(** The state a handler works on: the database and [req.session], which is
    [None] once [req.session.destroy] has run. *)
Record St := { st_db : DB; st_sess : option SessionData }.

Definition with_db (d : DB) (st : St) : St :=
  {| st_db := d; st_sess := st_sess st |}.

Definition destroy (st : St) : St :=
  {| st_db := st_db st; st_sess := None |}.

Definition set_userId (id : Z) (st : St) : St :=
  {| st_db := st_db st;
     st_sess := match st_sess st with
                | Some sd => Some {| userId := Some id; csrfToken := csrfToken sd |}
                | None => None
                end |}.

Definition set_csrfToken (t : jsstring) (st : St) : St :=
  {| st_db := st_db st;
     st_sess := match st_sess st with
                | Some sd => Some {| userId := userId sd; csrfToken := Some t |}
                | None => None
                end |}.

(** [req.session.userId] when it is truthy. *)
Definition session_userId (st : St) : option Z :=
  match st_sess st with
  | Some sd => match userId sd with
               | Some id => if id =? 0 then None else Some id
               | None => None
               end
  | None => None
  end.

(** [req.session.csrfToken] when it is truthy. *)
Definition session_csrfToken (st : St) : option jsstring :=
  match st_sess st with
  | Some sd => match csrfToken sd with
               | Some [] => None
               | o => o
               end
  | None => None
  end.

Definition Outcome : Type := Response * St.

(* ================================================================== *)
(** * The csrf module *)
(* ================================================================== *)

Definition safe_method (m : Method) : bool :=
  match m with GET | HEAD | OPTIONS => true | _ => false end.

(** [if (!req.session.csrfToken) req.session.csrfToken = generateToken()]. *)
Definition ensureToken (env : Env) (st : St) : St :=
  match session_csrfToken st with
  | None => set_csrfToken (randomToken env) st
  | Some _ => st
  end.

Definition csrfProtection (env : Env) (req : Request) (st : St)
    (next : St -> Outcome) : Outcome :=
  let st := ensureToken env st in
  if safe_method (r_method req) then next st
  else
    match r_csrf req with
    | Some (c :: cs) =>
        match st_sess st with
        | Some {| csrfToken := Some t |} =>
            if str_eqb (c :: cs) t then next st
            else (message 403 "Token CSRF invalide", st)
        | _ => (message 403 "Token CSRF invalide", st)
        end
    | _ => (message 403 "Token CSRF invalide", st)
    end.

Definition getCsrfToken (env : Env) (st : St) : Outcome :=
  let st := ensureToken env st in
  (json 200 (JObj [("csrfToken"%string,
                    opt_json JStr match st_sess st with
                                  | Some sd => csrfToken sd
                                  | None => None
                                  end)]), st).

(* ================================================================== *)
(** * The route module: middlewares *)
(* ================================================================== *)

Definition requireAuth (st : St) (next : St -> Outcome) : Outcome :=
  match session_userId st with
  | None => (message 401 "Authentification requise", st)
  | Some _ => next st
  end.

Definition requireRole (roles : list Role) (st : St) (next : St -> Outcome)
  : Outcome :=
  match session_userId st with
  | None => (message 401 "Authentification requise", st)
  | Some uid =>
      match getUser (st_db st) uid with
      | Some user =>
          if existsb (role_eqb (User.role user)) roles then next st
          else (message 403 "Permissions insuffisantes", st)
      | None => (message 403 "Permissions insuffisantes", st)
      end
  end.

Definition checkBanned (st : St) (next : St -> Outcome) : Outcome :=
  match session_userId st with
  | Some uid =>
      match getUser (st_db st) uid with
      | Some user =>
          if User.isBanned user
          then (message 403 "Votre compte a été banni", destroy st)
          else next st
      | None => next st
      end
  | None => next st
  end.

(* ================================================================== *)
(** * The route module: route handlers *)
(* ================================================================== *)

Definition decimal (z : Z) : jsstring :=
  js (NilZero.string_of_int (Z.to_int z)).

(** [storage.getUser(req.session.userId!)]. *)
Definition sessionUser (st : St) : option User.t :=
  match st_sess st with
  | Some {| userId := Some id |} => getUser (st_db st) id
  | _ => None
  end.

(** [const { password: _, ...safeUser } = user]. *)
Definition safeUser (user : User.t) : JSON :=
  omit "password" (User.json user).

Section Routes.

(** Library code the handlers call. *)
Variable isEmail : jsstring -> bool.                 (* zod: z.string().email() *)
Variable zodMessage : string -> JSON -> jsstring.    (* zod's own wording of an issue *)
Variable toLowerCase : jsstring -> jsstring.         (* String.prototype.toLowerCase *)
Variable bcrypt_hash : jsstring -> jsstring -> jsstring.    (* salt, password *)
Variable bcrypt_compare : jsstring -> jsstring -> bool.     (* password, hash *)
Variable pg_text : JSON -> jsstring.   (* the driver's text for a non-string parameter *)

(** ** Auth routes *)

Record RegisterData := {
  rd_username : jsstring; rd_email : jsstring; rd_password : jsstring;
  rd_confirmPassword : jsstring }.

(** [registerSchema.parse]; on failure, [error.errors[0].message]. *)
Definition registerSchema_parse (body : JSON) : RegisterData + jsstring :=
  match body with
  | JObj _ =>
      match field "username" body with
      | JStr username =>
          if (List.length username <? 3)%nat
          then inr (js "Le nom d'utilisateur doit contenir au moins 3 caractères")
          else if (50 <? List.length username)%nat
          then inr (zodMessage "username" (JStr username))
          else
            match field "email" body with
            | JStr email =>
                if negb (isEmail email) then inr (js "Email invalide")
                else
                  match field "password" body with
                  | JStr password =>
                      if (List.length password <? 8)%nat
                      then inr (js "Le mot de passe doit contenir au moins 8 caractères")
                      else
                        match field "confirmPassword" body with
                        | JStr confirm =>
                            if str_eqb password confirm
                            then inl {| rd_username := username;
                                        rd_email := email;
                                        rd_password := password;
                                        rd_confirmPassword := confirm |}
                            else inr (js "Les mots de passe ne correspondent pas")
                        | v => inr (zodMessage "confirmPassword" v)
                        end
                  | v => inr (zodMessage "password" v)
                  end
            | v => inr (zodMessage "email" v)
            end
      | v => inr (zodMessage "username" v)
      end
  | v => inr (zodMessage "" v)
  end.

(** [loginSchema.parse]. *)
Definition loginSchema_parse (body : JSON) : (jsstring * jsstring) + jsstring :=
  match body with
  | JObj _ =>
      match field "email" body with
      | JStr email =>
          if negb (isEmail email) then inr (js "Email invalide")
          else
            match field "password" body with
            | JStr password =>
                if (List.length password <? 1)%nat
                then inr (js "Mot de passe requis")
                else inl (email, password)
            | v => inr (zodMessage "password" v)
            end
      | v => inr (zodMessage "email" v)
      end
  | v => inr (zodMessage "" v)
  end.

Definition zodError (m : jsstring) : Response :=
  json 400 (JObj [("message"%string, JStr m)]).

(** POST /api/auth/register *)
Definition register (env : Env) (req : Request) (st : St) : Outcome :=
  match registerSchema_parse (r_body req) with
  | inr m => (zodError m, st)
  | inl data =>
      match getUserByEmail (st_db st) (rd_email data) with
      | None => (message 500 "Une erreur est survenue", st)
      | Some (Some _) => (message 400 "Cet email est déjà utilisé", st)
      | Some None =>
          match getUserByUsername (st_db st) (rd_username data) with
          | None => (message 500 "Une erreur est survenue", st)
          | Some (Some _) =>
              (message 400 "Ce nom d'utilisateur est déjà pris", st)
          | Some None =>
              let hashedPassword :=
                bcrypt_hash (randomSalt env) (rd_password data) in
              match createUser (now env)
                      {| iu_username := sanitizeInput (rd_username data);
                         iu_email := toLowerCase (rd_email data);
                         iu_password := hashedPassword;
                         iu_role := new_user |} (st_db st) with
              | Some (user, d) =>
                  (json 201 (JObj [("user"%string, safeUser user)]),
                   set_userId (User.id user) (with_db d st))
              | None => (message 500 "Une erreur est survenue", st)
              end
          end
      end
  end.

(** POST /api/auth/login *)
Definition login (env : Env) (req : Request) (st : St) : Outcome :=
  match loginSchema_parse (r_body req) with
  | inr m => (zodError m, st)
  | inl (email, password) =>
      match getUserByEmail (st_db st) (toLowerCase email) with
      | None => (message 500 "Une erreur est survenue", st)
      | Some None => (message 401 "Email ou mot de passe incorrect", st)
      | Some (Some user) =>
          if User.isBanned user
          then (message 403 "Votre compte a été banni", st)
          else if negb (bcrypt_compare password (User.password user))
          then (message 401 "Email ou mot de passe incorrect", st)
          else
            match updateUser (User.id user)
                    {| p_role := None; p_isBanned := None;
                       p_banReason := None;
                       p_lastActive := Some (now env) |} (st_db st) with
            | Some (_, d) =>
                (json 200 (JObj [("user"%string, safeUser user)]),
                 set_userId (User.id user) (with_db d st))
            | None => (message 500 "Une erreur est survenue", st)
            end
      end
  end.

(** POST /api/auth/logout *)
Definition logout (st : St) : Outcome :=
  (message 200 "Déconnexion réussie", destroy st).

(** GET /api/auth/me *)
Definition me (st : St) : Outcome :=
  match session_userId st with
  | None => (message 401 "Non authentifié", st)
  | Some uid =>
      match getUser (st_db st) uid with
      | None => (message 401 "Utilisateur introuvable", destroy st)
      | Some user => (json 200 (JObj [("user"%string, safeUser user)]), st)
      end
  end.

(** ** Threads and posts *)

(** POST /api/threads *)
Definition postThread (env : Env) (req : Request) (st : St) : Outcome :=
  requireAuth st (fun st =>
    match sessionUser st with
    | None =>
        (message 403 "Les nouveaux utilisateurs ne peuvent pas créer de discussions", st)
    | Some user =>
        if role_eqb (User.role user) new_user
        then (message 403 "Les nouveaux utilisateurs ne peuvent pas créer de discussions", st)
        else
          let title := field "title" (r_body req) in
          let content := field "content" (r_body req) in
          let categoryId := field "categoryId" (r_body req) in
          let byId :=
            find (fun c => match categoryId with
                           | JNum z => Category.id c =? z
                           | _ => false
                           end) (getCategories (st_db st)) in
          let category :=
            match getCategoryBySlug (st_db st)
                    match byId with
                    | Some c => Category.slug c
                    | None => []
                    end with
            | Some c => Some c
            | None => byId
            end in
          match category with
          | None => (message 400 "Catégorie invalide", st)
          | Some category =>
              if Category.isPrivate category && negb (User.hasPrivateAccess user)
              then (message 403 "Accès non autorisé à cette section", st)
              else
                match title, content, categoryId with
                | JStr title, JStr content, JNum categoryId =>
                    match createThread (now env)
                            {| it_title := sanitizeInput title;
                               it_content := sanitizeInput content;
                               it_categoryId := categoryId;
                               it_authorId := User.id user |} (st_db st) with
                    | Some (x, d) => (json 201 (Thread.json x), with_db d st)
                    | None =>
                        (message 500 "Erreur lors de la création de la discussion", st)
                    end
                | _, _, _ =>
                    (message 500 "Erreur lors de la création de la discussion", st)
                end
          end
    end).

(** POST /api/threads/:id/posts *)
Definition postPost (env : Env) (id : option Z) (req : Request) (st : St)
  : Outcome :=
  requireAuth st (fun st =>
    match id with
    | None => (message 400 "ID invalide", st)
    | Some threadId =>
        match sessionUser st with
        | None =>
            (message 403 "Les nouveaux utilisateurs ne peuvent pas répondre", st)
        | Some user =>
            if role_eqb (User.role user) new_user
            then (message 403 "Les nouveaux utilisateurs ne peuvent pas répondre", st)
            else
              match getThread (st_db st) threadId with
              | None =>
                  if int4 threadId
                  then (message 404 "Discussion introuvable", st)
                  else (message 500 "Erreur lors de la création du message", st)
              | Some x =>
                  if Thread.isLocked (thread x)
                  then (message 403 "Cette discussion est verrouillée", st)
                  else if match category x with
                          | Some c => Category.isPrivate c
                          | None => false
                          end && negb (User.hasPrivateAccess user)
                  then (message 403 "Accès non autorisé", st)
                  else
                    let content := field "content" (r_body req) in
                    if negb (truthy content)
                    then (message 400 "Le contenu est requis", st)
                    else
                      match content with
                      | JStr content =>
                          if (List.length (trim content) <? 1)%nat
                          then (message 400 "Le contenu est requis", st)
                          else
                            match createPost (now env)
                                    {| ip_content := sanitizeInput content;
                                       ip_threadId := threadId;
                                       ip_authorId := User.id user;
                                       ip_parentId := None |} (st_db st) with
                            | Some (p, d) =>
                                (json 201 (Post.json p), with_db d st)
                            | None =>
                                (message 500 "Erreur lors de la création du message", st)
                            end
                      | _ => (message 500 "Erreur lors de la création du message", st)
                      end
              end
        end
    end).

(** DELETE /api/posts/:id *)
Definition deletePostRoute (env : Env) (id : option Z) (st : St) : Outcome :=
  requireRole [admin; moderator] st (fun st =>
    match id with
    | None => (message 400 "ID invalide", st)
    | Some postId =>
        match deletePost postId (st_db st) with
        | None => (message 500 "Erreur lors de la suppression du message", st)
        | Some d =>
            match st_sess st with
            | Some {| userId := Some uid |} =>
                match createModerationLog (now env)
                        {| il_moderatorId := uid; il_targetUserId := None;
                           il_action := delete_post; il_reason := None;
                           il_details :=
                             Some (js "Post ID: " ++ decimal postId) |}
                        d with
                | Some (_, d') =>
                    (message 200 "Message supprimé", with_db d' st)
                | None =>
                    (message 500 "Erreur lors de la suppression du message",
                     with_db d st)
                end
            | _ => (message 500 "Erreur lors de la suppression du message",
                    with_db d st)
            end
        end
    end).

(** [getPostsByThread]: the posts of a thread, oldest first, each with
    its author row. *)
Definition getPostsByThread (d : DB) (threadId : Z) : list JSON :=
  map (fun p =>
         match Post.json p with
         | JObj props =>
             JObj (props ++ [("author"%string,
                              opt_json User.json (getUser d (Post.authorId p)))])
         | v => v
         end)
      (order_by (fun a b => Post.createdAt a <? Post.createdAt b)
         (filter (fun p => Post.threadId p =? threadId) (posts d))).

(** GET /api/threads/:id/posts *)
Definition getPosts (id : option Z) (st : St) : Outcome :=
  match id with
  | None => (message 400 "ID invalide", st)
  | Some threadId =>
      match getThread (st_db st) threadId with
      | None =>
          if int4 threadId
          then (message 404 "Discussion introuvable", st)
          else (message 500 "Erreur lors de la récupération des messages", st)
      | Some x =>
          let posts := json 200 (JArr (getPostsByThread (st_db st) threadId)) in
          if match category x with
             | Some c => Category.isPrivate c
             | None => false
             end
          then
            match session_userId st with
            | None => (message 403 "Accès réservé aux membres", st)
            | Some uid =>
                match getUser (st_db st) uid with
                | Some user =>
                    if User.hasPrivateAccess user then (posts, st)
                    else (message 403 "Accès non autorisé", st)
                | None => (message 403 "Accès non autorisé", st)
                end
            end
          else (posts, st)
      end
  end.

(** [res.json(thread)]: the row and its three relations. *)
Definition threadWithRelations_json (x : ThreadWithRelations) : JSON :=
  match Thread.json (thread x) with
  | JObj props =>
      JObj (props ++ [("author", opt_json User.json (author x));
                      ("category", opt_json Category.json (category x));
                      ("lastReplyBy", opt_json User.json (lastReplyBy x))]%string)
  | v => v
  end.

(** GET /api/threads/:id *)
Definition getThreadRoute (id : option Z) (st : St) : Outcome :=
  match id with
  | None => (message 400 "ID invalide", st)
  | Some threadId =>
      match getThread (st_db st) threadId with
      | None =>
          if int4 threadId
          then (message 404 "Discussion introuvable", st)
          else (message 500 "Erreur lors de la récupération de la discussion", st)
      | Some x =>
          let view :=
            match incrementViewCount threadId (st_db st) with
            | Some d => (json 200 (threadWithRelations_json x), with_db d st)
            | None =>
                (message 500 "Erreur lors de la récupération de la discussion", st)
            end in
          if match category x with
             | Some c => Category.isPrivate c
             | None => false
             end
          then
            match session_userId st with
            | None => (message 403 "Accès réservé aux membres", st)
            | Some uid =>
                match getUser (st_db st) uid with
                | Some user =>
                    if User.hasPrivateAccess user then view
                    else (message 403 "Accès non autorisé", st)
                | None => (message 403 "Accès non autorisé", st)
                end
            end
          else view
      end
  end.

(** ** Private invites *)

(** POST /api/private-invites *)
Definition postInvite (env : Env) (req : Request) (st : St) : Outcome :=
  requireAuth st (fun st =>
    match sessionUser st with
    | None => (message 401 "Utilisateur introuvable", st)
    | Some user =>
        if User.hasPrivateAccess user
        then (message 400 "Vous avez déjà accès", st)
        else if match getPrivateInviteByUser (st_db st) (User.id user) with
                | Some {| Invite.status := pending |} => true
                | _ => false
                end
        then (message 400 "Vous avez déjà une demande en cours", st)
        else
          let reason := field "reason" (r_body req) in
          if negb (truthy reason)
          then (message 400 "La raison doit contenir au moins 50 caractères", st)
          else
            match reason with
            | JStr reason =>
                if (List.length (trim reason) <? 50)%nat
                then (message 400 "La raison doit contenir au moins 50 caractères", st)
                else
                  match createPrivateInvite (now env)
                          {| ii_userId := User.id user;
                             ii_reason := sanitizeInput reason |} (st_db st) with
                  | Some (invite, d) =>
                      (json 201 (Invite.json invite), with_db d st)
                  | None =>
                      (message 500 "Erreur lors de la création de la demande", st)
                  end
            | _ => (message 500 "Erreur lors de la création de la demande", st)
            end
    end).

(** ** Admin routes *)

(** GET /api/admin/users *)
Definition adminUsers (st : St) : Outcome :=
  requireRole [admin; moderator] st (fun st =>
    (json 200 (JArr (map safeUser (getAllUsers (st_db st)))), st)).

(** [["approved", "rejected"].includes(status)], and the status it names. *)
Definition decision (v : JSON) : option InviteStatus :=
  match v with
  | JStr s => if str_eqb s (js "approved") then Some approved
              else if str_eqb s (js "rejected") then Some rejected
              else None
  | _ => None
  end.

(** PATCH /api/admin/private-invites/:id *)
Definition patchInvite (env : Env) (id : option Z) (req : Request) (st : St)
  : Outcome :=
  requireRole [admin; moderator] st (fun st =>
    match decision (field "status" (r_body req)) with
    | None => (message 400 "Statut invalide", st)
    | Some status =>
        match id, st_sess st with
        | Some inviteId, Some {| userId := Some uid |} =>
            match updatePrivateInvite (now env) inviteId status uid (st_db st) with
            | None =>
                (message 500 "Erreur lors de la mise à jour de la demande", st)
            | Some (None, d) =>
                (message 404 "Demande introuvable", with_db d st)
            | Some (Some invite, d) =>
                match createModerationLog (now env)
                        {| il_moderatorId := uid;
                           il_targetUserId := Some (Invite.userId invite);
                           il_action := match status with
                                        | approved => approve_invite
                                        | _ => reject_invite
                                        end;
                           il_reason := None; il_details := None |} d with
                | Some (_, d') => (json 200 (Invite.json invite), with_db d' st)
                | None =>
                    (message 500 "Erreur lors de la mise à jour de la demande",
                     with_db d st)
                end
            end
        | _, _ => (message 500 "Erreur lors de la mise à jour de la demande", st)
        end
    end).

(** [["new_user", "member", "moderator", "admin"].includes(role)]. *)
Definition parse_role (v : JSON) : option Role :=
  match v with
  | JStr s => if str_eqb s (js "new_user") then Some new_user
              else if str_eqb s (js "member") then Some member
              else if str_eqb s (js "moderator") then Some moderator
              else if str_eqb s (js "admin") then Some admin
              else None
  | _ => None
  end.

(** PATCH /api/admin/users/:id/role *)
Definition patchRole (env : Env) (id : option Z) (req : Request) (st : St)
  : Outcome :=
  requireRole [admin] st (fun st =>
    match parse_role (field "role" (r_body req)) with
    | None => (message 400 "Rôle invalide", st)
    | Some role =>
        match id, st_sess st with
        | Some userId, Some {| userId := Some uid |} =>
            match updateUser userId
                    {| p_role := Some role; p_isBanned := None;
                       p_banReason := None; p_lastActive := None |}
                    (st_db st) with
            | None => (message 500 "Erreur lors de la mise à jour du rôle", st)
            | Some (None, d) =>
                (message 404 "Utilisateur introuvable", with_db d st)
            | Some (Some user, d) =>
                match createModerationLog (now env)
                        {| il_moderatorId := uid;
                           il_targetUserId := Some userId;
                           il_action := warn_user; il_reason := None;
                           il_details :=
                             Some (js "Rôle changé en: " ++ role_name role) |}
                        d with
                | Some (_, d') => (json 200 (safeUser user), with_db d' st)
                | None =>
                    (message 500 "Erreur lors de la mise à jour du rôle",
                     with_db d st)
                end
            end
        | _, _ => (message 500 "Erreur lors de la mise à jour du rôle", st)
        end
    end).

(** A body value bound to a nullable text column. *)
Definition text_param (v : JSON) : option jsstring :=
  match v with
  | JUndefined | JNull => None
  | JStr s => Some s
  | v => Some (pg_text v)
  end.

(** POST /api/admin/users/:id/ban *)
Definition postBan (env : Env) (id : option Z) (req : Request) (st : St)
  : Outcome :=
  requireRole [admin] st (fun st =>
    let reason := field "reason" (r_body req) in
    match id, st_sess st with
    | Some userId, Some {| userId := Some uid |} =>
        match updateUser userId
                {| p_role := None; p_isBanned := Some true;
                   p_banReason := match reason with
                                  | JUndefined => None
                                  | v => Some (text_param v)
                                  end;
                   p_lastActive := None |} (st_db st) with
        | None => (message 500 "Erreur lors du bannissement", st)
        | Some (None, d) => (message 404 "Utilisateur introuvable", with_db d st)
        | Some (Some user, d) =>
            match createModerationLog (now env)
                    {| il_moderatorId := uid; il_targetUserId := Some userId;
                       il_action := ban_user; il_reason := text_param reason;
                       il_details := None |} d with
            | Some (_, d') => (json 200 (safeUser user), with_db d' st)
            | None => (message 500 "Erreur lors du bannissement", with_db d st)
            end
        end
    | _, _ => (message 500 "Erreur lors du bannissement", st)
    end).

(** ** The application *)

(** What answers a request that none of the routes above matches
    (Express itself, or a middleware mounted after [registerRoutes]); it
    touches neither the database nor the session. *)
Variable notRouted : Request -> Response.

Definition route (env : Env) (req : Request) (st : St) : Outcome :=
  match r_method req, r_path req with
  | (GET | HEAD), P_csrf_token => getCsrfToken env st
  | POST, P_auth_register => register env req st
  | POST, P_auth_login => login env req st
  | POST, P_auth_logout => logout st
  | (GET | HEAD), P_auth_me => me st
  | POST, P_threads => postThread env req st
  | (GET | HEAD), P_thread id => getThreadRoute id st
  | (GET | HEAD), P_thread_posts id => getPosts id st
  | POST, P_thread_posts id => postPost env id req st
  | DELETE, P_post id => deletePostRoute env id st
  | POST, P_private_invites => postInvite env req st
  | (GET | HEAD), P_admin_users => adminUsers st
  | PATCH, P_admin_private_invite id => patchInvite env id req st
  | PATCH, P_admin_user_role id => patchRole env id req st
  | POST, P_admin_user_ban id => postBan env id req st
  | _, _ => (notRouted req, st)
  end.

(** The middleware chain of [registerRoutes]: [checkBanned], then
    [csrfProtection] (every modelled path is under /api), then the route. *)
Definition app (env : Env) (req : Request) (st : St) : Outcome :=
  checkBanned st (fun st =>
    csrfProtection env req st (fun st =>
      route env req st)).

(** express-session around the chain: the session of the cookie is loaded
    (a fresh empty one when the cookie names no stored session); after the
    response a destroyed session is gone from the store and a modified one
    is written back ([resave: false], [saveUninitialized: false]). *)
Definition load (env : Env) (req : Request) (w : World) : N * SessionData :=
  match r_cookie req with
  | Some sid => match sess_get sid (sessions w) with
                | Some sd => (sid, sd)
                | None => (newSid env, emptySession)
                end
  | None => (newSid env, emptySession)
  end.

Definition store (sid : N) (sd0 : SessionData) (w : World) (st : St) : World :=
  {| db := st_db st;
     sessions := match st_sess st with
                 | None => sess_del sid (sessions w)
                 | Some sd => if session_eqb sd sd0 then sessions w
                              else sess_set sid sd (sessions w)
                 end |}.

Definition handle (env : Env) (req : Request) (w : World) : Response * World :=
  let '(sid, sd0) := load env req w in
  let '(resp, st) := app env req {| st_db := db w; st_sess := Some sd0 |} in
  (resp, store sid sd0 w st).

(* ================================================================ *)
(** * Storage-level operation sequences *)
(* ================================================================ *)

(** The four content mutations of [DatabaseStorage]. *)
Inductive Op :=
| OpCreateThread (ins : InsertThread)
| OpCreatePost (ins : InsertPost)
| OpDeletePost (id : Z)
| OpDeleteThread (id : Z).

Definition run_op (time : Z) (op : Op) (d : DB) : option DB :=
  match op with
  | OpCreateThread ins => option_map snd (createThread time ins d)
  | OpCreatePost ins => option_map snd (createPost time ins d)
  | OpDeletePost id => deletePost id d
  | OpDeleteThread id => deleteThread id d
  end.

(** A sequence of operations, each at its time; [None] as soon as one
    of them throws. *)
Fixpoint run (ops : list (Z * Op)) (d : DB) : option DB :=
  match ops with
  | [] => Some d
  | (time, op) :: r =>
      match run_op time op d with
      | Some d' => run r d'
      | None => None
      end
  end.

(** Threads, resp. posts, that the sequence creates for author [uid]. *)
Definition threads_created (uid : Z) (ops : list (Z * Op)) : Z :=
  count (fun o => match snd o with
                  | OpCreateThread ins => it_authorId ins =? uid
                  | _ => false
                  end) ops.

Definition posts_created (uid : Z) (ops : list (Z * Op)) : Z :=
  count (fun o => match snd o with
                  | OpCreatePost ins => ip_authorId ins =? uid
                  | _ => false
                  end) ops.

(** Live rows of an author. *)
Definition live_threads (uid : Z) (d : DB) : Z :=
  count (fun x => Thread.authorId x =? uid) (threads d).

Definition live_posts (uid : Z) (d : DB) : Z :=
  count (fun p => Post.authorId p =? uid) (posts d).

(** The most recent remaining post of a thread, if any (of two posts of
    the same time, the later row). *)
Fixpoint newest (l : list Post.t) : option Post.t :=
  match l with
  | [] => None
  | p :: r =>
      match newest r with
      | Some q => if Post.createdAt q <? Post.createdAt p then Some p else Some q
      | None => Some p
      end
  end.

Definition latest_post (d : DB) (threadId : Z) : option Post.t :=
  newest (filter (fun p => Post.threadId p =? threadId) (posts d)).

(* ================================================================ *)
(** * Who is asking *)
(* ================================================================ *)

(** The request presents the stored session [sd] under id [sid], and
    that session is bound to the user row [u]. *)
Definition authenticated (w : World) (req : Request) (sid : N)
    (sd : SessionData) (u : User.t) : Prop :=
  r_cookie req = Some sid /\
  sess_get sid (sessions w) = Some sd /\
  userId sd = Some (User.id u) /\
  User.id u <> 0 /\
  getUser (db w) (User.id u) = Some u.

(** The request echoes the session's anti-forgery token. *)
Definition echoes_token (req : Request) (sd : SessionData) : Prop :=
  exists t, csrfToken sd = Some t /\ t <> [] /\ r_csrf req = Some t.

(** The session the request presents is bound to a banned user. *)
Definition presents_banned (env : Env) (req : Request) (w : World) : bool :=
  match session_userId {| st_db := db w; st_sess := Some (snd (load env req w)) |} with
  | Some uid => match getUser (db w) uid with
                | Some u => User.isBanned u
                | None => false
                end
  | None => false
  end.

(** The token [csrfProtection] compares with: the session's, or the one
    it has just issued when the session had none. *)
Definition expected_token (env : Env) (req : Request) (w : World) : jsstring :=
  match csrfToken (snd (load env req w)) with
  | Some (c :: cs) => c :: cs
  | _ => randomToken env
  end.

(** The failure kinds of the specification, read off the status and
    the message of a response. *)
Inductive Kind :=
| Validation | Unauthenticated | ForbiddenCsrf | Forbidden | NotFound
| Conflict | Locked | Internal.

Definition has_message (r : Response) (text : string) : bool :=
  match field "message" (body r) with
  | JStr m => str_eqb m (js text)
  | _ => false
  end.

Definition kind (r : Response) : option Kind :=
  if status r =? 400 then
    if has_message r "Cet email est déjà utilisé"
       || has_message r "Ce nom d'utilisateur est déjà pris"
       || has_message r "Vous avez déjà accès"
       || has_message r "Vous avez déjà une demande en cours"
    then Some Conflict else Some Validation
  else if status r =? 401 then Some Unauthenticated
  else if status r =? 403 then
    if has_message r "Token CSRF invalide" then Some ForbiddenCsrf
    else if has_message r "Cette discussion est verrouillée" then Some Locked
    else Some Forbidden
  else if status r =? 404 then Some NotFound
  else if status r =? 500 then Some Internal
  else None.

(* ================================================================ *)
(** * Basic facts *)
(* ================================================================ *)

Lemma session_eqb_refl sd : session_eqb sd sd = true.
Proof.
  unfold session_eqb. destruct (userId sd), (csrfToken sd);
    rewrite ?Z.eqb_refl, ?str_eqb_refl; reflexivity.
Qed.

Lemma sess_get_del sid l : sess_get sid (sess_del sid l) = None.
Proof.
  unfold sess_get, sess_del. induction l as [|kv r IH]; simpl; auto.
  destruct (N.eqb_spec (fst kv) sid) as [E|E]; simpl; auto.
  apply N.eqb_neq in E. rewrite E. exact IH.
Qed.

Lemma store_same sid sd w :
  store sid sd w {| st_db := db w; st_sess := Some sd |} = w.
Proof.
  unfold store; simpl. rewrite session_eqb_refl. destruct w; reflexivity.
Qed.

Lemma load_stored env req w sid sd :
  r_cookie req = Some sid -> sess_get sid (sessions w) = Some sd ->
  load env req w = (sid, sd).
Proof. intros Hc Hs. unfold load. rewrite Hc, Hs. reflexivity. Qed.

Lemma session_userId_bound d sd uid :
  userId sd = Some uid -> uid <> 0 ->
  session_userId {| st_db := d; st_sess := Some sd |} = Some uid.
Proof.
  intros H N. unfold session_userId; simpl. rewrite H.
  apply Z.eqb_neq in N. rewrite N. reflexivity.
Qed.

Lemma sessionUser_bound d sd uid :
  userId sd = Some uid ->
  sessionUser {| st_db := d; st_sess := Some sd |} = getUser d uid.
Proof. intros H. unfold sessionUser; simpl. destruct sd; simpl in *. subst. reflexivity. Qed.

(** [checkBanned] on the session of a banned user. *)
Lemma checkBanned_banned st next uid u :
  session_userId st = Some uid -> getUser (st_db st) uid = Some u ->
  User.isBanned u = true ->
  checkBanned st next = (message 403 "Votre compte a été banni", destroy st).
Proof. intros H1 H2 H3. unfold checkBanned. rewrite H1, H2, H3. reflexivity. Qed.

(** C4. A session bound to a banned user, whenever it was created: the
    next request that presents it, whatever the request is, is answered
    403 "Votre compte a été banni" (Forbidden), the session is removed
    from the store, and the database is left as it was. *)
Theorem banned_session_destroyed
    (env : Env) (req : Request) (w : World) (sid : N) (sd : SessionData)
    (u : User.t) :
  authenticated w req sid sd u ->
  User.isBanned u = true ->
  fst (handle env req w) = message 403 "Votre compte a été banni" /\
  kind (fst (handle env req w)) = Some Forbidden /\
  sess_get sid (sessions (snd (handle env req w))) = None /\
  db (snd (handle env req w)) = db w.
Proof.
  intros (Hc & Hs & Hu & Hn & Hg) Hb.
  assert (E : handle env req w =
              (message 403 "Votre compte a été banni",
               {| db := db w; sessions := sess_del sid (sessions w) |})).
  { unfold handle. rewrite (load_stored env req w sid sd Hc Hs).
    unfold app.
    rewrite (checkBanned_banned _ _ (User.id u) u
               (session_userId_bound (db w) sd (User.id u) Hu Hn) Hg Hb).
    reflexivity. }
  rewrite E; simpl. repeat split.
  apply sess_get_del.
Qed.

Lemma handle_unfold env req w :
  handle env req w =
  (fst (app env req {| st_db := db w; st_sess := Some (snd (load env req w)) |}),
   store (fst (load env req w)) (snd (load env req w)) w
     (snd (app env req {| st_db := db w; st_sess := Some (snd (load env req w)) |}))).
Proof.
  unfold handle. destruct (load env req w) as [sid sd0]. simpl.
  destruct (app env req _) as [resp st]. reflexivity.
Qed.

Lemma checkBanned_pass env req w next :
  presents_banned env req w = false ->
  checkBanned {| st_db := db w; st_sess := Some (snd (load env req w)) |} next
  = next {| st_db := db w; st_sess := Some (snd (load env req w)) |}.
Proof.
  unfold presents_banned, checkBanned.
  destruct (session_userId _) as [uid|]; [|reflexivity]. simpl.
  destruct (getUser (db w) uid) as [u|]; [|reflexivity].
  intros ->. reflexivity.
Qed.

Lemma ensureToken_loaded env req w :
  ensureToken env {| st_db := db w; st_sess := Some (snd (load env req w)) |}
  = {| st_db := db w;
       st_sess := Some {| userId := userId (snd (load env req w));
                          csrfToken := Some (expected_token env req w) |} |}.
Proof.
  unfold ensureToken, expected_token, session_csrfToken, set_csrfToken; simpl.
  destruct (snd (load env req w)) as [uid [[|c cs]|]]; reflexivity.
Qed.

Lemma ensureToken_db env st : st_db (ensureToken env st) = st_db st.
Proof. unfold ensureToken. destruct (session_csrfToken st); reflexivity. Qed.

(** [csrfProtection] lets every GET, HEAD and OPTIONS request through. *)
Lemma csrfProtection_safe env req st next :
  safe_method (r_method req) = true ->
  csrfProtection env req st next = next (ensureToken env st).
Proof. intros H. unfold csrfProtection. rewrite H. reflexivity. Qed.

(** C5 (amended). Take a request whose session is not bound to a banned
    user.  If its method is not GET, HEAD or OPTIONS and the x-csrf-token
    header is absent, empty or different from the session's token, the
    answer is 403 "Token CSRF invalide" (ForbiddenCsrf) whatever the
    session holds otherwise; no route runs: the database is unchanged and
    the session has only received its token.  If its method is GET, HEAD
    or OPTIONS the request reaches its route whatever the header says. *)
Theorem csrf_gate (env : Env) (req : Request) (w : World) :
  presents_banned env req w = false ->
  let st0 := {| st_db := db w; st_sess := Some (snd (load env req w)) |} in
  (safe_method (r_method req) = false ->
   (forall c, r_csrf req = Some c ->
              c = [] \/ c <> expected_token env req w) ->
   handle env req w =
     (message 403 "Token CSRF invalide",
      store (fst (load env req w)) (snd (load env req w)) w
        (ensureToken env st0)) /\
   kind (fst (handle env req w)) = Some ForbiddenCsrf /\
   db (snd (handle env req w)) = db w)
  /\
  (safe_method (r_method req) = true ->
   app env req st0 = route env req (ensureToken env st0)).
Proof.
  intros Hb st0. subst st0. split.
  - intros Hm Ht.
    assert (E : handle env req w =
                (message 403 "Token CSRF invalide",
                 store (fst (load env req w)) (snd (load env req w)) w
                   (ensureToken env
                      {| st_db := db w;
                         st_sess := Some (snd (load env req w)) |}))).
    { rewrite handle_unfold. unfold app.
      rewrite (checkBanned_pass env req w _ Hb).
      unfold csrfProtection. rewrite Hm.
      rewrite ensureToken_loaded. simpl.
      destruct (r_csrf req) as [[|c cs]|] eqn:Hc; try reflexivity.
      destruct (Ht (c :: cs) eq_refl) as [H|H]; [discriminate|].
      rewrite (str_eqb_neq _ _ H). reflexivity. }
    rewrite E. simpl. repeat split. apply ensureToken_db.
  - intros Hm. unfold app.
    rewrite (checkBanned_pass env req w _ Hb).
    apply csrfProtection_safe, Hm.
Qed.

(** ** Tables as lists *)

Lemma find_update {A} (key : A -> Z) (g : A -> A) (k k' : Z) (l : list A) :
  (forall x, key (g x) = key x) ->
  find (fun x => key x =? k') (map (fun x => if key x =? k then g x else x) l)
  = option_map (fun x => if key x =? k then g x else x)
      (find (fun x => key x =? k') l).
Proof.
  intros Hk. induction l as [|x r IH]; simpl; auto.
  assert (E : key (if key x =? k then g x else x) = key x)
    by (destruct (key x =? k); auto).
  rewrite E. destruct (key x =? k'); simpl; auto.
Qed.

Lemma update_absent {A} (key : A -> Z) (g : A -> A) (k : Z) (l : list A) :
  find (fun x => key x =? k) l = None ->
  map (fun x => if key x =? k then g x else x) l = l.
Proof.
  induction l as [|x r IH]; simpl; auto.
  destruct (key x =? k); [discriminate|]. intros H. f_equal. auto.
Qed.

Lemma existsb_find {A} (p : A -> bool) (l : list A) :
  existsb p l = match find p l with Some _ => true | None => false end.
Proof. induction l as [|x r IH]; simpl; auto. destruct (p x); auto. Qed.

Lemma db_eta d :
  mkDB (users d) (categories d) (threads d) (posts d) (privateInvites d)
       (moderationLogs d) (seqUsers d) (seqThreads d) (seqPosts d)
       (seqInvites d) (seqLogs d) = d.
Proof. destruct d; reflexivity. Qed.

(** ** Passing the guards *)

Lemma app_authenticated env req w sid sd u :
  authenticated w req sid sd u ->
  User.isBanned u = false ->
  echoes_token req sd ->
  handle env req w =
  (fst (route env req {| st_db := db w; st_sess := Some sd |}),
   store sid sd w (snd (route env req {| st_db := db w; st_sess := Some sd |}))).
Proof.
  intros (Hc & Hs & Hu & Hn & Hg) Hb (t & Ht & Hne & Hh).
  rewrite handle_unfold, (load_stored env req w sid sd Hc Hs). simpl.
  assert (E : app env req {| st_db := db w; st_sess := Some sd |}
              = route env req {| st_db := db w; st_sess := Some sd |}).
  { unfold app, checkBanned.
    rewrite (session_userId_bound (db w) sd (User.id u) Hu Hn). simpl.
    rewrite Hg, Hb. unfold csrfProtection, ensureToken, session_csrfToken.
    simpl. rewrite Ht. destruct t as [|c cs]; [congruence|].
    rewrite Hh. destruct (safe_method (r_method req)); [reflexivity|].
    destruct sd as [uid tok]; simpl in *. subst tok.
    rewrite str_eqb_refl. reflexivity. }
  rewrite E. reflexivity.
Qed.

Lemma requireRole_pass d sd u roles next :
  userId sd = Some (User.id u) -> User.id u <> 0 ->
  getUser d (User.id u) = Some u ->
  existsb (role_eqb (User.role u)) roles = true ->
  requireRole roles {| st_db := d; st_sess := Some sd |} next
  = next {| st_db := d; st_sess := Some sd |}.
Proof.
  intros Hu Hn Hg Hr. unfold requireRole.
  rewrite (session_userId_bound d sd (User.id u) Hu Hn). simpl.
  rewrite Hg, Hr. reflexivity.
Qed.

Lemma requireAuth_pass d sd uid next :
  userId sd = Some uid -> uid <> 0 ->
  requireAuth {| st_db := d; st_sess := Some sd |} next
  = next {| st_db := d; st_sess := Some sd |}.
Proof.
  intros Hu Hn. unfold requireAuth.
  rewrite (session_userId_bound d sd uid Hu Hn). reflexivity.
Qed.

Definition can_moderate (u : User.t) : Prop :=
  User.role u = admin \/ User.role u = moderator.

Lemma can_moderate_roles u :
  can_moderate u -> existsb (role_eqb (User.role u)) [admin; moderator] = true.
Proof. intros [H|H]; rewrite H; reflexivity. Qed.

(** ** Deciding a private-access request *)

(** The identity sequence of the audit log is within the range of the
    column and not an id already in use. *)
Definition log_seq_fresh (d : DB) : Prop :=
  int4 (seqLogs d) = true /\
  forall l, In l (moderationLogs d) -> ModLog.id l <> seqLogs d.

Lemma updatePrivateInvite_range time id status reviewer d :
  int4 id = false -> updatePrivateInvite time id status reviewer d = None.
Proof. intros H. unfold updatePrivateInvite. rewrite H. reflexivity. Qed.

Lemma updatePrivateInvite_absent time id status reviewer d :
  int4 id = true ->
  find (fun i => Invite.id i =? id) (privateInvites d) = None ->
  updatePrivateInvite time id status reviewer d = Some (None, d).
Proof.
  intros Hi H. unfold updatePrivateInvite.
  rewrite Hi, existsb_find, H. simpl.
  rewrite (update_absent Invite.id _ id _ H).
  unfold set_privateInvites at 1. simpl. rewrite H.
  unfold set_privateInvites. rewrite db_eta. reflexivity.
Qed.

Lemma updatePrivateInvite_present time id status reviewer d i :
  int4 id = true ->
  find (fun i => Invite.id i =? id) (privateInvites d) = Some i ->
  existsb (fun u => User.id u =? reviewer) (users d) = true ->
  exists d',
    updatePrivateInvite time id status reviewer d
    = Some (Some (Invite.review status reviewer time i), d') /\
    find (fun i => Invite.id i =? id) (privateInvites d')
    = Some (Invite.review status reviewer time i) /\
    moderationLogs d' = moderationLogs d /\ seqLogs d' = seqLogs d /\
    (forall k v, getUser d k = Some v -> exists v', getUser d' k = Some v') /\
    (status = approved ->
     forall v, getUser d (Invite.userId i) = Some v ->
               getUser d' (Invite.userId i)
               = Some (User.set_hasPrivateAccess true v)).
Proof.
  intros Hi H Hr. unfold updatePrivateInvite.
  rewrite Hi, existsb_find, H, Hr. simpl.
  rewrite (find_update Invite.id (Invite.review status reviewer time) id id)
    by reflexivity.
  rewrite H. simpl.
  assert (Ei : (Invite.id i =? id) = true).
  { apply find_some in H. tauto. }
  rewrite Ei.
  destruct status; eexists; (split; [reflexivity|]); simpl;
    rewrite (find_update Invite.id (Invite.review _ reviewer time) id id)
      by reflexivity;
    rewrite H; simpl; rewrite Ei; (split; [reflexivity|]);
    (split; [reflexivity|]); (split; [reflexivity|]);
    (split; [|try discriminate]); try (intros k v Hv; exists v; exact Hv).
  - intros k v Hv. unfold getUser in *. simpl.
    rewrite (find_update User.id (User.set_hasPrivateAccess true)
               (Invite.userId i) k) by reflexivity.
    rewrite Hv. simpl. eexists. reflexivity.
  - intros _ v Hv. unfold getUser in *. simpl.
    rewrite (find_update User.id (User.set_hasPrivateAccess true)
               (Invite.userId i) (Invite.userId i)) by reflexivity.
    rewrite Hv. simpl.
    apply find_some in Hv. destruct Hv as [_ Hv]. rewrite Hv. reflexivity.
Qed.

Lemma createModerationLog_tables time ins d l d' :
  createModerationLog time ins d = Some (l, d') ->
  users d' = users d /\ threads d' = threads d /\ posts d' = posts d /\
  privateInvites d' = privateInvites d /\ categories d' = categories d /\
  moderationLogs d' = moderationLogs d ++ [l].
Proof.
  unfold createModerationLog. destruct (_ && _); [|discriminate].
  intros E; inversion E; subst. simpl. repeat split.
Qed.

Lemma getUser_exists d uid u :
  getUser d uid = Some u -> existsb (fun v => User.id v =? uid) (users d) = true.
Proof. unfold getUser. intros H. rewrite existsb_find, H. reflexivity. Qed.

Lemma seq_fresh_existsb d :
  log_seq_fresh d ->
  existsb (fun l => ModLog.id l =? seqLogs d) (moderationLogs d) = false.
Proof.
  intros [_ Hf]. destruct (existsb _ _) eqn:X; [|reflexivity].
  apply existsb_exists in X. destruct X as (l & Hl & Heq).
  apply Z.eqb_eq in Heq. exfalso. exact (Hf l Hl Heq).
Qed.

(** The audit insert goes through when the keys are in order and the
    texts are ones the server takes. *)
Lemma createModerationLog_succeeds time ins d m :
  log_seq_fresh d -> getUser d (il_moderatorId ins) = Some m ->
  (forall t, il_targetUserId ins = Some t -> exists v, getUser d t = Some v) ->
  opt_text_ok (il_reason ins) = true -> opt_text_ok (il_details ins) = true ->
  exists l d', createModerationLog time ins d = Some (l, d').
Proof.
  intros Hf Hm Ht Hr Hd. unfold createModerationLog.
  rewrite (proj1 Hf), Hr, Hd, (seq_fresh_existsb d Hf),
    (getUser_exists _ _ _ Hm).
  destruct (il_targetUserId ins) as [t|].
  - destruct (Ht t eq_refl) as (v & Hv).
    rewrite (getUser_exists _ _ _ Hv). simpl. eauto.
  - simpl. eauto.
Qed.

(** C1 (amended). A moderator or administrator, with a valid session and
    token, decides request [id] with outcome approved or rejected.
    - An id beyond the range of the integer column: the update raises, the
      answer is 500 and nothing changes.
    - An id within the range that no request has: the answer is 404
      "Demande introuvable" (NotFound) and nothing changes, neither
      database nor sessions.
    - An id that a request has, in whatever status (pending, approved or
      rejected), in a store that keeps its keys (the requester's account
      exists, the audit log's identity sequence is ahead of its rows): the
      decision is applied.  The answer is 200 with the request, never 404;
      the request now carries the new outcome, the reviewer and the time,
      and an approved outcome sets the requester's grant. *)
Theorem decide_request
    (env : Env) (req : Request) (w : World) (sid : N) (sd : SessionData)
    (u : User.t) (id : Z) (outcome : InviteStatus) :
  authenticated w req sid sd u ->
  User.isBanned u = false ->
  echoes_token req sd ->
  can_moderate u ->
  r_method req = PATCH ->
  r_path req = P_admin_private_invite (Some id) ->
  decision (field "status" (r_body req)) = Some outcome ->
  (int4 id = false ->
   handle env req w
   = (message 500 "Erreur lors de la mise à jour de la demande", w))
  /\
  (int4 id = true ->
   find (fun i => Invite.id i =? id) (privateInvites (db w)) = None ->
   handle env req w = (message 404 "Demande introuvable", w))
  /\
  (forall i v,
     int4 id = true ->
     find (fun i => Invite.id i =? id) (privateInvites (db w)) = Some i ->
     getUser (db w) (Invite.userId i) = Some v ->
     log_seq_fresh (db w) ->
     let i' := Invite.review outcome (User.id u) (now env) i in
     let r := handle env req w in
     fst r = json 200 (Invite.json i') /\
     find (fun i => Invite.id i =? id) (privateInvites (db (snd r))) = Some i' /\
     (outcome = approved ->
      getUser (db (snd r)) (Invite.userId i)
      = Some (User.set_hasPrivateAccess true v))).
Proof.
  intros Ha Hb Ht Hr Hm Hp Hd.
  rewrite (app_authenticated env req w sid sd u Ha Hb Ht).
  destruct Ha as (Hc & Hs & Hu & Hn & Hg).
  unfold route. rewrite Hm, Hp. unfold patchInvite.
  rewrite (requireRole_pass (db w) sd u _ _ Hu Hn Hg (can_moderate_roles u Hr)).
  rewrite Hd. simpl st_sess. simpl st_db.
  destruct sd as [suid tok]; simpl in Hu; subst suid.
  split; [|split].
  - intros Hi. rewrite (updatePrivateInvite_range _ _ _ _ _ Hi).
    simpl. f_equal. apply store_same.
  - intros Hi Habs. rewrite (updatePrivateInvite_absent _ _ _ _ _ Hi Habs).
    simpl. f_equal. apply store_same.
  - intros i v Hi Hfi Hv Hf.
    destruct (updatePrivateInvite_present (now env) id outcome (User.id u)
                (db w) i Hi Hfi (getUser_exists _ _ _ Hg))
      as (d' & E & F & Lm & Ls & Gk & G).
    rewrite E.
    destruct (Gk _ _ Hg) as (m' & Hm').
    destruct (Gk _ _ Hv) as (v' & Hv').
    destruct (createModerationLog_succeeds (now env)
                {| il_moderatorId := User.id u;
                   il_targetUserId :=
                     Some (Invite.userId
                             (Invite.review outcome (User.id u) (now env) i));
                   il_action := match outcome with
                                | approved => approve_invite
                                | _ => reject_invite
                                end;
                   il_reason := None; il_details := None |} d' m')
      as (l & d'' & L).
    + split; [rewrite Ls; apply Hf|].
      intros x Hx. rewrite Ls. apply Hf. rewrite <- Lm. exact Hx.
    + exact Hm'.
    + intros t Et. simpl in Et. inversion Et; subst t.
      replace (Invite.userId (Invite.review outcome (User.id u) (now env) i))
        with (Invite.userId i) by (destruct i; reflexivity).
      eauto.
    + reflexivity.
    + reflexivity.
    + rewrite L. apply createModerationLog_tables in L.
      destruct L as (Lu & _ & _ & Li & _).
      simpl. rewrite Li. split; [reflexivity|]. split; [exact F|].
      intros Ho. unfold getUser. rewrite Lu. exact (G Ho v Hv).
Qed.

(** ** Posting into a locked thread *)

(** C8 (amended). A user with a valid session and token posts into a
    locked thread.  With any role other than new_user (member, moderator
    or admin alike) the answer is 403 "Cette discussion est verrouillée"
    (Locked); a new_user is turned away before the thread is looked at,
    with 403 "Les nouveaux utilisateurs ne peuvent pas répondre"
    (Forbidden).  In both cases nothing changes: threads, users,
    categories and every other table, and the sessions, are as before. *)
Theorem locked_thread_refuses_posts
    (env : Env) (req : Request) (w : World) (sid : N) (sd : SessionData)
    (u : User.t) (id : Z) (x : Thread.t) :
  authenticated w req sid sd u ->
  User.isBanned u = false ->
  echoes_token req sd ->
  r_method req = POST ->
  r_path req = P_thread_posts (Some id) ->
  find (fun y => Thread.id y =? id) (threads (db w)) = Some x ->
  Thread.isLocked x = true ->
  (User.role u <> new_user ->
   handle env req w = (message 403 "Cette discussion est verrouillée", w) /\
   kind (fst (handle env req w)) = Some Locked)
  /\
  (User.role u = new_user ->
   handle env req w =
     (message 403 "Les nouveaux utilisateurs ne peuvent pas répondre", w) /\
   kind (fst (handle env req w)) = Some Forbidden).
Proof.
  intros Ha Hb Ht Hm Hp Hx Hl.
  rewrite (app_authenticated env req w sid sd u Ha Hb Ht).
  destruct Ha as (Hc & Hs & Hu & Hn & Hg).
  unfold route. rewrite Hm, Hp. unfold postPost.
  rewrite (requireAuth_pass (db w) sd (User.id u) _ Hu Hn).
  rewrite (sessionUser_bound (db w) sd (User.id u) Hu). simpl st_db.
  rewrite Hg. unfold getThread. rewrite Hx. simpl thread. rewrite Hl.
  split; intros Hr.
  - assert (E : role_eqb (User.role u) new_user = false)
      by (destruct (User.role u); try reflexivity; congruence).
    rewrite E. simpl. rewrite store_same. split; reflexivity.
  - rewrite Hr. simpl. rewrite store_same. split; reflexivity.
Qed.

(** ** Submitting a private-access request *)

(** What the route tests: the request [getPrivateInviteByUser] returns is
    pending. *)
Definition latest_is_pending (d : DB) (uid : Z) : bool :=
  match getPrivateInviteByUser d uid with
  | Some {| Invite.status := pending |} => true
  | _ => false
  end.

(** A most recent request of the user: one of theirs that none of theirs
    is more recent than.  (Several, when the latest creation time is that
    of several requests.) *)
Definition most_recent (d : DB) (uid : Z) (i : Invite.t) : Prop :=
  In i (privateInvites d) /\ Invite.userId i = uid /\
  forall j, In j (privateInvites d) -> Invite.userId j = uid ->
            Invite.createdAt j <= Invite.createdAt i.

Lemma latest_some l i : In i l -> latest l <> None.
Proof.
  destruct l as [|k r]; [intros []|]. intros _. simpl.
  destruct (latest r); [destruct (_ <? _)|]; discriminate.
Qed.

Lemma latest_max l i :
  latest l = Some i ->
  In i l /\ forall j, In j l -> Invite.createdAt j <= Invite.createdAt i.
Proof.
  revert i. induction l as [|k r IH]; simpl; [discriminate|]. intros i.
  destruct (latest r) as [m|] eqn:Lr.
  - destruct (IH m eq_refl) as [Hin Hmax].
    destruct (Z.ltb_spec (Invite.createdAt k) (Invite.createdAt m)) as [L|L];
      intros E; inversion E; subst i.
    + split; [right; exact Hin|]. intros j [<-|Hj]; [lia|auto].
    + split; [left; reflexivity|]. intros j [<-|Hj]; [lia|].
      specialize (Hmax j Hj). lia.
  - intros E; inversion E; subst i. split; [left; reflexivity|].
    intros j [<-|Hj]; [lia|].
    exfalso. exact (latest_some r j Hj Lr).
Qed.

Lemma getPrivateInviteByUser_most_recent d uid i :
  getPrivateInviteByUser d uid = Some i -> most_recent d uid i.
Proof.
  unfold getPrivateInviteByUser. intros H. apply latest_max in H.
  destruct H as [Hin Hmax]. apply filter_In in Hin. destruct Hin as [Hin Hu].
  apply Z.eqb_eq in Hu. split; [exact Hin|]. split; [exact Hu|].
  intros j Hj Hju. apply Hmax. apply filter_In. split; [exact Hj|].
  apply Z.eqb_eq. exact Hju.
Qed.

Lemma latest_is_pending_true d uid :
  (exists i, most_recent d uid i) ->
  (forall i, most_recent d uid i -> Invite.status i = pending) ->
  latest_is_pending d uid = true.
Proof.
  intros (k & Hk & Hu & _) Hall. unfold latest_is_pending.
  destruct (getPrivateInviteByUser d uid) as [i|] eqn:E.
  - pose proof (Hall i (getPrivateInviteByUser_most_recent d uid i E)) as P.
    destruct i; simpl in P; subst. reflexivity.
  - exfalso. unfold getPrivateInviteByUser in E.
    apply (latest_some _ k) in E; [exact E|].
    apply filter_In. split; [exact Hk|]. apply Z.eqb_eq. exact Hu.
Qed.

Lemma latest_is_pending_false d uid :
  (forall i, most_recent d uid i -> Invite.status i <> pending) ->
  latest_is_pending d uid = false.
Proof.
  intros Hall. unfold latest_is_pending.
  destruct (getPrivateInviteByUser d uid) as [i|] eqn:E; [|reflexivity].
  pose proof (Hall i (getPrivateInviteByUser_most_recent d uid i E)) as P.
  destruct i as [a b c st e f g]. destruct st; try reflexivity.
  exfalso. apply P. reflexivity.
Qed.

(** The identity sequence of the invites is within the range of the column
    and not an id already in use. *)
Definition invite_seq_fresh (d : DB) : Prop :=
  int4 (seqInvites d) = true /\
  forall i, In i (privateInvites d) -> Invite.id i <> seqInvites d.

(** U+0000 goes through [sanitizeInput]: it is neither rewritten nor
    trimmed, and no replacement brings one in. *)
Lemma text_ok_iff s : text_ok s = true <-> ~ In 0%N s.
Proof.
  unfold text_ok. rewrite negb_true_iff. split.
  - intros H Hin.
    assert (T : existsb (N.eqb 0) s = true)
      by (apply existsb_exists; exists 0%N; split; [exact Hin|reflexivity]).
    congruence.
  - intros H. destruct (existsb _ s) eqn:E; [|reflexivity].
    apply existsb_exists in E. destruct E as (x & Hx & E).
    apply N.eqb_eq in E. subst x. contradiction.
Qed.

Lemma trimStart_keeps x s :
  isWhiteSpace x = false -> In x s -> In x (trimStart s).
Proof.
  intros W. induction s as [|c r IH]; simpl; [tauto|].
  destruct (isWhiteSpace c) eqn:Wc; [|simpl; tauto].
  intros [->|H]; [congruence|auto].
Qed.

Lemma trimEnd_keeps x s :
  isWhiteSpace x = false -> In x s -> In x (trimEnd s).
Proof.
  intros W. induction s as [|c r IH]; simpl; [tauto|].
  intros [->|H].
  - destruct (trimEnd r); [rewrite W|]; simpl; auto.
  - specialize (IH H). destruct (trimEnd r); [destruct IH|]. right. exact IH.
Qed.

Lemma replaceAll_keeps c by_ s x :
  x <> c -> In x s -> In x (replaceAll c by_ s).
Proof.
  intros N. induction s as [|y r IH]; simpl; [tauto|].
  intros [->|H].
  - destruct (N.eqb_spec x c); [contradiction|]. left. reflexivity.
  - destruct (y =? c)%N; [apply in_or_app|]; right; auto.
Qed.

Lemma sanitizeInput_nul s : In 0%N (sanitizeInput s) <-> In 0%N s.
Proof.
  unfold sanitizeInput, trim. split.
  - intros H. apply trimEnd_incl, trimStart_incl in H.
    repeat (apply replaceAll_in in H;
            destruct H as [H|[H _]];
            [vm_compute in H; intuition discriminate|]).
    exact H.
  - intros H. apply trimEnd_keeps, trimStart_keeps; try reflexivity.
    repeat (apply replaceAll_keeps; [discriminate|]). exact H.
Qed.

Lemma text_ok_sanitizeInput s : text_ok (sanitizeInput s) = text_ok s.
Proof.
  destruct (text_ok s) eqn:E.
  - apply text_ok_iff. rewrite sanitizeInput_nul. apply text_ok_iff, E.
  - destruct (text_ok (sanitizeInput s)) eqn:F; [|reflexivity].
    apply text_ok_iff in F. rewrite sanitizeInput_nul in F.
    apply text_ok_iff in F. congruence.
Qed.

Lemma seq_fresh_invites d :
  invite_seq_fresh d ->
  existsb (fun i => Invite.id i =? seqInvites d) (privateInvites d) = false.
Proof.
  intros [_ Hf]. destruct (existsb _ _) eqn:X; [|reflexivity].
  apply existsb_exists in X. destruct X as (i & Hi & Heq).
  apply Z.eqb_eq in Heq. exfalso. exact (Hf i Hi Heq).
Qed.

Lemma createPrivateInvite_ok time ins d u :
  text_ok (ii_reason ins) = true ->
  invite_seq_fresh d -> getUser d (ii_userId ins) = Some u ->
  createPrivateInvite time ins d =
  Some (Invite.mk (seqInvites d) (ii_userId ins) (wire (ii_reason ins))
          pending None None time,
        push_invite (Invite.mk (seqInvites d) (ii_userId ins)
                       (wire (ii_reason ins)) pending None None time) d).
Proof.
  intros Ht Hf Hu. unfold createPrivateInvite.
  rewrite (proj1 Hf), Ht, (getUser_exists _ _ _ Hu), (seq_fresh_invites d Hf).
  reflexivity.
Qed.

Lemma createPrivateInvite_refused time ins d :
  text_ok (ii_reason ins) = false -> createPrivateInvite time ins d = None.
Proof.
  intros Ht. unfold createPrivateInvite. rewrite Ht, andb_false_r.
  reflexivity.
Qed.

(** C7 (amended). A user with a valid session and token submits a
    justification text.
    - If the user already has the grant: 400 "Vous avez déjà accès"
      (Conflict).
    - Otherwise, if the user has requests and the most recent of them is
      pending (all the most recent ones, when several share the latest
      creation time): 400 "Vous avez déjà une demande en cours"
      (Conflict).
    - Otherwise, if the justification, once trimmed of surrounding white
      space, has fewer than 50 characters: 400 "La raison doit contenir
      au moins 50 caractères" (Validation).
    - Otherwise, if the justification holds the character U+0000, which
      the database refuses: 500 (Internal).
    In these four cases nothing changes.
    - Otherwise a request is created with status pending and returned
      with 201; it holds the sanitised justification as the database
      stores it (a surrogate that is not part of a pair replaced by
      U+FFFD).
    "Otherwise" in the last three cases: no most recent request of the
    user is pending; one that was rejected (or approved) does not stand in
    the way. *)
Theorem submit_request
    (env : Env) (req : Request) (w : World) (sid : N) (sd : SessionData)
    (u : User.t) (reason : jsstring) :
  authenticated w req sid sd u ->
  User.isBanned u = false ->
  echoes_token req sd ->
  r_method req = POST ->
  r_path req = P_private_invites ->
  field "reason" (r_body req) = JStr reason ->
  (User.hasPrivateAccess u = true ->
   handle env req w = (message 400 "Vous avez déjà accès", w) /\
   kind (fst (handle env req w)) = Some Conflict)
  /\
  (User.hasPrivateAccess u = false ->
   (exists i, most_recent (db w) (User.id u) i) ->
   (forall i, most_recent (db w) (User.id u) i -> Invite.status i = pending) ->
   handle env req w = (message 400 "Vous avez déjà une demande en cours", w) /\
   kind (fst (handle env req w)) = Some Conflict)
  /\
  (User.hasPrivateAccess u = false ->
   (forall i, most_recent (db w) (User.id u) i -> Invite.status i <> pending) ->
   (List.length (trim reason) < 50)%nat ->
   handle env req w =
     (message 400 "La raison doit contenir au moins 50 caractères", w) /\
   kind (fst (handle env req w)) = Some Validation)
  /\
  (User.hasPrivateAccess u = false ->
   (forall i, most_recent (db w) (User.id u) i -> Invite.status i <> pending) ->
   (50 <= List.length (trim reason))%nat ->
   text_ok reason = false ->
   handle env req w =
     (message 500 "Erreur lors de la création de la demande", w) /\
   kind (fst (handle env req w)) = Some Internal)
  /\
  (User.hasPrivateAccess u = false ->
   (forall i, most_recent (db w) (User.id u) i -> Invite.status i <> pending) ->
   (50 <= List.length (trim reason))%nat ->
   text_ok reason = true ->
   invite_seq_fresh (db w) ->
   let invite := Invite.mk (seqInvites (db w)) (User.id u)
                   (wire (sanitizeInput reason)) pending None None (now env) in
   handle env req w =
     (json 201 (Invite.json invite),
      {| db := push_invite invite (db w); sessions := sessions w |})).
Proof.
  intros Ha Hb Ht Hm Hp Hf.
  rewrite (app_authenticated env req w sid sd u Ha Hb Ht).
  destruct Ha as (Hc & Hs & Hu & Hn & Hg).
  unfold route. rewrite Hm, Hp. unfold postInvite.
  rewrite (requireAuth_pass (db w) sd (User.id u) _ Hu Hn).
  rewrite (sessionUser_bound (db w) sd (User.id u) Hu). simpl st_db.
  rewrite Hg, Hf.
  fold (latest_is_pending (db w) (User.id u)).
  split; [|split; [|split; [|split]]].
  - intros Hacc. rewrite Hacc. simpl. rewrite store_same.
    split; reflexivity.
  - intros Hacc Hex Hpen.
    rewrite Hacc, (latest_is_pending_true _ _ Hex Hpen). simpl.
    rewrite store_same. split; reflexivity.
  - intros Hacc Hnp Hlen. rewrite Hacc, (latest_is_pending_false _ _ Hnp).
    apply Nat.ltb_lt in Hlen.
    destruct reason as [|c r]; simpl negb; cbv iota.
    + simpl. rewrite store_same. split; reflexivity.
    + rewrite Hlen. simpl. rewrite store_same. split; reflexivity.
  - intros Hacc Hnp Hlen Hnul.
    rewrite Hacc, (latest_is_pending_false _ _ Hnp).
    assert (L : (List.length (trim reason) <? 50)%nat = false)
      by (apply Nat.ltb_ge; exact Hlen).
    destruct reason as [|c r]; [simpl in Hlen; lia|].
    simpl negb. cbv iota. rewrite L.
    rewrite createPrivateInvite_refused
      by (simpl ii_reason; rewrite text_ok_sanitizeInput; exact Hnul).
    simpl. rewrite store_same. split; reflexivity.
  - intros Hacc Hnp Hlen Hnul Hfresh.
    rewrite Hacc, (latest_is_pending_false _ _ Hnp).
    assert (L : (List.length (trim reason) <? 50)%nat = false)
      by (apply Nat.ltb_ge; exact Hlen).
    destruct reason as [|c r]; [simpl in Hlen; lia|].
    simpl negb. cbv iota. rewrite L.
    rewrite (createPrivateInvite_ok (now env)
               {| ii_userId := User.id u;
                  ii_reason := sanitizeInput (c :: r) |} (db w) u)
      by (try exact Hfresh; try exact Hg;
          simpl ii_reason; rewrite text_ok_sanitizeInput; exact Hnul).
    simpl. unfold store; simpl. rewrite session_eqb_refl. reflexivity.
Qed.

(** ** What the content mutations touch *)

Lemma updateCategoryStats_tables id d :
  users (updateCategoryStats id d) = users d /\
  threads (updateCategoryStats id d) = threads d /\
  posts (updateCategoryStats id d) = posts d /\
  privateInvites (updateCategoryStats id d) = privateInvites d /\
  moderationLogs (updateCategoryStats id d) = moderationLogs d /\
  seqLogs (updateCategoryStats id d) = seqLogs d.
Proof. unfold updateCategoryStats. simpl. repeat split. Qed.

Lemma filter_absent {A} (key : A -> Z) (k : Z) (l : list A) :
  find (fun x => key x =? k) l = None ->
  filter (fun x => negb (key x =? k)) l = l.
Proof.
  induction l as [|x r IH]; simpl; auto.
  destruct (key x =? k); [discriminate|]. simpl. intros H; f_equal; auto.
Qed.

(** The cases of [deletePost]: refused, nothing to delete, or the post
    deleted, with or without the recount of a category. *)
Ltac open_deletePost H :=
  unfold deletePost in H;
  destruct (int4 _); [|discriminate H];
  match type of H with
  | match find ?f ?l with _ => _ end = _ =>
      let F := fresh "F" in
      destruct (find f l) as [?p|] eqn:F;
      [ match type of H with
        | match ?g with _ => _ end = _ => destruct g
        end |];
      inversion H; subst; clear H
  end.

Lemma deletePost_range id d : int4 id = false -> deletePost id d = None.
Proof. intros H. unfold deletePost. rewrite H. reflexivity. Qed.

Lemma deletePost_total id d :
  int4 id = true -> exists d', deletePost id d = Some d'.
Proof.
  intros H. unfold deletePost. rewrite H.
  destruct (find _ (posts d)); [|eauto].
  match goal with
  | |- exists _, match ?f with _ => _ end = _ => destruct f
  end; eauto.
Qed.

Lemma deletePost_absent id d :
  int4 id = true ->
  find (fun p => Post.id p =? id) (posts d) = None -> deletePost id d = Some d.
Proof. intros Hi H. unfold deletePost. rewrite Hi, H. reflexivity. Qed.

Lemma deletePost_posts id d d' :
  deletePost id d = Some d' ->
  posts d' = filter (fun q => negb (Post.id q =? id)) (posts d).
Proof.
  intros H. open_deletePost H; try reflexivity.
  symmetry. apply (filter_absent Post.id). exact F.
Qed.

Lemma deletePost_users id d d' :
  deletePost id d = Some d' -> users d' = users d.
Proof. intros H. open_deletePost H; reflexivity. Qed.

Lemma deletePost_logs id d d' :
  deletePost id d = Some d' ->
  moderationLogs d' = moderationLogs d /\ seqLogs d' = seqLogs d.
Proof. intros H. open_deletePost H; split; reflexivity. Qed.

(** [deletePost] never writes the last-reply columns. *)
Lemma deletePost_keeps_lastReply id d d' :
  deletePost id d = Some d' ->
  map (fun x => (Thread.id x, Thread.lastReplyAt x, Thread.lastReplyById x))
    (threads d')
  = map (fun x => (Thread.id x, Thread.lastReplyAt x, Thread.lastReplyById x))
      (threads d).
Proof.
  intros H.
  assert (E : forall k l,
    map (fun x => (Thread.id x, Thread.lastReplyAt x, Thread.lastReplyById x))
      (map (fun x => if Thread.id x =? k
                     then Thread.set_replyCount (Thread.replyCount x - 1) x
                     else x) l)
    = map (fun x => (Thread.id x, Thread.lastReplyAt x, Thread.lastReplyById x)) l).
  { intros k. induction l as [|x r IH]; simpl; auto. rewrite IH.
    destruct (Thread.id x =? k); reflexivity. }
  open_deletePost H; simpl; try apply E. reflexivity.
Qed.

Lemma deleteThread_users id d d' :
  deleteThread id d = Some d' -> users d' = users d.
Proof.
  unfold deleteThread. destruct (int4 id); [|discriminate].
  destruct (getThread d id); intros H; inversion H; reflexivity.
Qed.

Lemma createThread_users time ins d x d' :
  createThread time ins d = Some (x, d') ->
  users d' = map (fun u => if User.id u =? it_authorId ins
                           then User.set_threadCount (User.threadCount u + 1) u
                           else u) (users d).
Proof.
  unfold createThread. destruct (_ && _); [|discriminate].
  intros E; inversion E; subst. reflexivity.
Qed.

Lemma createPost_users time ins d p d' :
  createPost time ins d = Some (p, d') ->
  users d' = map (fun u => if User.id u =? ip_authorId ins
                           then User.set_postCount (User.postCount u + 1) u
                           else u) (users d).
Proof.
  unfold createPost. destruct (_ && _); [|discriminate].
  intros E; inversion E; subst.
  match goal with
  | |- users (match ?f with _ => _ end) = _ => destruct f
  end; reflexivity.
Qed.

Lemma count_cons {A} (f : A -> bool) (a : A) (l : list A) :
  count f (a :: l) = (if f a then 1 else 0) + count f l.
Proof.
  unfold count. simpl. destruct (f a); simpl List.length; lia.
Qed.

Lemma count_nil {A} (f : A -> bool) : count f [] = 0.
Proof. reflexivity. Qed.

(** One operation: the author's counter moves up by one on a creation,
    and no counter moves otherwise. *)
Lemma run_op_counters time op d d' uid u :
  run_op time op d = Some d' -> getUser d uid = Some u ->
  exists u', getUser d' uid = Some u' /\
    User.threadCount u' = User.threadCount u
      + threads_created uid [(time, op)] /\
    User.postCount u' = User.postCount u
      + posts_created uid [(time, op)].
Proof.
  unfold threads_created, posts_created. rewrite !count_cons. simpl snd.
  unfold count; simpl. unfold getUser. intros Hrun Hu.
  destruct op as [ins|ins|id|id]; simpl in Hrun.
  - destruct (createThread time ins d) as [[x d1]|] eqn:E; [|discriminate].
    inversion Hrun; subst d1. rewrite (createThread_users _ _ _ _ _ E).
    rewrite (find_update User.id
               (fun u => User.set_threadCount (User.threadCount u + 1) u))
      by reflexivity.
    rewrite Hu. simpl. apply find_some in Hu. destruct Hu as [_ Hu].
    apply Z.eqb_eq in Hu. rewrite Hu, (Z.eqb_sym uid).
    destruct (it_authorId ins =? uid); eexists; (split; [reflexivity|]);
      simpl; lia.
  - destruct (createPost time ins d) as [[x d1]|] eqn:E; [|discriminate].
    inversion Hrun; subst d1. rewrite (createPost_users _ _ _ _ _ E).
    rewrite (find_update User.id
               (fun u => User.set_postCount (User.postCount u + 1) u))
      by reflexivity.
    rewrite Hu. simpl. apply find_some in Hu. destruct Hu as [_ Hu].
    apply Z.eqb_eq in Hu. rewrite Hu, (Z.eqb_sym uid).
    destruct (ip_authorId ins =? uid); eexists; (split; [reflexivity|]);
      simpl; lia.
  - rewrite (deletePost_users _ _ _ Hrun), Hu.
    eexists; split; [reflexivity|]. lia.
  - rewrite (deleteThread_users _ _ _ Hrun), Hu.
    eexists; split; [reflexivity|]. lia.
Qed.

(** C3 (amended). Over any sequence of createThread, createPost,
    deletePost and deleteThread that runs to its end, a user's
    threadCount grows by the number of threads the sequence creates for
    that author, and postCount by the number of posts it creates for that
    author: the counters count what the user has authored, whether or not
    it has been deleted since.  deletePost and deleteThread never lower
    them. *)
Theorem user_counters_count_authored (ops : list (Z * Op)) :
  forall (d d' : DB) (uid : Z) (u : User.t),
    run ops d = Some d' ->
    getUser d uid = Some u ->
    exists u', getUser d' uid = Some u' /\
      User.threadCount u' = User.threadCount u + threads_created uid ops /\
      User.postCount u' = User.postCount u + posts_created uid ops.
Proof.
  induction ops as [|[time op] r IH]; intros d d' uid u Hrun Hu.
  - simpl in Hrun. inversion Hrun; subst d'. exists u.
    unfold threads_created, posts_created, count; simpl.
    split; [exact Hu|]. lia.
  - simpl in Hrun. destruct (run_op time op d) as [d1|] eqn:E; [|discriminate].
    destruct (run_op_counters time op d d1 uid u E Hu) as (u1 & Hu1 & T1 & P1).
    destruct (IH d1 d' uid u1 Hrun Hu1) as (u' & Hu' & T & P).
    exists u'. split; [exact Hu'|].
    unfold threads_created, posts_created in *.
    rewrite !count_cons. rewrite !count_cons, !count_nil in T1, P1. lia.
Qed.

(** ** Deleting a post *)

(** Texts without U+0000 and without surrogates: the database stores
    them as they are. *)
Definition plain (s : jsstring) : Prop :=
  forall c, In c s -> (0 < c < 55296)%N.

Lemma plain_wire s : plain s -> wire s = s.
Proof.
  induction s as [|c r IH]; [reflexivity|]. intros H.
  assert (Hc : (0 < c < 55296)%N) by (apply H; left; reflexivity).
  assert (Hr : plain r) by (intros x Hx; apply H; right; exact Hx).
  cbn [wire]. unfold isHighSurrogate, isLowSurrogate.
  replace (55296 <=? c)%N with false by (symmetry; apply N.leb_gt; lia).
  replace (56320 <=? c)%N with false by (symmetry; apply N.leb_gt; lia).
  simpl. rewrite (IH Hr). reflexivity.
Qed.

Lemma plain_text_ok s : plain s -> text_ok s = true.
Proof.
  intros H. apply text_ok_iff. intros Hin. apply H in Hin. lia.
Qed.

Lemma plain_app a b : plain a -> plain b -> plain (a ++ b).
Proof.
  intros Ha Hb c Hc. apply in_app_or in Hc. destruct Hc; auto.
Qed.

(** ASCII text decodes to its own codes. *)
Lemma utf8_decode_ascii (bs : list N) :
  (forall b, In b bs -> (0 < b < 128)%N) -> utf8_decode bs = bs /\ plain bs.
Proof.
  induction bs as [|b r IH]; intros H.
  - split; [reflexivity|]. intros c [].
  - assert (Hb : (0 < b < 128)%N) by (apply H; left; reflexivity).
    destruct IH as [E P]; [intros x Hx; apply H; right; exact Hx|].
    cbn [utf8_decode].
    replace (b <? 128)%N with true by (symmetry; apply N.ltb_lt; lia).
    rewrite E. split; [reflexivity|].
    intros c [<-|Hc]; [lia|apply P, Hc].
Qed.

Lemma digits_ascii (d : Decimal.uint) b :
  In b (map N_of_ascii (list_ascii_of_string (NilEmpty.string_of_uint d))) ->
  (0 < b < 128)%N.
Proof.
  induction d; simpl; intros H;
    try (destruct H as [<-|H]; [vm_compute; split; reflexivity|auto]);
    destruct H.
Qed.

Lemma decimal_plain z : plain (decimal z).
Proof.
  unfold decimal, js.
  assert (A : forall b,
    In b (map N_of_ascii
            (list_ascii_of_string (NilZero.string_of_int (Z.to_int z)))) ->
    (0 < b < 128)%N).
  { intros b Hb.
    unfold NilZero.string_of_int, NilZero.string_of_uint in Hb.
    destruct (Z.to_int z) as [d|d].
    - destruct d; try (apply (digits_ascii _ _ Hb));
        simpl in Hb; destruct Hb as [<-|[]]; vm_compute; split; reflexivity.
    - simpl in Hb. destruct Hb as [<-|Hb]; [vm_compute; split; reflexivity|].
      destruct d; try (apply (digits_ascii _ _ Hb));
        simpl in Hb; destruct Hb as [<-|[]]; vm_compute; split; reflexivity. }
  destruct (utf8_decode_ascii _ A) as [E P]. rewrite E. exact P.
Qed.

Lemma createModerationLog_ok time ins d m :
  log_seq_fresh d -> getUser d (il_moderatorId ins) = Some m ->
  il_targetUserId ins = None ->
  opt_text_ok (il_reason ins) = true -> opt_text_ok (il_details ins) = true ->
  createModerationLog time ins d =
  Some (ModLog.mk (seqLogs d) (il_moderatorId ins) None (il_action ins)
          (option_map wire (il_reason ins)) (option_map wire (il_details ins))
          time,
        push_log (ModLog.mk (seqLogs d) (il_moderatorId ins) None
                    (il_action ins) (option_map wire (il_reason ins))
                    (option_map wire (il_details ins)) time) d).
Proof.
  intros Hf Hm Ht Hr Hd. unfold createModerationLog.
  rewrite (proj1 Hf), Hr, Hd, (getUser_exists _ _ _ Hm), Ht,
    (seq_fresh_existsb d Hf).
  reflexivity.
Qed.

(** The audit row [DELETE /api/posts/:id] writes. *)
Definition delete_post_log (env : Env) (d : DB) (uid id : Z) : ModLog.t :=
  ModLog.mk (seqLogs d) uid None delete_post None
    (Some (js "Post ID: " ++ decimal id)) (now env).

Lemma post_id_plain id : plain (js "Post ID: " ++ decimal id).
Proof.
  apply plain_app; [|apply decimal_plain].
  intros c Hc. vm_compute in Hc.
  repeat (destruct Hc as [<-|Hc]; [split; reflexivity|]). destruct Hc.
Qed.

(** A moderator deletes a post by an id within the range of the column:
    whether or not a post has that id, the answer is 200 "Message supprimé"
    and an audit row is written; the posts that remain are those with
    another id. *)
Lemma delete_post_outcome env req w sid sd u id d1 :
  authenticated w req sid sd u ->
  User.isBanned u = false ->
  echoes_token req sd ->
  can_moderate u ->
  r_method req = DELETE ->
  r_path req = P_post (Some id) ->
  log_seq_fresh (db w) ->
  deletePost id (db w) = Some d1 ->
  handle env req w =
  (message 200 "Message supprimé",
   {| db := push_log (delete_post_log env (db w) (User.id u) id) d1;
      sessions := sessions w |}).
Proof.
  intros Ha Hb Ht Hr Hm Hp Hf Hd.
  rewrite (app_authenticated env req w sid sd u Ha Hb Ht).
  destruct Ha as (Hc & Hs & Hu & Hn & Hg).
  unfold route. rewrite Hm, Hp. unfold deletePostRoute.
  rewrite (requireRole_pass (db w) sd u _ _ Hu Hn Hg (can_moderate_roles u Hr)).
  simpl st_sess. simpl st_db. rewrite Hd.
  destruct sd as [suid tok]; simpl in Hu; subst suid.
  destruct (deletePost_logs id (db w) d1 Hd) as [E1 E2].
  assert (Hf' : log_seq_fresh d1).
  { unfold log_seq_fresh. rewrite E1, E2. exact Hf. }
  assert (Hg' : getUser d1 (User.id u) = Some u).
  { unfold getUser. rewrite (deletePost_users _ _ _ Hd). exact Hg. }
  rewrite (createModerationLog_ok (now env)
             {| il_moderatorId := User.id u; il_targetUserId := None;
                il_action := delete_post; il_reason := None;
                il_details := Some (js "Post ID: " ++ decimal id) |}
             d1 u Hf' Hg' eq_refl eq_refl
             (plain_text_ok _ (post_id_plain id))).
  cbn [il_details il_reason il_moderatorId il_action option_map].
  rewrite (plain_wire _ (post_id_plain id)).
  simpl. unfold store; simpl. rewrite session_eqb_refl.
  unfold delete_post_log. rewrite E2. reflexivity.
Qed.

(** ** User rows in responses *)

Lemma safeUser_clean u : mentions "password" (safeUser u) = false.
Proof.
  destruct u as [i un em pw ro av bi pc tc ib br hp ca la].
  destruct av, bi, br; reflexivity.
Qed.

(** The stripped row does not depend on the stored hash. *)
Lemma safeUser_ignores_password i un em pw pw' ro av bi pc tc ib br hp ca la :
  safeUser (User.mk i un em pw ro av bi pc tc ib br hp ca la)
  = safeUser (User.mk i un em pw' ro av bi pc tc ib br hp ca la).
Proof. reflexivity. Qed.

Lemma safeUsers_clean l :
  existsb (mentions "password") (map safeUser l) = false.
Proof.
  induction l as [|u r IH]; [reflexivity|].
  cbn -[safeUser]. rewrite safeUser_clean. exact IH.
Qed.

Lemma user_body_clean u :
  mentions "password" (JObj [("user"%string, safeUser u)]) = false.
Proof. cbn -[safeUser]. rewrite safeUser_clean. reflexivity. Qed.

Definition clean (r : Response) : Prop := mentions "password" (body r) = false.

Lemma clean_message c t : clean (message c t).
Proof. reflexivity. Qed.

Lemma clean_zodError m : clean (zodError m).
Proof. reflexivity. Qed.

Ltac split_cases :=
  repeat match goal with
         | |- clean (fst (match ?x with _ => _ end)) => destruct x
         | |- clean (fst (if ?x then _ else _)) => destruct x
         | |- clean (fst (let '(_, _) := ?x in _)) => destruct x
         end.

Ltac close_clean :=
  first [ apply clean_message | apply clean_zodError
        | apply user_body_clean | apply safeUser_clean
        | unfold clean; cbn -[safeUser]; apply safeUsers_clean ].

Lemma register_clean env req st : clean (fst (register env req st)).
Proof. unfold register. split_cases; simpl fst; close_clean. Qed.

Lemma login_clean env req st : clean (fst (login env req st)).
Proof. unfold login. split_cases; simpl fst; close_clean. Qed.

Lemma me_clean st : clean (fst (me st)).
Proof. unfold me. split_cases; simpl fst; close_clean. Qed.

Lemma adminUsers_clean st : clean (fst (adminUsers st)).
Proof.
  unfold adminUsers, requireRole. split_cases; simpl fst; close_clean.
Qed.

Lemma patchRole_clean env id req st : clean (fst (patchRole env id req st)).
Proof.
  unfold patchRole, requireRole. split_cases; simpl fst; close_clean.
Qed.

Lemma postBan_clean env id req st : clean (fst (postBan env id req st)).
Proof.
  unfold postBan, requireRole. split_cases; simpl fst; close_clean.
Qed.

(** The six endpoints that return user rows of the users table. *)
Definition returns_users (m : Method) (p : Path) : bool :=
  match m, p with
  | POST, P_auth_register => true
  | POST, P_auth_login => true
  | (GET | HEAD), P_auth_me => true
  | (GET | HEAD), P_admin_users => true
  | PATCH, P_admin_user_role _ => true
  | POST, P_admin_user_ban _ => true
  | _, _ => false
  end.

Lemma route_clean env req st :
  returns_users (r_method req) (r_path req) = true ->
  clean (fst (route env req st)).
Proof.
  unfold route, returns_users.
  destruct (r_method req), (r_path req); try discriminate; intros _;
    lazymatch goal with
    | |- clean (fst (register _ _ _)) => apply register_clean
    | |- clean (fst (login _ _ _)) => apply login_clean
    | |- clean (fst (me _)) => apply me_clean
    | |- clean (fst (adminUsers _)) => apply adminUsers_clean
    | |- clean (fst (patchRole _ _ _ _)) => apply patchRole_clean
    | |- clean (fst (postBan _ _ _ _)) => apply postBan_clean
    end.
Qed.

(** C10. Register, login, the current-user endpoint, the admin user
    listing, role change and ban: whatever the request, the session and
    the database, the response body has no "password" property at any
    depth; each user row is sent without it. *)
Theorem user_responses_omit_password (env : Env) (req : Request) (w : World) :
  returns_users (r_method req) (r_path req) = true ->
  mentions "password" (body (fst (handle env req w))) = false.
Proof.
  intros H. rewrite handle_unfold. simpl fst.
  change (clean (fst (app env req {| st_db := db w;
                                     st_sess := Some (snd (load env req w)) |}))).
  unfold app, checkBanned, csrfProtection.
  split_cases; simpl fst;
    first [ apply clean_message | apply route_clean; exact H ].
Qed.


(* ================================================================ *)
(** * What a request may do to the database *)
(* ================================================================ *)

(** The user row behind [req.session.userId], if any. *)
Definition requester (st : St) : option User.t :=
  match session_userId st with
  | Some uid => getUser (st_db st) uid
  | None => None
  end.

(** [d] is [d1], or [d1] with one audit row written by [uid]. *)
Definition logged (env : Env) (uid : Z) (d1 d : DB) : Prop :=
  d = d1 \/
  exists ins l, il_moderatorId ins = uid /\
                createModerationLog (now env) ins d1 = Some (l, d).

Definition touch (time : Z) : UserPatch :=
  {| p_role := None; p_isBanned := None; p_banReason := None;
     p_lastActive := Some time |}.

Definition promote (r : Role) : UserPatch :=
  {| p_role := Some r; p_isBanned := None; p_banReason := None;
     p_lastActive := None |}.

Definition ban (reason : option (option jsstring)) : UserPatch :=
  {| p_role := None; p_isBanned := Some true; p_banReason := reason;
     p_lastActive := None |}.

(** The storage calls one request can end up making, with the checks the
    handlers run before each of them.  [who] is the requester, [d] the
    database before the request. *)
Inductive DbEffect (env : Env) (who : option User.t) (d : DB) : DB -> Prop :=
| fx_none : DbEffect env who d d
| fx_register ins u d' :
    iu_role ins = new_user ->
    createUser (now env) ins d = Some (u, d') ->
    DbEffect env who d d'
| fx_login u r d' :
    In u (users d) -> User.isBanned u = false ->
    updateUser (User.id u) (touch (now env)) d = Some (r, d') ->
    DbEffect env who d d'
| fx_view id x d' :
    getThread d id = Some x ->
    (forall c, category x = Some c -> Category.isPrivate c = true ->
               exists u, who = Some u /\ User.hasPrivateAccess u = true) ->
    incrementViewCount id d = Some d' ->
    DbEffect env who d d'
| fx_thread u ins x d' :
    who = Some u -> User.role u <> new_user ->
    it_authorId ins = User.id u ->
    createThread (now env) ins d = Some (x, d') ->
    DbEffect env who d d'
| fx_post u ins x p d' :
    who = Some u -> User.role u <> new_user ->
    ip_authorId ins = User.id u ->
    getThread d (ip_threadId ins) = Some x ->
    Thread.isLocked (thread x) = false ->
    (forall c, category x = Some c -> Category.isPrivate c = true ->
               User.hasPrivateAccess u = true) ->
    createPost (now env) ins d = Some (p, d') ->
    DbEffect env who d d'
| fx_delete u id d1 d' :
    who = Some u -> can_moderate u ->
    deletePost id d = Some d1 ->
    logged env (User.id u) d1 d' ->
    DbEffect env who d d'
| fx_invite u ins i d' :
    who = Some u -> User.hasPrivateAccess u = false ->
    ii_userId ins = User.id u ->
    createPrivateInvite (now env) ins d = Some (i, d') ->
    DbEffect env who d d'
| fx_decide u id status r d1 d' :
    who = Some u -> can_moderate u -> status <> pending ->
    updatePrivateInvite (now env) id status (User.id u) d = Some (r, d1) ->
    logged env (User.id u) d1 d' ->
    DbEffect env who d d'
| fx_role u id r v d1 d' :
    who = Some u -> User.role u = admin ->
    updateUser id (promote r) d = Some (v, d1) ->
    logged env (User.id u) d1 d' ->
    DbEffect env who d d'
| fx_ban u id reason v d1 d' :
    who = Some u -> User.role u = admin ->
    updateUser id (ban reason) d = Some (v, d1) ->
    logged env (User.id u) d1 d' ->
    DbEffect env who d d'.

Lemma session_userId_inv st uid :
  session_userId st = Some uid ->
  exists tok, st_sess st = Some {| userId := Some uid; csrfToken := tok |}.
Proof.
  unfold session_userId. destruct (st_sess st) as [[[i|] tok]|]; simpl;
    try discriminate.
  destruct (i =? 0); [discriminate|]. intros E; inversion E; subst. eauto.
Qed.

Lemma requester_userId st uid :
  session_userId st = Some uid -> requester st = getUser (st_db st) uid.
Proof. intros H. unfold requester. rewrite H. reflexivity. Qed.

Lemma sessionUser_userId st uid :
  session_userId st = Some uid -> sessionUser st = getUser (st_db st) uid.
Proof.
  intros H. destruct (session_userId_inv st uid H) as [tok E].
  unfold sessionUser. rewrite E. reflexivity.
Qed.

Lemma role_eqb_eq a b : role_eqb a b = true <-> a = b.
Proof. destruct a, b; simpl; split; congruence. Qed.

Lemma staff_roles u :
  existsb (role_eqb (User.role u)) [admin; moderator] = true -> can_moderate u.
Proof. unfold can_moderate. destruct (User.role u); simpl; auto; discriminate. Qed.

Lemma admin_roles u :
  existsb (role_eqb (User.role u)) [admin] = true -> User.role u = admin.
Proof. destruct (User.role u); simpl; auto; discriminate. Qed.

Lemma not_new_user u : role_eqb (User.role u) new_user = false -> User.role u <> new_user.
Proof. intros H E. rewrite E in H. discriminate. Qed.

Lemma decision_not_pending v s : decision v = Some s -> s <> pending.
Proof.
  unfold decision. destruct v; try discriminate.
  destruct (str_eqb _ _); [intros E; inversion E; discriminate|].
  destruct (str_eqb _ _); intros E; inversion E; discriminate.
Qed.

Ltac fx_cases :=
  repeat match goal with
         | |- DbEffect _ _ _ (st_db (snd (match ?x with _ => _ end))) =>
             destruct x eqn:?
         | |- DbEffect _ _ _ (st_db (snd (if ?x then _ else _))) =>
             destruct x eqn:?
         end.

Ltac fx_guard :=
  match goal with
  | |- DbEffect _ (requester ?st) _ _ =>
      destruct (session_userId st) as [?uid|] eqn:?Hsid;
      [ rewrite (requester_userId st _ Hsid);
        try rewrite (sessionUser_userId st _ Hsid);
        let tok := fresh "tok" in let E := fresh "Esess" in
        destruct (session_userId_inv st _ Hsid) as [tok E];
        try rewrite E
      | simpl; apply fx_none ]
  end.

Lemma register_effect env req st :
  DbEffect env (requester st) (st_db st) (st_db (snd (register env req st))).
Proof.
  unfold register. fx_cases; simpl; try apply fx_none.
  subst. eapply fx_register; [|eassumption]. reflexivity.
Qed.

Lemma login_effect env req st :
  DbEffect env (requester st) (st_db st) (st_db (snd (login env req st))).
Proof.
  unfold login. fx_cases; simpl; try apply fx_none.
  match goal with
  | H : getUserByEmail _ _ = Some (Some ?u) |- _ =>
      unfold getUserByEmail in H; destruct (text_ok _); [|discriminate H];
      inversion H as [Hf]; apply find_some in Hf; destruct Hf as [Hin _];
      eapply (fx_login env _ _ u _ _ Hin); [assumption|eassumption]
  end.
Qed.

Lemma postThread_effect env req st :
  DbEffect env (requester st) (st_db st) (st_db (snd (postThread env req st))).
Proof.
  unfold postThread, requireAuth. fx_guard.
  fx_cases; simpl; try apply fx_none.
  eapply fx_thread; [reflexivity | | | eassumption].
  - apply not_new_user; assumption.
  - reflexivity.
Qed.

Lemma postPost_effect env id req st :
  DbEffect env (requester st) (st_db st) (st_db (snd (postPost env id req st))).
Proof.
  unfold postPost, requireAuth. fx_guard.
  fx_cases; simpl; try apply fx_none.
  eapply fx_post; [reflexivity | | | | | | eassumption]; simpl.
  - apply not_new_user; assumption.
  - reflexivity.
  - eassumption.
  - assumption.
  - intros c Hc Hp.
    match goal with
    | H : (_ && negb (User.hasPrivateAccess _)) = false |- _ =>
        rewrite Hc, Hp in H; simpl in H;
        destruct (User.hasPrivateAccess _); [reflexivity|discriminate]
    end.
Qed.

Lemma logged_self env uid d : logged env uid d d.
Proof. left; reflexivity. Qed.

Lemma logged_row env uid ins l d1 d :
  il_moderatorId ins = uid ->
  createModerationLog (now env) ins d1 = Some (l, d) ->
  logged env uid d1 d.
Proof. intros H E. right. exists ins, l. auto. Qed.

Lemma deletePostRoute_effect env id st :
  DbEffect env (requester st) (st_db st)
    (st_db (snd (deletePostRoute env id st))).
Proof.
  unfold deletePostRoute, requireRole. fx_guard.
  destruct (getUser (st_db st) uid) as [u|] eqn:Hu; [|simpl; apply fx_none].
  destruct (existsb _ _) eqn:Hr; [|simpl; apply fx_none].
  apply staff_roles in Hr. try rewrite Esess.
  destruct id as [postId|]; [|simpl; apply fx_none].
  assert (Hid : User.id u = uid).
  { unfold getUser in Hu. apply find_some in Hu. destruct Hu as [_ Hu].
    apply Z.eqb_eq in Hu. exact Hu. }
  fx_cases; simpl; try apply fx_none;
    eapply fx_delete; try reflexivity; try eassumption.
  - eapply logged_row; [|eassumption]. simpl. symmetry; exact Hid.
  - apply logged_self.
Qed.

Lemma postInvite_effect env req st :
  DbEffect env (requester st) (st_db st) (st_db (snd (postInvite env req st))).
Proof.
  unfold postInvite, requireAuth. fx_guard.
  fx_cases; simpl; try apply fx_none.
  eapply fx_invite; [reflexivity | assumption | | eassumption]. reflexivity.
Qed.

Lemma getUser_id d uid u : getUser d uid = Some u -> User.id u = uid.
Proof.
  unfold getUser. intros H. apply find_some in H. destruct H as [_ H].
  apply Z.eqb_eq in H. exact H.
Qed.

Lemma patchInvite_effect env id req st :
  DbEffect env (requester st) (st_db st)
    (st_db (snd (patchInvite env id req st))).
Proof.
  unfold patchInvite, requireRole. fx_guard.
  destruct (getUser (st_db st) uid) as [u|] eqn:Hu; [|simpl; apply fx_none].
  destruct (existsb _ _) eqn:Hr; [|simpl; apply fx_none].
  apply staff_roles in Hr. try rewrite Esess.
  pose proof (getUser_id _ _ _ Hu) as Hid.
  destruct (decision _) as [s|] eqn:Hd; [|simpl; apply fx_none].
  apply decision_not_pending in Hd.
  destruct id as [inviteId|]; [|simpl; apply fx_none].
  destruct (updatePrivateInvite _ _ _ _ _) as [[[i|] d1]|] eqn:Hup;
    [| |simpl; apply fx_none].
  - rewrite <- Hid in Hup.
    destruct (createModerationLog _ _ _) as [[l d2]|] eqn:Hl; simpl;
      eapply fx_decide; try reflexivity; try eassumption.
    + eapply logged_row; [|eassumption]. simpl. symmetry; exact Hid.
    + apply logged_self.
  - rewrite <- Hid in Hup. simpl.
    eapply fx_decide; try reflexivity; try eassumption. apply logged_self.
Qed.

Lemma patchRole_effect env id req st :
  DbEffect env (requester st) (st_db st)
    (st_db (snd (patchRole env id req st))).
Proof.
  unfold patchRole, requireRole. fx_guard.
  destruct (getUser (st_db st) uid) as [u|] eqn:Hu; [|simpl; apply fx_none].
  destruct (existsb _ _) eqn:Hr; [|simpl; apply fx_none].
  apply admin_roles in Hr. try rewrite Esess.
  pose proof (getUser_id _ _ _ Hu) as Hid.
  destruct (parse_role _) as [r|]; [|simpl; apply fx_none].
  destruct id as [userId|]; [|simpl; apply fx_none].
  fold (promote r).
  destruct (updateUser userId (promote r) (st_db st)) as [[[v|] d1]|] eqn:Hup;
    [| |simpl; apply fx_none].
  - destruct (createModerationLog _ _ _) as [[l d2]|] eqn:Hl; simpl;
      eapply (fx_role env _ _ u userId r); try reflexivity; try eassumption.
    + eapply logged_row; [|eassumption]. simpl. symmetry; exact Hid.
    + apply logged_self.
  - simpl. eapply (fx_role env _ _ u userId r); try reflexivity;
      try eassumption.
    apply logged_self.
Qed.

Lemma postBan_effect env id req st :
  DbEffect env (requester st) (st_db st) (st_db (snd (postBan env id req st))).
Proof.
  unfold postBan, requireRole. fx_guard.
  destruct (getUser (st_db st) uid) as [u|] eqn:Hu; [|simpl; apply fx_none].
  destruct (existsb _ _) eqn:Hr; [|simpl; apply fx_none].
  apply admin_roles in Hr. try rewrite Esess.
  pose proof (getUser_id _ _ _ Hu) as Hid.
  destruct id as [userId|]; [|simpl; apply fx_none].
  cbv zeta.
  match goal with
  | |- context [updateUser userId ?p (st_db st)] =>
      change p with (ban (p_banReason p)); set (why := p_banReason p)
  end.
  destruct (updateUser userId (ban why) (st_db st)) as [[[v|] d1]|] eqn:Hup;
    [| |simpl; apply fx_none].
  - destruct (createModerationLog _ _ _) as [[l d2]|] eqn:Hl; simpl;
      eapply (fx_ban env _ _ u userId why); try reflexivity; try eassumption.
    + eapply logged_row; [|eassumption]. simpl. symmetry; exact Hid.
    + apply logged_self.
  - simpl. eapply (fx_ban env _ _ u userId why); try reflexivity;
      try eassumption.
    apply logged_self.
Qed.

Lemma readonly_effect env who d : DbEffect env who d d.
Proof. apply fx_none. Qed.

Lemma me_db st : st_db (snd (me st)) = st_db st.
Proof.
  unfold me. destruct (session_userId st); [|reflexivity].
  destruct (getUser _ _); reflexivity.
Qed.

Lemma getThreadRoute_effect id st :
  forall env,
  DbEffect env (requester st) (st_db st) (st_db (snd (getThreadRoute id st))).
Proof.
  intros env. unfold getThreadRoute.
  destruct id as [threadId|]; [|simpl; apply fx_none].
  destruct (getThread (st_db st) threadId) as [x|] eqn:Hx;
    [|destruct (int4 threadId); simpl; apply fx_none].
  cbv zeta.
  destruct (incrementViewCount threadId (st_db st)) as [d1|] eqn:Hv.
  - destruct (match category x with Some c => Category.isPrivate c
                                  | None => false end) eqn:Hp.
    + unfold requester.
      destruct (session_userId st) as [uid|]; [|simpl; apply fx_none].
      destruct (getUser (st_db st) uid) as [u|]; [|simpl; apply fx_none].
      destruct (User.hasPrivateAccess u) eqn:Hg; [|simpl; apply fx_none].
      simpl. eapply fx_view; [exact Hx| |exact Hv].
      intros c _ _. exists u. split; [reflexivity|exact Hg].
    + simpl. eapply fx_view; [exact Hx| |exact Hv].
      intros c Hc Hc'. rewrite Hc, Hc' in Hp. discriminate.
  - destruct (match category x with Some c => Category.isPrivate c
                                  | None => false end).
    + destruct (session_userId st) as [uid|]; [|simpl; apply fx_none].
      destruct (getUser (st_db st) uid) as [u|]; [|simpl; apply fx_none].
      destruct (User.hasPrivateAccess u); simpl; apply fx_none.
    + simpl. apply fx_none.
Qed.

Lemma getPosts_st id st : snd (getPosts id st) = st.
Proof.
  unfold getPosts. destruct id; [|reflexivity].
  destruct (getThread _ _); [|destruct (int4 _); reflexivity].
  destruct (match category _ with Some _ => _ | None => _ end); [|reflexivity].
  destruct (session_userId st); [|reflexivity].
  destruct (getUser _ _) as [u|]; [|reflexivity].
  destruct (User.hasPrivateAccess u); reflexivity.
Qed.

Lemma adminUsers_st st : snd (adminUsers st) = st.
Proof.
  unfold adminUsers, requireRole. destruct (session_userId st); [|reflexivity].
  destruct (getUser _ _); [|reflexivity].
  destruct (existsb _ _); reflexivity.
Qed.

(** Every route is one of the effects above. *)
Lemma route_effect env req st :
  DbEffect env (requester st) (st_db st) (st_db (snd (route env req st))).
Proof.
  unfold route. destruct (r_method req), (r_path req);
    lazymatch goal with
    | |- context [register _ _ _] => apply register_effect
    | |- context [login _ _ _] => apply login_effect
    | |- context [postThread _ _ _] => apply postThread_effect
    | |- context [getThreadRoute _ _] => apply getThreadRoute_effect
    | |- context [postPost _ _ _ _] => apply postPost_effect
    | |- context [deletePostRoute _ _ _] => apply deletePostRoute_effect
    | |- context [postInvite _ _ _] => apply postInvite_effect
    | |- context [patchInvite _ _ _ _] => apply patchInvite_effect
    | |- context [patchRole _ _ _ _] => apply patchRole_effect
    | |- context [postBan _ _ _ _] => apply postBan_effect
    | |- context [me _] => rewrite me_db; apply fx_none
    | |- context [getPosts _ _] => rewrite getPosts_st; apply fx_none
    | |- context [adminUsers _] => rewrite adminUsers_st; apply fx_none
    | |- context [getCsrfToken _ _] =>
        unfold getCsrfToken; simpl; rewrite ensureToken_db; apply fx_none
    | |- _ => simpl; apply fx_none
    end.
Qed.

(** The requester of a request, as [handle] will see it. *)
Definition visitor (env : Env) (req : Request) (w : World) : option User.t :=
  requester {| st_db := db w; st_sess := Some (snd (load env req w)) |}.

Lemma session_userId_ensureToken env st :
  session_userId (ensureToken env st) = session_userId st.
Proof.
  unfold ensureToken. destruct (session_csrfToken st); [reflexivity|].
  unfold session_userId, set_csrfToken; simpl.
  destruct (st_sess st) as [sd|]; reflexivity.
Qed.

Lemma requester_ensureToken env st :
  requester (ensureToken env st) = requester st.
Proof.
  unfold requester. rewrite session_userId_ensureToken, ensureToken_db.
  reflexivity.
Qed.

Lemma app_effect env req st :
  DbEffect env (requester st) (st_db st) (st_db (snd (app env req st))).
Proof.
  unfold app, checkBanned.
  assert (C : DbEffect env (requester st) (st_db st)
                (st_db (snd (csrfProtection env req st
                               (fun st0 => route env req st0))))).
  { unfold csrfProtection.
    assert (R : DbEffect env (requester st) (st_db st)
                  (st_db (snd (route env req (ensureToken env st))))).
    { rewrite <- (requester_ensureToken env st).
      rewrite <- (ensureToken_db env st) at 1. apply route_effect. }
    destruct (safe_method (r_method req)); [exact R|].
    destruct (r_csrf req) as [[|c cs]|];
      try (simpl; rewrite ensureToken_db; apply fx_none).
    destruct (st_sess (ensureToken env st)) as [[uid [t|]]|];
      try (simpl; rewrite ensureToken_db; apply fx_none).
    destruct (str_eqb (c :: cs) t); [exact R|].
    simpl; rewrite ensureToken_db; apply fx_none. }
  destruct (session_userId st) as [uid|]; [|exact C].
  destruct (getUser (st_db st) uid) as [u|]; [|exact C].
  destruct (User.isBanned u); [simpl; apply fx_none|exact C].
Qed.

Lemma handle_db env req w :
  db (snd (handle env req w))
  = st_db (snd (app env req {| st_db := db w;
                               st_sess := Some (snd (load env req w)) |})).
Proof. rewrite handle_unfold. reflexivity. Qed.

(** Whatever the request, the database after it is the database before it
    changed by one of the effects. *)
Lemma handle_effect env req w :
  DbEffect env (visitor env req w) (db w) (db (snd (handle env req w))).
Proof.
  rewrite handle_db. unfold visitor.
  exact (app_effect env req {| st_db := db w;
                               st_sess := Some (snd (load env req w)) |}).
Qed.

(** A banned requester changes nothing. *)
Lemma handle_banned_db env req w u :
  visitor env req w = Some u -> User.isBanned u = true ->
  db (snd (handle env req w)) = db w.
Proof.
  unfold visitor, requester. intros Hv Hb. rewrite handle_db.
  unfold app, checkBanned.
  destruct (session_userId _) as [uid|]; [|discriminate].
  simpl in Hv. simpl. rewrite Hv, Hb. reflexivity.
Qed.

(** ** Frames on the users table *)

Definition users_rel (R : User.t -> User.t -> Prop) (d d' : DB) : Prop :=
  forall uid u, getUser d uid = Some u ->
                exists u', getUser d' uid = Some u' /\ R u u'.

Lemma users_rel_same (R : User.t -> User.t -> Prop) d d' :
  (forall u, R u u) -> users d' = users d -> users_rel R d d'.
Proof.
  intros Hr E uid u Hu. exists u. unfold getUser in *. rewrite E. auto.
Qed.

Lemma users_rel_trans (R : User.t -> User.t -> Prop) d1 d2 d3 :
  (forall a b c, R a b -> R b c -> R a c) ->
  users_rel R d1 d2 -> users_rel R d2 d3 -> users_rel R d1 d3.
Proof.
  intros Ht H12 H23 uid u Hu.
  destruct (H12 uid u Hu) as (u2 & Hu2 & R2).
  destruct (H23 uid u2 Hu2) as (u3 & Hu3 & R3).
  exists u3. split; [exact Hu3|]. eapply Ht; eauto.
Qed.

Lemma users_rel_map (R : User.t -> User.t -> Prop) d d' k g :
  (forall u, R u u) -> (forall u, R u (g u)) ->
  (forall u, User.id (g u) = User.id u) ->
  users d' = map (fun u => if User.id u =? k then g u else u) (users d) ->
  users_rel R d d'.
Proof.
  intros Hr Hg Hid E uid u Hu. unfold getUser in *. rewrite E.
  rewrite (find_update User.id g k uid (users d) Hid), Hu. simpl.
  destruct (User.id u =? k); eauto.
Qed.

Lemma users_rel_app (R : User.t -> User.t -> Prop) d d' l :
  (forall u, R u u) -> users d' = users d ++ l -> users_rel R d d'.
Proof.
  intros Hr E uid u Hu. exists u. split; [|apply Hr].
  unfold getUser in *. rewrite E.
  revert Hu. generalize (users d). intros us.
  induction us as [|v r IH]; simpl; [discriminate|].
  destruct (User.id v =? uid); auto.
Qed.

Lemma createUser_users time ins d u d' :
  createUser time ins d = Some (u, d') -> users d' = users d ++ [u].
Proof.
  unfold createUser. destruct (_ && _); [|discriminate].
  intros E; inversion E; reflexivity.
Qed.

Lemma updateUser_users id p d r d' :
  updateUser id p d = Some (r, d') ->
  users d' = map (fun u => if User.id u =? id then patch_user p u else u)
               (users d).
Proof.
  unfold updateUser. destruct (_ && _); [|discriminate].
  intros E; inversion E; reflexivity.
Qed.

Lemma incrementViewCount_users id d d' :
  incrementViewCount id d = Some d' -> users d' = users d.
Proof.
  unfold incrementViewCount. destruct (_ && _); [|discriminate].
  intros E; inversion E; reflexivity.
Qed.

Lemma patch_user_id p u : User.id (patch_user p u) = User.id u.
Proof.
  unfold patch_user.
  destruct (p_role p), (p_isBanned p), (p_banReason p), (p_lastActive p);
    reflexivity.
Qed.

Lemma createPrivateInvite_users time ins d i d' :
  createPrivateInvite time ins d = Some (i, d') -> users d' = users d.
Proof.
  unfold createPrivateInvite. destruct (_ && _); [|discriminate].
  intros E; inversion E; reflexivity.
Qed.

Lemma updatePrivateInvite_users time id status reviewer d r d' :
  updatePrivateInvite time id status reviewer d = Some (r, d') ->
  users d' = users d \/
  exists k, users d' = map (fun u => if User.id u =? k
                                     then User.set_hasPrivateAccess true u
                                     else u) (users d).
Proof.
  unfold updatePrivateInvite. destruct (_ || _); [discriminate|].
  destruct (find _ _) as [x|]; [destruct status|]; intros E; inversion E;
    simpl; eauto.
Qed.

Lemma logged_users env uid d1 d : logged env uid d1 d -> users d = users d1.
Proof.
  intros [->|(ins & l & _ & E)]; [reflexivity|].
  apply createModerationLog_tables in E. tauto.
Qed.

(** How the rows of the users that exist are related before and after a
    request, given what each kind of write does to a row. *)
Lemma effect_users (R : User.t -> User.t -> Prop) env who d d' :
  (forall u, R u u) ->
  (forall a b c, R a b -> R b c -> R a c) ->
  (forall t u, R u (patch_user (touch t) u)) ->
  (forall u, R u (User.set_threadCount (User.threadCount u + 1) u)) ->
  (forall u, R u (User.set_postCount (User.postCount u + 1) u)) ->
  ((exists s, who = Some s /\ can_moderate s) ->
   forall u, R u (User.set_hasPrivateAccess true u)) ->
  ((exists s, who = Some s /\ User.role s = admin) ->
   forall r u, R u (patch_user (promote r) u)) ->
  ((exists s, who = Some s /\ User.role s = admin) ->
   forall why u, R u (patch_user (ban why) u)) ->
  DbEffect env who d d' -> users_rel R d d'.
Proof.
  intros Hr Ht Htouch Htc Hpc Hgrant Hrole Hban E.
  destruct E as [ | ins u d' _ E | u r d' _ _ E | id x d' _ _ E
                | u ins x d' _ _ _ E | u ins x p d' _ _ _ _ _ _ E
                | u id d1 d' _ _ E L | u ins i d' _ _ _ E
                | u id status r d1 d' Hw Hs _ E L
                | u id r v d1 d' Hw Ha E L | u id reason v d1 d' Hw Ha E L ].
  - apply users_rel_same; auto.
  - eapply users_rel_app; [exact Hr|]. eapply createUser_users; eauto.
  - eapply users_rel_map with (g := patch_user (touch (now env)));
      [exact Hr | apply Htouch | apply patch_user_id
      | eapply updateUser_users; eauto].
  - apply users_rel_same; [exact Hr|]. eapply incrementViewCount_users; eauto.
  - eapply users_rel_map; [exact Hr | apply Htc | reflexivity
                          | eapply createThread_users; eauto].
  - eapply users_rel_map; [exact Hr | apply Hpc | reflexivity
                          | eapply createPost_users; eauto].
  - apply users_rel_same; [exact Hr|].
    rewrite (logged_users _ _ _ _ L). eapply deletePost_users; eauto.
  - apply users_rel_same; [exact Hr|]. eapply createPrivateInvite_users; eauto.
  - eapply users_rel_trans with (d2 := d1); [exact Ht| |].
    + destruct (updatePrivateInvite_users _ _ _ _ _ _ _ E) as [E1|[k E1]].
      * apply users_rel_same; auto.
      * eapply users_rel_map; [exact Hr | apply Hgrant; eauto | reflexivity
                              | exact E1].
    + apply users_rel_same; [exact Hr|]. eapply logged_users; eauto.
  - eapply users_rel_trans with (d2 := d1); [exact Ht| |].
    + eapply users_rel_map with (g := patch_user (promote r));
        [exact Hr | apply Hrole; eauto
        | apply patch_user_id | eapply updateUser_users; eauto].
    + apply users_rel_same; [exact Hr|]. eapply logged_users; eauto.
  - eapply users_rel_trans with (d2 := d1); [exact Ht| |].
    + eapply users_rel_map with (g := patch_user (ban reason));
        [exact Hr | apply Hban; eauto
        | apply patch_user_id | eapply updateUser_users; eauto].
    + apply users_rel_same; [exact Hr|]. eapply logged_users; eauto.
Qed.

(** ** What each storage call leaves alone *)

(** The columns of a category that no storage call writes. *)
Definition cat_static (c : Category.t) :=
  (Category.id c, Category.name c, Category.description c, Category.slug c,
   Category.icon c, Category.sortOrder c, Category.isPrivate c).

(** The columns of a thread that no route writes: all but the view count,
    the reply count and the two last-reply columns. *)
Definition thread_static (x : Thread.t) :=
  (Thread.id x, Thread.title x, Thread.content x, Thread.categoryId x,
   Thread.authorId x, Thread.isPinned x, Thread.isLocked x,
   Thread.createdAt x, Thread.updatedAt x).

Lemma updateCategoryStats_static id d :
  map cat_static (categories (updateCategoryStats id d))
  = map cat_static (categories d).
Proof.
  unfold updateCategoryStats. simpl. generalize (categories d). intros l.
  induction l as [|c r IH]; simpl; [reflexivity|].
  rewrite IH. destruct (Category.id c =? id); reflexivity.
Qed.

Lemma map_update_static {A B} (key : A -> Z) (g : A -> A) (f : A -> B) k l :
  (forall x, f (g x) = f x) ->
  map f (map (fun x => if key x =? k then g x else x) l) = map f l.
Proof.
  intros H. induction l as [|x r IH]; simpl; [reflexivity|].
  rewrite IH. destruct (key x =? k); [rewrite H|]; reflexivity.
Qed.

Lemma createUser_tables time ins d u d' :
  createUser time ins d = Some (u, d') ->
  users d' = users d ++ [u] /\ threads d' = threads d /\ posts d' = posts d /\
  privateInvites d' = privateInvites d /\
  moderationLogs d' = moderationLogs d /\ categories d' = categories d /\
  getUser d (User.id u) = None /\
  User.role u = iu_role ins /\ User.isBanned u = false /\
  User.hasPrivateAccess u = false /\
  User.threadCount u = 0 /\ User.postCount u = 0.
Proof.
  unfold createUser. destruct (_ && _) eqn:G; [|discriminate].
  intros E; inversion E; subst; simpl. repeat split.
  repeat (apply andb_true_iff in G; destruct G as [G ?]).
  match goal with
  | F : negb (existsb (fun u => User.id u =? _) _) = true |- _ =>
      unfold getUser; apply negb_true_iff in F; rewrite existsb_find in F;
      destruct (find _ _); [discriminate|reflexivity]
  end.
Qed.

Lemma createThread_tables time ins d x d' :
  createThread time ins d = Some (x, d') ->
  threads d' = threads d ++ [x] /\ posts d' = posts d /\
  privateInvites d' = privateInvites d /\
  moderationLogs d' = moderationLogs d /\
  map cat_static (categories d') = map cat_static (categories d).
Proof.
  unfold createThread. destruct (_ && _); [|discriminate].
  intros E; inversion E; subst. rewrite updateCategoryStats_static.
  repeat split.
Qed.

Lemma createPost_tables time ins d p d' :
  createPost time ins d = Some (p, d') ->
  posts d' = posts d ++ [p] /\ Post.threadId p = ip_threadId ins /\
  Post.authorId p = ip_authorId ins /\
  map thread_static (threads d') = map thread_static (threads d) /\
  privateInvites d' = privateInvites d /\
  moderationLogs d' = moderationLogs d /\
  map cat_static (categories d') = map cat_static (categories d).
Proof.
  unfold createPost. destruct (_ && _); [|discriminate].
  intros E; inversion E; subst; clear E.
  match goal with
  | |- context [match ?f with Some _ => _ | None => _ end] => destruct f
  end; rewrite ?updateCategoryStats_static; simpl;
    (repeat split; try reflexivity);
    apply (map_update_static Thread.id); reflexivity.
Qed.

Lemma deletePost_tables id d d' :
  deletePost id d = Some d' ->
  (forall p, In p (posts d') -> In p (posts d)) /\
  map thread_static (threads d') = map thread_static (threads d) /\
  privateInvites d' = privateInvites d /\
  map cat_static (categories d') = map cat_static (categories d).
Proof.
  intros H. split.
  { intros p. rewrite (deletePost_posts _ _ _ H). intros Hp.
    apply filter_In in Hp. tauto. }
  open_deletePost H; rewrite ?updateCategoryStats_static; simpl;
    (repeat split; try reflexivity);
    apply (map_update_static Thread.id); reflexivity.
Qed.

Lemma incrementViewCount_tables id d d' :
  incrementViewCount id d = Some d' ->
  users d' = users d /\ posts d' = posts d /\
  privateInvites d' = privateInvites d /\
  moderationLogs d' = moderationLogs d /\ categories d' = categories d /\
  threads d' = map (fun x => if Thread.id x =? id
                             then Thread.set_viewCount (Thread.viewCount x + 1) x
                             else x) (threads d).
Proof.
  unfold incrementViewCount. destruct (_ && _); [|discriminate].
  intros E; inversion E; subst. repeat split.
Qed.

Lemma updateUser_tables id p d r d' :
  updateUser id p d = Some (r, d') ->
  threads d' = threads d /\ posts d' = posts d /\
  privateInvites d' = privateInvites d /\
  moderationLogs d' = moderationLogs d /\ categories d' = categories d.
Proof.
  unfold updateUser. destruct (_ && _); [|discriminate].
  intros E; inversion E; subst. repeat split.
Qed.

Lemma createPrivateInvite_tables time ins d i d' :
  createPrivateInvite time ins d = Some (i, d') ->
  users d' = users d /\ threads d' = threads d /\ posts d' = posts d /\
  privateInvites d' = privateInvites d ++ [i] /\
  moderationLogs d' = moderationLogs d /\ categories d' = categories d.
Proof.
  unfold createPrivateInvite. destruct (_ && _); [|discriminate].
  intros E; inversion E; subst. repeat split.
Qed.

Lemma updatePrivateInvite_tables time id status reviewer d r d' :
  updatePrivateInvite time id status reviewer d = Some (r, d') ->
  threads d' = threads d /\ posts d' = posts d /\
  moderationLogs d' = moderationLogs d /\ categories d' = categories d.
Proof.
  unfold updatePrivateInvite. destruct (_ || _); [discriminate|].
  destruct (find _ _) as [x|]; [destruct status|]; intros E; inversion E;
    repeat split.
Qed.

Lemma logged_tables env uid d1 d :
  logged env uid d1 d ->
  users d = users d1 /\ threads d = threads d1 /\ posts d = posts d1 /\
  privateInvites d = privateInvites d1 /\ categories d = categories d1 /\
  exists l, moderationLogs d = moderationLogs d1 ++ l /\
            (List.length l <= 1)%nat /\
            forall row, In row l -> ModLog.moderatorId row = uid.
Proof.
  intros [->|(ins & l & Hm & E)].
  - repeat split. exists []. rewrite app_nil_r. repeat split; simpl; auto.
    intros row [].
  - pose proof (createModerationLog_tables _ _ _ _ _ E) as (U & T & P & I & C & L).
    repeat split; auto. exists [l]. repeat split; auto.
    intros row [<-|[]].
    unfold createModerationLog in E. destruct (_ && _); [|discriminate].
    inversion E; subst. reflexivity.
Qed.

Lemma find_append {A} (p : A -> bool) (l r : list A) :
  find p (l ++ r) = match find p l with Some x => Some x | None => find p r end.
Proof.
  induction l as [|x l IH]; simpl; [reflexivity|]. destruct (p x); auto.
Qed.

(** A fresh account, as [createUser] fills it for [register]. *)
Definition fresh_account (u : User.t) : Prop :=
  User.role u = new_user /\ User.isBanned u = false /\
  User.hasPrivateAccess u = false /\
  User.threadCount u = 0 /\ User.postCount u = 0.

Lemma getUser_map_back d d' k g uid u' :
  (forall u, User.id (g u) = User.id u) ->
  users d' = map (fun u => if User.id u =? k then g u else u) (users d) ->
  getUser d' uid = Some u' -> exists u, getUser d uid = Some u.
Proof.
  intros Hid E. unfold getUser. rewrite E.
  rewrite (find_update User.id g k uid (users d) Hid).
  destruct (find _ (users d)) as [u|]; [eauto|discriminate].
Qed.

(** A row found after a request was there before it, or is the account
    the request has just registered. *)
Lemma effect_users_back env who d d' uid u' :
  DbEffect env who d d' -> getUser d' uid = Some u' ->
  (exists u, getUser d uid = Some u) \/ fresh_account u'.
Proof.
  intros E Hu'.
  destruct E as [ | ins u d' Hrole E | u r d' _ _ E | id x d' _ _ E
                | u ins x d' _ _ _ E | u ins x p d' _ _ _ _ _ _ E
                | u id d1 d' _ _ E L | u ins i d' _ _ _ E
                | u id status r d1 d' Hw Hs _ E L
                | u id r v d1 d' Hw Ha E L | u id reason v d1 d' Hw Ha E L ].
  - eauto.
  - destruct (createUser_tables _ _ _ _ _ E) as (U & _ & _ & _ & _ & _ & _ & F).
    unfold getUser in Hu' |- *. rewrite U, find_append in Hu'.
    destruct (find _ (users d)) as [v|]; [eauto|].
    simpl in Hu'. destruct (User.id u =? uid); [|discriminate].
    inversion Hu'; subst u'. right. unfold fresh_account.
    rewrite <- Hrole. tauto.
  - left. eapply getUser_map_back; [apply (patch_user_id (touch (now env)))
                                   | eapply updateUser_users; eauto | exact Hu'].
  - left. exists u'. unfold getUser in *.
    rewrite (incrementViewCount_users _ _ _ E) in Hu'. exact Hu'.
  - left. eapply getUser_map_back with
      (g := fun u => User.set_threadCount (User.threadCount u + 1) u);
      [reflexivity | eapply createThread_users; eauto | exact Hu'].
  - left. eapply getUser_map_back with
      (g := fun u => User.set_postCount (User.postCount u + 1) u);
      [reflexivity | eapply createPost_users; eauto | exact Hu'].
  - left. exists u'. unfold getUser in *.
    rewrite (logged_users _ _ _ _ L), (deletePost_users _ _ _ E) in Hu'.
    exact Hu'.
  - left. exists u'. unfold getUser in *.
    rewrite (createPrivateInvite_users _ _ _ _ _ E) in Hu'. exact Hu'.
  - left. unfold getUser in Hu'. rewrite (logged_users _ _ _ _ L) in Hu'.
    destruct (updatePrivateInvite_users _ _ _ _ _ _ _ E) as [E1|[k E1]].
    + exists u'. unfold getUser. rewrite <- E1. exact Hu'.
    + eapply getUser_map_back with (g := User.set_hasPrivateAccess true);
        [reflexivity | exact E1 | exact Hu'].
  - left. unfold getUser in Hu'. rewrite (logged_users _ _ _ _ L) in Hu'.
    eapply getUser_map_back; [apply (patch_user_id (promote r))
                             | eapply updateUser_users; eauto | exact Hu'].
  - left. unfold getUser in Hu'. rewrite (logged_users _ _ _ _ L) in Hu'.
    eapply getUser_map_back; [apply (patch_user_id (ban reason))
                             | eapply updateUser_users; eauto | exact Hu'].
Qed.

(** ** What no request does *)

(** The same account, with nothing taken away: identity and credentials
    as they were, a ban or a grant still there, counters not lower. *)
Definition account_kept (u u' : User.t) : Prop :=
  User.id u' = User.id u /\ User.username u' = User.username u /\
  User.email u' = User.email u /\ User.password u' = User.password u /\
  User.createdAt u' = User.createdAt u /\
  (User.isBanned u = true -> User.isBanned u' = true) /\
  (User.hasPrivateAccess u = true -> User.hasPrivateAccess u' = true) /\
  User.threadCount u <= User.threadCount u' /\
  User.postCount u <= User.postCount u'.

Ltac row_facts :=
  intros;
  repeat match goal with u : User.t |- _ => destruct u end;
  repeat match goal with o : option (option jsstring) |- _ => destruct o end;
  unfold account_kept, patch_user, touch, promote, ban in *; simpl in *;
  intuition (try congruence; try lia).

(** X1. Whatever the request and whoever sends it, every account that
    exists before it exists after it under the same id, with the same
    username, email, password hash and creation time; a ban is not lifted,
    a private-access grant is not withdrawn, and the two counters do not go
    down. *)
Theorem accounts_are_kept
    (env : Env) (req : Request) (w : World) (uid : Z) (u : User.t) :
  getUser (db w) uid = Some u ->
  exists u', getUser (db (snd (handle env req w))) uid = Some u' /\
             account_kept u u'.
Proof.
  revert uid u.
  apply (effect_users account_kept env (visitor env req w) (db w));
    try (apply handle_effect); row_facts.
Qed.

Lemma handle_users_back env req w uid u' :
  getUser (db (snd (handle env req w))) uid = Some u' ->
  (exists u, getUser (db w) uid = Some u) \/ fresh_account u'.
Proof. apply effect_users_back with (env := env) (who := visitor env req w), handle_effect. Qed.

Ltac row_eq :=
  intros;
  repeat match goal with u : User.t |- _ => destruct u end;
  repeat match goal with o : option (option jsstring) |- _ => destruct o end;
  simpl in *; try tauto; try congruence.

(** X2. Unless the requester is a moderator or an administrator, nobody
    holds the private-access grant after a request who did not hold it
    before: a grant only comes from a decision of the staff. *)
Theorem grant_needs_staff
    (env : Env) (req : Request) (w : World) (uid : Z) (u' : User.t) :
  (forall s, visitor env req w = Some s -> ~ can_moderate s) ->
  getUser (db (snd (handle env req w))) uid = Some u' ->
  User.hasPrivateAccess u' = true ->
  exists u, getUser (db w) uid = Some u /\ User.hasPrivateAccess u = true.
Proof.
  intros Hs Hu' Hg.
  destruct (handle_users_back env req w uid u' Hu') as [[u Hu]|F].
  - exists u. split; [exact Hu|].
    assert (U : users_rel
                  (fun a b => User.hasPrivateAccess b = User.hasPrivateAccess a)
                  (db w) (db (snd (handle env req w)))).
    { apply effect_users with (env := env) (who := visitor env req w).
      - row_eq.
      - row_eq.
      - row_eq.
      - row_eq.
      - row_eq.
      - intros (s & Hv & Hc). exfalso. exact (Hs s Hv Hc).
      - row_eq.
      - row_eq.
      - apply handle_effect. }
    destruct (U uid u Hu) as (u2 & Hu2 & E).
    rewrite Hu' in Hu2. inversion Hu2; subst u2. congruence.
  - destruct F as (_ & _ & F & _). congruence.
Qed.

(** X3. Unless the requester is an administrator, a request changes
    nobody's role and nobody's ban flag; an account it creates has role
    new_user and is not banned. *)
Theorem role_and_ban_need_admin
    (env : Env) (req : Request) (w : World) (uid : Z) (u' : User.t) :
  (forall s, visitor env req w = Some s -> User.role s <> admin) ->
  getUser (db (snd (handle env req w))) uid = Some u' ->
  match getUser (db w) uid with
  | Some u => User.role u' = User.role u /\ User.isBanned u' = User.isBanned u
  | None => User.role u' = new_user /\ User.isBanned u' = false
  end.
Proof.
  intros Hs Hu'.
  destruct (getUser (db w) uid) as [u|] eqn:Hu.
  - assert (U : users_rel
                  (fun a b => User.role b = User.role a /\
                              User.isBanned b = User.isBanned a)
                  (db w) (db (snd (handle env req w)))).
    { apply effect_users with (env := env) (who := visitor env req w).
      - row_eq.
      - intros a b c [H1 H2] [H3 H4]. split; congruence.
      - row_eq.
      - row_eq.
      - row_eq.
      - row_eq.
      - intros (s & Hv & Hc). exfalso. exact (Hs s Hv Hc).
      - intros (s & Hv & Hc). exfalso. exact (Hs s Hv Hc).
      - apply handle_effect. }
    destruct (U uid u Hu) as (u2 & Hu2 & E).
    rewrite Hu' in Hu2. inversion Hu2; subst u2. exact E.
  - destruct (handle_users_back env req w uid u' Hu') as [[u Hu2]|F].
    + congruence.
    + unfold fresh_account in F. tauto.
Qed.

Ltac effect_cases E :=
  destruct E as [ | ?ins ?u ?d' ?Hrole ?E | ?u ?r ?d' ?Hin ?Hnb ?E
                | ?id ?x ?d' ?Hx ?Hpriv ?E
                | ?u ?ins ?x ?d' ?Hw ?Hr ?Ha ?E
                | ?u ?ins ?x ?p ?d' ?Hw ?Hr ?Ha ?Hx ?Hl ?Hp ?E
                | ?u ?id ?d1 ?d' ?Hw ?Hs ?E ?L | ?u ?ins ?i ?d' ?Hw ?Hg ?Ha ?E
                | ?u ?id ?status ?r ?d1 ?d' ?Hw ?Hs ?Hn ?E ?L
                | ?u ?id ?r ?v ?d1 ?d' ?Hw ?Ha ?E ?L
                | ?u ?id ?reason ?v ?d1 ?d' ?Hw ?Ha ?E ?L ].

Lemma admin_can_moderate u : User.role u = admin -> can_moderate u.
Proof. intros H; left; exact H. Qed.

Lemma effect_logs env who d d' :
  DbEffect env who d d' ->
  exists l, moderationLogs d' = moderationLogs d ++ l /\
            (List.length l <= 1)%nat /\
            forall row, In row l ->
              exists s, who = Some s /\ can_moderate s /\
                        ModLog.moderatorId row = User.id s.
Proof.
  intros E.
  assert (N : forall d1, moderationLogs d1 = moderationLogs d ->
            exists l, moderationLogs d1 = moderationLogs d ++ l /\
            (List.length l <= 1)%nat /\
            forall row, In row l ->
              exists s, who = Some s /\ can_moderate s /\
                        ModLog.moderatorId row = User.id s).
  { intros d1 ->. exists []. rewrite app_nil_r.
    repeat split; simpl; auto. intros row []. }
  assert (K : forall u d1, who = Some u -> can_moderate u ->
                moderationLogs d1 = moderationLogs d ->
                logged env (User.id u) d1 d' ->
                exists l, moderationLogs d' = moderationLogs d ++ l /\
                  (List.length l <= 1)%nat /\
                  forall row, In row l ->
                    exists s, who = Some s /\ can_moderate s /\
                              ModLog.moderatorId row = User.id s).
  { intros u d1 Hw Hs E1 L.
    destruct (logged_tables _ _ _ _ L) as (_ & _ & _ & _ & _ & l & El & Hlen & Hrow).
    exists l. rewrite El, E1. repeat split; auto.
    intros row Hin. exists u. auto. }
  effect_cases E.
  - apply N; reflexivity.
  - apply N. apply (createUser_tables _ _ _ _ _ E).
  - apply N. apply (updateUser_tables _ _ _ _ _ E).
  - apply N. apply (incrementViewCount_tables _ _ _ E).
  - apply N. apply (createThread_tables _ _ _ _ _ E).
  - apply N. apply (createPost_tables _ _ _ _ _ E).
  - apply (K u d1 Hw Hs); [|exact L]. apply (deletePost_logs _ _ _ E).
  - apply N. apply (createPrivateInvite_tables _ _ _ _ _ E).
  - apply (K u d1 Hw Hs); [|exact L].
    apply (updatePrivateInvite_tables _ _ _ _ _ _ _ E).
  - apply (K u d1 Hw (admin_can_moderate u Ha)); [|exact L].
    apply (updateUser_tables _ _ _ _ _ E).
  - apply (K u d1 Hw (admin_can_moderate u Ha)); [|exact L].
    apply (updateUser_tables _ _ _ _ _ E).
Qed.

(** X4. The moderation log is append-only: a request leaves the rows on
    record as they are, in their order, and adds at most one row after
    them; a row is only ever added for a requester who is a moderator or an
    administrator, and it names that requester as the moderator. *)
Theorem audit_log_append_only (env : Env) (req : Request) (w : World) :
  exists l,
    moderationLogs (db (snd (handle env req w))) = moderationLogs (db w) ++ l /\
    (List.length l <= 1)%nat /\
    forall row, In row l ->
      exists s, visitor env req w = Some s /\ can_moderate s /\
                ModLog.moderatorId row = User.id s.
Proof. apply effect_logs with (env := env), handle_effect. Qed.



Lemma effect_non_staff env who d d' :
  (forall s, who = Some s -> ~ can_moderate s) ->
  DbEffect env who d d' ->
  (exists l, posts d' = posts d ++ l) /\
  (exists l, privateInvites d' = privateInvites d ++ l) /\
  moderationLogs d' = moderationLogs d.
Proof.
  intros Hs E.
  assert (N : forall d1, posts d1 = posts d ->
                privateInvites d1 = privateInvites d ->
                moderationLogs d1 = moderationLogs d ->
                (exists l, posts d1 = posts d ++ l) /\
                (exists l, privateInvites d1 = privateInvites d ++ l) /\
                moderationLogs d1 = moderationLogs d).
  { intros d1 -> -> ->. repeat split; exists []; rewrite app_nil_r; reflexivity. }
  effect_cases E;
    try (exfalso; apply (Hs u Hw); first [exact Hs0 | left; exact Ha]).
  - apply N; reflexivity.
  - destruct (createUser_tables _ _ _ _ _ E) as (_ & _ & P & I & L & _).
    apply N; assumption.
  - destruct (updateUser_tables _ _ _ _ _ E) as (_ & P & I & L & _).
    apply N; assumption.
  - destruct (incrementViewCount_tables _ _ _ E) as (_ & P & I & L & _).
    apply N; assumption.
  - destruct (createThread_tables _ _ _ _ _ E) as (_ & P & I & L & _).
    apply N; assumption.
  - destruct (createPost_tables _ _ _ _ _ E) as (P & _ & _ & _ & I & L & _).
    rewrite P, I, L. repeat split; [exists [p] | exists []; rewrite app_nil_r];
      reflexivity.
  - destruct (createPrivateInvite_tables _ _ _ _ _ E) as (_ & _ & P & I & L & _).
    rewrite P, I, L. repeat split; [exists []; rewrite app_nil_r | exists [i]];
      reflexivity.
Qed.

(** X6. A requester who is neither moderator nor administrator, or nobody
    at all, removes no post and changes no post, removes and changes no
    private-access request, and writes nothing to the moderation log: the
    posts and the requests on record stay as they are, in their order, and
    new ones can only come after them. *)
Theorem only_staff_moderate (env : Env) (req : Request) (w : World) :
  (forall s, visitor env req w = Some s -> ~ can_moderate s) ->
  (exists l, posts (db (snd (handle env req w))) = posts (db w) ++ l) /\
  (exists l, privateInvites (db (snd (handle env req w)))
             = privateInvites (db w) ++ l) /\
  moderationLogs (db (snd (handle env req w))) = moderationLogs (db w).
Proof.
  intros Hs. apply effect_non_staff with (env := env) (who := visitor env req w);
    [exact Hs | apply handle_effect].
Qed.

Lemma effect_posts env who d d' p :
  DbEffect env who d d' -> In p (posts d') ->
  In p (posts d) \/
  exists u x, who = Some u /\ User.role u <> new_user /\
              Post.authorId p = User.id u /\
              getThread d (Post.threadId p) = Some x /\
              Thread.isLocked (thread x) = false /\
              (forall c, category x = Some c -> Category.isPrivate c = true ->
                         User.hasPrivateAccess u = true).
Proof.
  intros E Hin. effect_cases E.
  - auto.
  - destruct (createUser_tables _ _ _ _ _ E) as (_ & _ & P & _).
    rewrite P in Hin. auto.
  - destruct (updateUser_tables _ _ _ _ _ E) as (_ & P & _).
    rewrite P in Hin. auto.
  - destruct (incrementViewCount_tables _ _ _ E) as (_ & P & _).
    rewrite P in Hin. auto.
  - destruct (createThread_tables _ _ _ _ _ E) as (_ & P & _).
    rewrite P in Hin. auto.
  - destruct (createPost_tables _ _ _ _ _ E) as (P & Tid & Aid & _).
    rewrite P in Hin. apply in_app_or in Hin. destruct Hin as [Hin|[<-|[]]].
    + auto.
    + right. exists u, x. rewrite Tid, Aid.
      exact (conj Hw (conj Hr (conj Ha (conj Hx (conj Hl Hp))))).
  - destruct (logged_tables _ _ _ _ L) as (_ & _ & P & _).
    rewrite P in Hin. left. apply (proj1 (deletePost_tables _ _ _ E)). exact Hin.
  - destruct (createPrivateInvite_tables _ _ _ _ _ E) as (_ & _ & P & _).
    rewrite P in Hin. auto.
  - destruct (logged_tables _ _ _ _ L) as (_ & _ & P & _).
    destruct (updatePrivateInvite_tables _ _ _ _ _ _ _ E) as (_ & P1 & _).
    rewrite P, P1 in Hin. auto.
  - destruct (logged_tables _ _ _ _ L) as (_ & _ & P & _).
    destruct (updateUser_tables _ _ _ _ _ E) as (_ & P1 & _).
    rewrite P, P1 in Hin. auto.
  - destruct (logged_tables _ _ _ _ L) as (_ & _ & P & _).
    destruct (updateUser_tables _ _ _ _ _ E) as (_ & P1 & _).
    rewrite P, P1 in Hin. auto.
Qed.

(** X7. Every post found after a request was there before it, or was
    written by this request for its requester: a logged-in user whose role
    is not new_user, into a thread that existed, was not locked and, if its
    category is private, only when the requester holds the grant.  So no
    request from anybody adds a post to a locked thread, and none from a
    user without the grant adds one to a private thread. *)
Theorem new_posts_were_allowed
    (env : Env) (req : Request) (w : World) (p : Post.t) :
  In p (posts (db (snd (handle env req w)))) ->
  In p (posts (db w)) \/
  exists u x, visitor env req w = Some u /\ User.role u <> new_user /\
              Post.authorId p = User.id u /\
              getThread (db w) (Post.threadId p) = Some x /\
              Thread.isLocked (thread x) = false /\
              (forall c, category x = Some c -> Category.isPrivate c = true ->
                         User.hasPrivateAccess u = true).
Proof. apply effect_posts with (env := env), handle_effect. Qed.

(** One more view of thread [id]. *)
Definition viewed (id : Z) (l : list Thread.t) : list Thread.t :=
  map (fun x => if Thread.id x =? id
                then Thread.set_viewCount (Thread.viewCount x + 1) x
                else x) l.



(** ** Sessions *)



Lemma sess_get_set sid sd l : sess_get sid (sess_set sid sd l) = Some sd.
Proof.
  unfold sess_get. induction l as [|kv r IH]; simpl.
  - rewrite N.eqb_refl. reflexivity.
  - destruct (fst kv =? sid)%N eqn:E; simpl.
    + rewrite N.eqb_refl. reflexivity.
    + rewrite E. exact IH.
Qed.

Lemma session_eqb_userId a b : session_eqb a b = true -> userId b = userId a.
Proof.
  unfold session_eqb. intros H. apply andb_true_iff in H. destruct H as [H _].
  destruct (userId a), (userId b); try discriminate; [|reflexivity].
  apply Z.eqb_eq in H. congruence.
Qed.

(** The chain before the route either refuses with 403 or hands the
    request to the route, the session holding a token. *)
Lemma app_route_or_403 env req st :
  app env req st = route env req (ensureToken env st) \/
  status (fst (app env req st)) = 403.
Proof.
  assert (C : csrfProtection env req st (fun st0 => route env req st0)
              = route env req (ensureToken env st) \/
              status (fst (csrfProtection env req st
                             (fun st0 => route env req st0))) = 403).
  { unfold csrfProtection.
    destruct (safe_method (r_method req)); [left; reflexivity|].
    destruct (r_csrf req) as [[|c cs]|]; try (right; reflexivity).
    destruct (st_sess (ensureToken env st)) as [[uid [t|]]|];
      try (right; reflexivity).
    destruct (str_eqb (c :: cs) t); [left|right]; reflexivity. }
  unfold app, checkBanned.
  destruct (session_userId st) as [uid|]; [|exact C].
  destruct (getUser (st_db st) uid) as [u|]; [|exact C].
  destruct (User.isBanned u); [right; reflexivity|exact C].
Qed.

Lemma login_200 env req st :
  status (fst (login env req st)) = 200 ->
  exists email password u r d,
    loginSchema_parse (r_body req) = inl (email, password) /\
    In u (users (st_db st)) /\ User.email u = wire (toLowerCase email) /\
    User.isBanned u = false /\
    bcrypt_compare password (User.password u) = true /\
    updateUser (User.id u) (touch (now env)) (st_db st) = Some (r, d) /\
    login env req st
    = (json 200 (JObj [("user"%string, safeUser u)]),
       set_userId (User.id u) (with_db d st)).
Proof.
  unfold login.
  destruct (loginSchema_parse (r_body req)) as [[email password]|m] eqn:P;
    [|discriminate].
  destruct (getUserByEmail (st_db st) (toLowerCase email)) as [[u|]|] eqn:G;
    try discriminate.
  destruct (User.isBanned u) eqn:B; [discriminate|].
  destruct (bcrypt_compare password (User.password u)) eqn:K;
    [|discriminate].
  simpl negb. cbv iota. fold (touch (now env)).
  destruct (updateUser (User.id u) (touch (now env)) (st_db st))
    as [[r d]|] eqn:U; [|discriminate].
  intros _. exists email, password, u, r, d.
  unfold getUserByEmail in G. destruct (text_ok _); [|discriminate].
  inversion G as [F]. apply find_some in F. destruct F as [Hin He].
  apply str_eqb_eq in He. repeat split; auto.
Qed.

(** X10. A login that is answered 200 was given the credentials of an
    account: the body parses to an email and a password, an account that
    is not banned has that email (in lower case, as the database holds
    it), and bcrypt accepts the password against the stored hash.  The
    answer carries that account without its password, and the session of
    the request is stored bound to it. *)
Theorem login_needs_credentials (env : Env) (req : Request) (w : World) :
  r_method req = POST ->
  r_path req = P_auth_login ->
  status (fst (handle env req w)) = 200 ->
  exists email password u,
    loginSchema_parse (r_body req) = inl (email, password) /\
    In u (users (db w)) /\ User.email u = wire (toLowerCase email) /\
    User.isBanned u = false /\
    bcrypt_compare password (User.password u) = true /\
    fst (handle env req w) = json 200 (JObj [("user"%string, safeUser u)]) /\
    exists sd',
      sess_get (fst (load env req w)) (sessions (snd (handle env req w)))
      = Some sd' /\ userId sd' = Some (User.id u).
Proof.
  intros Hm Hp. rewrite handle_unfold. simpl fst. simpl snd.
  set (sd0 := snd (load env req w)).
  set (st0 := {| st_db := db w; st_sess := Some sd0 |}).
  destruct (app_route_or_403 env req st0) as [E|E];
    [|rewrite E; discriminate].
  rewrite E. unfold route. rewrite Hm, Hp. intros H200.
  destruct (login_200 env req (ensureToken env st0) H200)
    as (email & password & u & r & d & P & Hin & He & Hb & Hk & Hu & L).
  rewrite ensureToken_db in Hin. simpl in Hin.
  exists email, password, u. rewrite L. simpl fst. simpl snd.
  repeat (split; [assumption|]). split; [reflexivity|].
  assert (S : exists sd1, st_sess (ensureToken env st0) = Some sd1).
  { unfold ensureToken. destruct (session_csrfToken st0); simpl; eauto. }
  destruct S as [sd1 S].
  unfold store, set_userId, with_db. simpl. rewrite S.
  destruct (session_eqb _ sd0) eqn:Q.
  - apply session_eqb_userId in Q. simpl in Q.
    unfold sd0, load in Q |- *.
    destruct (r_cookie req) as [sid|]; [|discriminate Q].
    destruct (sess_get sid (sessions w)) as [sd|] eqn:G; [|discriminate Q].
    simpl. rewrite G. eauto.
  - rewrite sess_get_set. eauto.
Qed.

(** ** View counts *)

Definition thread_views (x : Thread.t) : Z * Z :=
  (Thread.id x, Thread.viewCount x).

Lemma createPost_views time ins d p d' :
  createPost time ins d = Some (p, d') ->
  map thread_views (threads d') = map thread_views (threads d).
Proof.
  unfold createPost. destruct (_ && _); [|discriminate].
  intros E; inversion E; subst; clear E.
  match goal with
  | |- context [match ?f with Some _ => _ | None => _ end] => destruct f
  end; simpl; apply (map_update_static Thread.id); reflexivity.
Qed.

Lemma deletePost_views id d d' :
  deletePost id d = Some d' ->
  map thread_views (threads d') = map thread_views (threads d).
Proof.
  intros H. open_deletePost H; simpl; try reflexivity;
    apply (map_update_static Thread.id); reflexivity.
Qed.

Lemma incrementViewCount_bound id d d' x :
  incrementViewCount id d = Some d' ->
  find (fun y => Thread.id y =? id) (threads d) = Some x ->
  Thread.viewCount x < 2147483647.
Proof.
  unfold incrementViewCount. destruct (_ && _) eqn:G; [|discriminate].
  intros _ F. apply andb_true_iff in G. destruct G as [_ G].
  apply find_some in F. destruct F as [Hin Hid].
  pose proof (proj1 (forallb_forall _ _) G x Hin) as B. simpl in B.
  rewrite Hid in B. simpl in B. unfold int4 in B.
  apply andb_true_iff in B. destruct B as [_ B]. apply Z.leb_le in B. lia.
Qed.

Lemma effect_views env who d d' :
  DbEffect env who d d' ->
  (exists l, map thread_views (threads d')
             = map thread_views (threads d) ++ map thread_views l /\
             forall x, In x l -> Thread.viewCount x = 0)
  \/
  (exists id x, getThread d id = Some x /\
                threads d' = viewed id (threads d) /\
                Thread.viewCount (thread x) < 2147483647 /\
                forall c, category x = Some c -> Category.isPrivate c = true ->
                          exists u, who = Some u /\
                                    User.hasPrivateAccess u = true).
Proof.
  intros E.
  assert (S : forall d1,
    map thread_views (threads d1) = map thread_views (threads d) ->
    (exists l, map thread_views (threads d1)
               = map thread_views (threads d) ++ map thread_views l /\
               forall x, In x l -> Thread.viewCount x = 0)
    \/
    (exists id x, getThread d id = Some x /\
                  threads d1 = viewed id (threads d) /\
                  Thread.viewCount (thread x) < 2147483647 /\
                  forall c, category x = Some c -> Category.isPrivate c = true ->
                            exists u, who = Some u /\
                                      User.hasPrivateAccess u = true)).
  { intros d1 T. left. exists []. simpl. rewrite app_nil_r.
    split; [exact T|]. intros x []. }
  effect_cases E.
  - apply S; reflexivity.
  - apply S. f_equal. apply (createUser_tables _ _ _ _ _ E).
  - apply S. f_equal. apply (updateUser_tables _ _ _ _ _ E).
  - right. exists id, x. split; [exact Hx|].
    destruct (incrementViewCount_tables _ _ _ E) as (_ & _ & _ & _ & _ & T).
    split; [exact T|]. split; [|exact Hpriv].
    unfold getThread in Hx.
    destruct (find (fun y => Thread.id y =? id) (threads d)) as [y|] eqn:F;
      [|discriminate].
    inversion Hx; subst x. simpl.
    exact (incrementViewCount_bound _ _ _ _ E F).
  - left. exists [x]. destruct (createThread_tables _ _ _ _ _ E) as (T & _).
    rewrite T, map_app. split; [reflexivity|]. intros y [<-|[]].
    unfold createThread in E. destruct (_ && _); [|discriminate].
    inversion E; subst. reflexivity.
  - apply S. apply (createPost_views _ _ _ _ _ E).
  - apply S. destruct (logged_tables _ _ _ _ L) as (_ & T & _).
    rewrite T. apply (deletePost_views _ _ _ E).
  - apply S. f_equal. apply (createPrivateInvite_tables _ _ _ _ _ E).
  - apply S. destruct (logged_tables _ _ _ _ L) as (_ & T & _).
    rewrite T. f_equal. apply (updatePrivateInvite_tables _ _ _ _ _ _ _ E).
  - apply S. destruct (logged_tables _ _ _ _ L) as (_ & T & _).
    rewrite T. f_equal. apply (updateUser_tables _ _ _ _ _ E).
  - apply S. destruct (logged_tables _ _ _ _ L) as (_ & T & _).
    rewrite T. f_equal. apply (updateUser_tables _ _ _ _ _ E).
Qed.

(** X11. A request leaves every view count as it is, and a thread it adds
    starts at 0, with one exception: the read of a thread adds exactly one
    to the view count of that thread, and changes nothing else in the
    threads.  The view of a thread in a private category is only counted
    for a requester who holds the private-access grant, and a count at the
    top of the integer range is not taken further. *)
Theorem views_need_access (env : Env) (req : Request) (w : World) :
  (exists l, map thread_views (threads (db (snd (handle env req w))))
             = map thread_views (threads (db w)) ++ map thread_views l /\
             forall x, In x l -> Thread.viewCount x = 0)
  \/
  (exists id x, getThread (db w) id = Some x /\
                threads (db (snd (handle env req w)))
                = viewed id (threads (db w)) /\
                Thread.viewCount (thread x) < 2147483647 /\
                forall c, category x = Some c -> Category.isPrivate c = true ->
                          exists u, visitor env req w = Some u /\
                                    User.hasPrivateAccess u = true).
Proof. apply effect_views with (env := env), handle_effect. Qed.

(* ================================================================ *)
(** * The denormalised counters *)
(* ================================================================ *)

(** What the counters are meant to count. *)
Definition replies_of (tid : Z) (d : DB) : Z :=
  count (fun p => Post.threadId p =? tid) (posts d).

Definition threads_of (cid : Z) (d : DB) : Z :=
  count (fun x => Thread.categoryId x =? cid) (threads d).

(** The post is in a thread of the category. *)
Definition in_category (cid : Z) (d : DB) (p : Post.t) : bool :=
  existsb (fun x => (Thread.id x =? Post.threadId p)
                    && (Thread.categoryId x =? cid)) (threads d).

Definition posts_of (cid : Z) (d : DB) : Z :=
  count (in_category cid d) (posts d).

(** The keys of the schema: post ids and thread ids are primary keys, and
    [posts.threadId] references a thread. *)
Definition keys_respected (d : DB) : Prop :=
  NoDup (map Post.id (posts d)) /\
  NoDup (map Thread.id (threads d)) /\
  forall p, In p (posts d) ->
            existsb (fun x => Thread.id x =? Post.threadId p) (threads d) = true.

Definition reply_counts_exact (d : DB) : Prop :=
  forall x, In x (threads d) -> Thread.replyCount x = replies_of (Thread.id x) d.

Definition category_counts_exact (d : DB) : Prop :=
  forall c, In c (categories d) ->
    Category.threadCount c = threads_of (Category.id c) d /\
    Category.postCount c = posts_of (Category.id c) d.

(** ** Counting *)

Lemma count_app {A} (f : A -> bool) (l r : list A) :
  count f (l ++ r) = count f l + count f r.
Proof.
  unfold count. rewrite filter_app, length_app. lia.
Qed.

Lemma count_ext_in {A} (f g : A -> bool) (l : list A) :
  (forall x, In x l -> f x = g x) -> count f l = count g l.
Proof.
  intros H. unfold count. f_equal. f_equal. apply filter_ext_in. exact H.
Qed.

Lemma count_map {A B} (f : B -> bool) (g : A -> B) (l : list A) :
  count f (map g l) = count (fun x => f (g x)) l.
Proof.
  induction l as [|x r IH]; [reflexivity|].
  simpl map. rewrite !count_cons, IH. reflexivity.
Qed.

Lemma count_filter {A} (f g : A -> bool) (l : list A) :
  count f (filter g l) = count (fun x => g x && f x) l.
Proof.
  induction l as [|x r IH]; [reflexivity|].
  simpl filter. rewrite count_cons. destruct (g x); simpl.
  - rewrite count_cons, IH. reflexivity.
  - rewrite IH. lia.
Qed.

Lemma count_nonneg {A} (f : A -> bool) (l : list A) : 0 <= count f l.
Proof. unfold count. lia. Qed.

Lemma count_zero {A} (f : A -> bool) (l : list A) :
  (forall x, In x l -> f x = false) -> count f l = 0.
Proof.
  intros H. induction l as [|x r IH]; [reflexivity|].
  rewrite count_cons, (H x (or_introl eq_refl)), IH; [reflexivity|].
  intros y Hy. apply H. right. exact Hy.
Qed.

Lemma count_update {A} (key : A -> Z) (g : A -> A) (f : A -> bool) k l :
  (forall x, f (g x) = f x) ->
  count f (map (fun x => if key x =? k then g x else x) l) = count f l.
Proof.
  intros H. rewrite count_map. apply count_ext_in. intros x _.
  destruct (key x =? k); [apply H|reflexivity].
Qed.

Lemma existsb_update {A} (key : A -> Z) (g : A -> A) (f : A -> bool) k l :
  (forall x, f (g x) = f x) ->
  existsb f (map (fun x => if key x =? k then g x else x) l) = existsb f l.
Proof.
  intros H. induction l as [|x r IH]; [reflexivity|].
  simpl. rewrite IH. destruct (key x =? k); [rewrite H|]; reflexivity.
Qed.

(** ** Primary keys *)

Lemma NoDup_filter_keys {A} (key : A -> Z) (f : A -> bool) (l : list A) :
  NoDup (map key l) -> NoDup (map key (filter f l)).
Proof.
  induction l as [|x r IH]; simpl; [auto|].
  intros H. inversion H as [|? ? Hn Hr]; subst.
  destruct (f x); simpl; [constructor|]; auto.
  intros Hin. apply Hn. apply in_map_iff in Hin.
  destruct Hin as (y & Hy & Hin). apply filter_In in Hin.
  apply in_map_iff. exists y. tauto.
Qed.

Lemma map_key_update {A} (key : A -> Z) (g : A -> A) k l :
  (forall x, key (g x) = key x) ->
  map key (map (fun x => if key x =? k then g x else x) l) = map key l.
Proof. intros H. apply (map_update_static key g key k l H). Qed.

Lemma NoDup_push {A} (key : A -> Z) (l : list A) (x : A) :
  NoDup (map key l) ->
  existsb (fun y => key y =? key x) l = false ->
  NoDup (map key (l ++ [x])).
Proof.
  intros H F. rewrite map_app. simpl.
  apply NoDup_app; [exact H | constructor; [intros []|constructor] |].
  intros k Hin [<-|[]]. apply in_map_iff in Hin.
  destruct Hin as (y & Hy & Hin).
  assert (T : existsb (fun y => key y =? key x) l = true).
  { apply existsb_exists. exists y. split; [exact Hin|]. apply Z.eqb_eq, Hy. }
  congruence.
Qed.

(** With unique keys, the row [find] returns is the only one of its key. *)
Lemma unique_key {A} (key : A -> Z) (k : Z) (l : list A) (x y : A) :
  NoDup (map key l) -> find (fun z => key z =? k) l = Some x ->
  In y l -> key y = k -> y = x.
Proof.
  induction l as [|z r IH]; simpl; [discriminate|].
  intros H F Hin Hk. inversion H as [|? ? Hn Hr]; subst.
  destruct (Z.eqb_spec (key z) (key y)) as [E|E].
  - inversion F; subst x. destruct Hin as [->|Hin]; [reflexivity|].
    exfalso. apply Hn. rewrite E. apply in_map. exact Hin.
  - destruct Hin as [->|Hin]; [congruence|]. eapply IH; eauto.
Qed.

Lemma find_none_key {A} (key : A -> Z) (k : Z) (l : list A) (y : A) :
  find (fun z => key z =? k) l = None -> In y l -> key y <> k.
Proof.
  intros F Hin E. apply (find_none _ _ F) in Hin.
  apply Z.eqb_neq in Hin. contradiction.
Qed.

(** ** The recount of a category *)

Lemma one_or_none {A} (key : A -> Z) (g : A -> bool) (t : Z) (l : list A) :
  NoDup (map key l) ->
  count (fun x => (key x =? t) && g x) l
  = if existsb (fun x => (key x =? t) && g x) l then 1 else 0.
Proof.
  induction l as [|x r IH]; [reflexivity|].
  intros H. inversion H as [|? ? Hn Hr]; subst.
  rewrite count_cons. simpl existsb.
  destruct ((key x =? t) && g x) eqn:E; simpl.
  - rewrite count_zero; [reflexivity|].
    intros y Hy. apply andb_true_iff in E. destruct E as [E _].
    apply Z.eqb_eq in E.
    destruct (Z.eqb_spec (key y) t) as [E'|]; [|reflexivity].
    exfalso. apply Hn. rewrite E, <- E'. apply in_map, Hy.
  - apply IH, Hr.
Qed.

(** With unique thread ids, the join of posts and threads has one row per
    post of the category. *)
Lemma join_count (k : Z) (ts : list Thread.t) (ps : list Post.t) :
  NoDup (map Thread.id ts) ->
  fold_right Z.add 0
    (map (fun p => count (fun x => (Thread.id x =? Post.threadId p)
                                   && (Thread.categoryId x =? k)) ts) ps)
  = count (fun p => existsb (fun x => (Thread.id x =? Post.threadId p)
                                      && (Thread.categoryId x =? k)) ts) ps.
Proof.
  intros H. induction ps as [|p r IH]; [reflexivity|].
  simpl map. simpl fold_right. rewrite count_cons, IH.
  rewrite (one_or_none Thread.id (fun x => Thread.categoryId x =? k)
             (Post.threadId p) ts H).
  reflexivity.
Qed.

(** A post whose thread is in another category, or is missing. *)
Lemma not_in_category (cid t : Z) (ts : list Thread.t) :
  NoDup (map Thread.id ts) ->
  (forall x, find (fun x => Thread.id x =? t) ts = Some x ->
             Thread.categoryId x <> cid) ->
  existsb (fun x => (Thread.id x =? t) && (Thread.categoryId x =? cid)) ts
  = false.
Proof.
  intros N H.
  destruct (existsb _ ts) eqn:E; [|reflexivity].
  apply existsb_exists in E. destruct E as (y & Hy & E).
  apply andb_true_iff in E. destruct E as [E1 E2].
  apply Z.eqb_eq in E1. apply Z.eqb_eq in E2.
  destruct (find (fun x => Thread.id x =? t) ts) as [x|] eqn:F.
  - rewrite (unique_key Thread.id t ts x y N F Hy E1) in E2.
    exfalso. exact (H x eq_refl E2).
  - exfalso. exact (find_none_key Thread.id t ts y F Hy E1).
Qed.

(** One row of a key removed. *)
Lemma count_remove {A} (key : A -> Z) (f : A -> bool) (k : Z) (l : list A) p :
  NoDup (map key l) -> find (fun q => key q =? k) l = Some p ->
  count (fun q => negb (key q =? k) && f q) l
  = count f l - (if f p then 1 else 0).
Proof.
  induction l as [|x r IH]; simpl find; [discriminate|].
  intros H F. inversion H as [|? ? Hn Hr]; subst.
  rewrite !count_cons.
  destruct (Z.eqb_spec (key x) k) as [E|E].
  - inversion F; subst x. simpl negb. simpl andb.
    rewrite (count_ext_in (fun q => negb (key q =? k) && f q) f r).
    + lia.
    + intros y Hy. destruct (Z.eqb_spec (key y) k) as [E'|]; [|reflexivity].
      exfalso. apply Hn. rewrite E, <- E'. apply in_map, Hy.
  - simpl negb. simpl andb. rewrite (IH Hr F). lia.
Qed.

Lemma existsb_filter {A} (f g : A -> bool) (l : list A) :
  existsb f (filter g l) = existsb (fun x => g x && f x) l.
Proof.
  induction l as [|x r IH]; [reflexivity|].
  simpl. destruct (g x); simpl; rewrite IH; reflexivity.
Qed.

Lemma existsb_ext_in {A} (f g : A -> bool) (l : list A) :
  (forall x, In x l -> f x = g x) -> existsb f l = existsb g l.
Proof.
  induction l as [|x r IH]; [reflexivity|].
  intros H. simpl. rewrite (H x (or_introl eq_refl)), IH; [reflexivity|].
  intros y Hy. apply H. right. exact Hy.
Qed.

(** Keys respected, and every counter of a thread or a category equal to
    what it counts. *)
Definition counters_exact (d : DB) : Prop :=
  keys_respected d /\ reply_counts_exact d /\ category_counts_exact d.

Lemma counters_exact_tables d d' :
  categories d' = categories d -> threads d' = threads d ->
  posts d' = posts d -> counters_exact d -> counters_exact d'.
Proof.
  unfold counters_exact, keys_respected, reply_counts_exact,
    category_counts_exact, threads_of, posts_of, replies_of, in_category.
  intros -> -> ->. exact (fun H => H).
Qed.

Lemma recount_exact (k : Z) (d : DB) :
  NoDup (map Thread.id (threads d)) ->
  (forall c, In c (categories d) -> Category.id c <> k ->
     Category.threadCount c = threads_of (Category.id c) d /\
     Category.postCount c = posts_of (Category.id c) d) ->
  category_counts_exact (updateCategoryStats k d).
Proof.
  intros N H c Hc.
  unfold updateCategoryStats, set_categories in Hc. cbn [categories] in Hc.
  apply in_map_iff in Hc. destruct Hc as (c0 & <- & Hc0).
  unfold threads_of, posts_of, in_category.
  change (threads (updateCategoryStats k d)) with (threads d).
  change (posts (updateCategoryStats k d)) with (posts d).
  destruct (Z.eqb_spec (Category.id c0) k) as [E|E].
  - destruct c0; simpl in E; subst. simpl. split; [reflexivity|].
    apply join_count, N.
  - apply H; assumption.
Qed.

Lemma recount_counters (k : Z) (d : DB) :
  keys_respected d -> reply_counts_exact d ->
  (forall c, In c (categories d) -> Category.id c <> k ->
     Category.threadCount c = threads_of (Category.id c) d /\
     Category.postCount c = posts_of (Category.id c) d) ->
  counters_exact (updateCategoryStats k d).
Proof.
  intros K R H. split; [exact K|]. split; [exact R|].
  apply recount_exact; [apply K | exact H].
Qed.

(** The recount that [createPost] and [deletePost] do: of the category of
    the thread, if the thread is found. *)
Lemma recount_found (t : Z) (d : DB) :
  keys_respected d -> reply_counts_exact d ->
  (forall c, In c (categories d) ->
     (forall x, find (fun x => Thread.id x =? t) (threads d) = Some x ->
                Thread.categoryId x <> Category.id c) ->
     Category.threadCount c = threads_of (Category.id c) d /\
     Category.postCount c = posts_of (Category.id c) d) ->
  counters_exact (match find (fun x => Thread.id x =? t) (threads d) with
                  | Some x => updateCategoryStats (Thread.categoryId x) d
                  | None => d
                  end).
Proof.
  intros K R H. destruct (find _ (threads d)) as [x|].
  - apply recount_counters; auto.
    intros c Hc E. apply H; [exact Hc|].
    intros y Hy. inversion Hy; subst. auto.
  - split; [exact K|]. split; [exact R|].
    intros c Hc. apply H; [exact Hc|]. discriminate.
Qed.

(** ** The content operations keep the counters exact *)

Lemma bump_id time by_ n x :
  Thread.id (Thread.set_lastReply time by_ (Thread.set_replyCount n x))
  = Thread.id x.
Proof. destruct x; reflexivity. Qed.

Lemma createPost_counters time ins d p d' :
  createPost time ins d = Some (p, d') ->
  counters_exact d -> counters_exact d'.
Proof.
  unfold createPost. destruct (_ && _) eqn:G; [|discriminate].
  intros E; inversion E; subst; clear E.
  apply andb_true_iff in G. destruct G as [G Gu].
  apply andb_true_iff in G. destruct G as [G Gt].
  apply andb_true_iff in G. destruct G as [_ Gp].
  apply negb_true_iff in Gp.
  intros ((Np & Nt & FK) & R & C).
  set (t := ip_threadId ins) in *.
  set (row := Post.mk (seqPosts d) (wire (ip_content ins)) t (ip_authorId ins)
                (ip_parentId ins) false time time).
  set (bump := fun x => Thread.set_lastReply (Some time) (Some (ip_authorId ins))
                          (Thread.set_replyCount (Thread.replyCount x + 1) x)).
  assert (Bi : forall x, Thread.id (bump x) = Thread.id x)
    by (intros x; apply bump_id).
  assert (Bc : forall x, Thread.categoryId (bump x) = Thread.categoryId x)
    by (intros [ ]; reflexivity).
  assert (Nt' : NoDup (map Thread.id
                  (map (fun x => if Thread.id x =? t then bump x else x)
                     (threads d))))
    by (rewrite (map_key_update Thread.id bump t _ Bi); exact Nt).
  apply (recount_found t
           (set_users
              (map (fun u => if User.id u =? ip_authorId ins
                             then User.set_postCount (User.postCount u + 1) u
                             else u) (users d))
              (set_threads
                 (map (fun x => if Thread.id x =? t then bump x else x)
                    (threads d))
                 (push_post row d))));
    unfold keys_respected, reply_counts_exact, threads_of, posts_of,
      replies_of, in_category;
    cbn [threads posts categories set_users set_threads push_post].
  - split; [|split].
    + apply (NoDup_push Post.id (posts d) row Np). exact Gp.
    + exact Nt'.
    + intros q Hq.
      rewrite (existsb_update Thread.id bump
                 (fun x => Thread.id x =? Post.threadId q) t)
        by (intros x; rewrite Bi; reflexivity).
      apply in_app_or in Hq. destruct Hq as [Hq|[<-|[]]].
      * apply FK, Hq.
      * exact Gt.
  - intros x' Hx'. apply in_map_iff in Hx'. destruct Hx' as (x & <- & Hx).
    rewrite count_app, count_cons, count_nil. cbn [Post.threadId row].
    pose proof (R x Hx) as Rx. unfold replies_of in Rx.
    destruct (Z.eqb_spec (Thread.id x) t) as [E|E].
    + rewrite Bi, E, Z.eqb_refl. rewrite E in Rx.
      destruct x; simpl in *. lia.
    + destruct (Z.eqb_spec t (Thread.id x)) as [E'|_]; [congruence|].
      rewrite Rx. lia.
  - intros c Hc Hx. destruct (C c Hc) as [Ct Cp]. split.
    + rewrite (count_update Thread.id bump
                 (fun x => Thread.categoryId x =? Category.id c) t)
        by (intros x; rewrite Bc; reflexivity).
      exact Ct.
    + rewrite count_app, count_cons, count_nil. cbn [Post.threadId row].
      rewrite (not_in_category (Category.id c) t _ Nt' Hx).
      rewrite (count_ext_in _ (in_category (Category.id c) d) (posts d)).
      * rewrite Cp. unfold posts_of. lia.
      * intros q _. unfold in_category.
        apply (existsb_update Thread.id bump
                 (fun x => (Thread.id x =? Post.threadId q)
                           && (Thread.categoryId x =? Category.id c)) t).
        intros x. rewrite Bi, Bc. reflexivity.
Qed.

Lemma createThread_counters time ins d x d' :
  createThread time ins d = Some (x, d') ->
  counters_exact d -> counters_exact d'.
Proof.
  unfold createThread. destruct (_ && _) eqn:G; [|discriminate].
  intros E; inversion E; subst; clear E.
  repeat (apply andb_true_iff in G; destruct G as [G ?]).
  match goal with
  | F : negb (existsb (fun x => Thread.id x =? _) _) = true |- _ =>
      apply negb_true_iff in F; rename F into Gt
  end.
  intros ((Np & Nt & FK) & R & C).
  set (k := it_categoryId ins).
  set (row := Thread.mk (seqThreads d) (wire (it_title ins))
                (wire (it_content ins)) k (it_authorId ins)
                false false 0 0 None None time time).
  apply (recount_counters k
           (set_users
              (map (fun u => if User.id u =? it_authorId ins
                             then User.set_threadCount (User.threadCount u + 1) u
                             else u) (users d))
              (push_thread row d)));
    unfold keys_respected, reply_counts_exact, threads_of, posts_of,
      replies_of, in_category;
    cbn [threads posts categories set_users push_thread].
  - split; [|split].
    + exact Np.
    + apply (NoDup_push Thread.id (threads d) row Nt). exact Gt.
    + intros q Hq. rewrite existsb_app, (FK q Hq). reflexivity.
  - intros y Hy. apply in_app_or in Hy. destruct Hy as [Hy|[<-|[]]].
    + apply R, Hy.
    + cbn [Thread.replyCount Thread.id row]. symmetry. apply count_zero.
      intros q Hq. apply Z.eqb_neq. intros Eq.
      pose proof (FK q Hq) as F. rewrite Eq in F. congruence.
  - intros c Hc Hk. destruct (C c Hc) as [Ct Cp]. split.
    + rewrite count_app, count_cons, count_nil. cbn [Thread.categoryId row].
      destruct (Z.eqb_spec k (Category.id c)) as [E|_]; [congruence|].
      rewrite Ct. unfold threads_of. lia.
    + rewrite Cp. unfold posts_of. apply count_ext_in. intros q _.
      unfold in_category. rewrite existsb_app. simpl.
      destruct (Z.eqb_spec k (Category.id c)) as [E|_]; [congruence|].
      rewrite andb_false_r, !orb_false_r. reflexivity.
Qed.

Lemma opt_match_some {A B} (o : option A) (f : A -> B) (b r : B) :
  match o with Some x => Some (f x) | None => Some b end = Some r ->
  r = match o with Some x => f x | None => b end.
Proof. destruct o; intros E; inversion E; reflexivity. Qed.

Lemma deletePost_counters id d d' :
  deletePost id d = Some d' -> counters_exact d -> counters_exact d'.
Proof.
  unfold deletePost. destruct (int4 id); [|discriminate].
  destruct (find (fun p => Post.id p =? id) (posts d)) as [p|] eqn:F;
    [|intros E; inversion E; subst; auto].
  intros E ((Np & Nt & FK) & R & C).
  set (t := Post.threadId p) in *.
  set (dec := fun x => Thread.set_replyCount (Thread.replyCount x - 1) x).
  assert (Di : forall x, Thread.id (dec x) = Thread.id x)
    by (intros [ ]; reflexivity).
  assert (Dc : forall x, Thread.categoryId (dec x) = Thread.categoryId x)
    by (intros [ ]; reflexivity).
  assert (Nt' : NoDup (map Thread.id
                  (map (fun x => if Thread.id x =? t then dec x else x)
                     (threads d))))
    by (rewrite (map_key_update Thread.id dec t _ Di); exact Nt).
  assert (K : counters_exact
    (match find (fun x => Thread.id x =? t)
             (threads (set_threads
                (map (fun x => if Thread.id x =? t then dec x else x)
                   (threads d))
                (set_posts (filter (fun q => negb (Post.id q =? id)) (posts d))
                   d))) with
     | Some x => updateCategoryStats (Thread.categoryId x)
                   (set_threads
                      (map (fun x => if Thread.id x =? t then dec x else x)
                         (threads d))
                      (set_posts
                         (filter (fun q => negb (Post.id q =? id)) (posts d)) d))
     | None => set_threads
                 (map (fun x => if Thread.id x =? t then dec x else x)
                    (threads d))
                 (set_posts
                    (filter (fun q => negb (Post.id q =? id)) (posts d)) d)
     end)).
  { apply recount_found;
      unfold keys_respected, reply_counts_exact, threads_of, posts_of,
        replies_of, in_category;
      cbn [threads posts categories set_threads set_posts].
    - split; [|split].
      + apply NoDup_filter_keys, Np.
      + exact Nt'.
      + intros q Hq. apply filter_In in Hq. destruct Hq as [Hq _].
        rewrite (existsb_update Thread.id dec
                   (fun x => Thread.id x =? Post.threadId q) t)
          by (intros x; rewrite Di; reflexivity).
        apply FK, Hq.
    - intros x' Hx'. apply in_map_iff in Hx'. destruct Hx' as (x & <- & Hx).
      rewrite count_filter.
      rewrite (count_remove Post.id _ id (posts d) p Np F).
      pose proof (R x Hx) as Rx. unfold replies_of in Rx. fold t.
      destruct (Z.eqb_spec (Thread.id x) t) as [E1|E1].
      + rewrite Di, E1, Z.eqb_refl. rewrite E1 in Rx.
        destruct x; simpl in *. lia.
      + destruct (Z.eqb_spec t (Thread.id x)) as [E'|_]; [congruence|].
        rewrite Rx. lia.
    - intros c Hc Hx. destruct (C c Hc) as [Ct Cp]. split.
      + rewrite (count_update Thread.id dec
                   (fun x => Thread.categoryId x =? Category.id c) t)
          by (intros x; rewrite Dc; reflexivity).
        exact Ct.
      + rewrite count_filter.
        rewrite (count_remove Post.id _ id (posts d) p Np F). fold t.
        rewrite (not_in_category (Category.id c) t _ Nt' Hx).
        rewrite (count_ext_in _ (in_category (Category.id c) d) (posts d)).
        * rewrite Cp. unfold posts_of. lia.
        * intros q _. unfold in_category.
          apply (existsb_update Thread.id dec
                   (fun x => (Thread.id x =? Post.threadId q)
                             && (Thread.categoryId x =? Category.id c)) t).
          intros x. rewrite Di, Dc. reflexivity. }
  apply opt_match_some in E. subst d'. exact K.
Qed.

Lemma deleteThread_counters id d d' :
  deleteThread id d = Some d' -> counters_exact d -> counters_exact d'.
Proof.
  unfold deleteThread, getThread. destruct (int4 id); [|discriminate].
  destruct (find (fun x => Thread.id x =? id) (threads d)) as [x|] eqn:F;
    [|intros E; inversion E; subst; auto].
  cbn [thread]. intros E; inversion E; subst; clear E.
  intros ((Np & Nt & FK) & R & C).
  set (k := Thread.categoryId x).
  assert (Other : forall y, In y (threads d) -> Thread.categoryId y <> k ->
                            (Thread.id y =? id) = false).
  { intros y Hy Hk. apply Z.eqb_neq. intros Ey.
    apply Hk. rewrite (unique_key Thread.id id (threads d) x y Nt F Hy Ey).
    reflexivity. }
  apply (recount_counters k
           (set_posts (filter (fun p => negb (Post.threadId p =? id)) (posts d))
              (set_threads
                 (filter (fun y => negb (Thread.id y =? id)) (threads d)) d)));
    unfold keys_respected, reply_counts_exact, threads_of, posts_of,
      replies_of, in_category;
    cbn [threads posts categories set_threads set_posts].
  - split; [|split].
    + apply NoDup_filter_keys, Np.
    + apply NoDup_filter_keys, Nt.
    + intros q Hq. apply filter_In in Hq. destruct Hq as [Hq Hn].
      apply negb_true_iff in Hn.
      pose proof (FK q Hq) as Fq. apply existsb_exists in Fq.
      destruct Fq as (y & Hy & Ey). apply existsb_exists. exists y.
      split; [|exact Ey]. apply filter_In. split; [exact Hy|].
      apply Z.eqb_eq in Ey. rewrite Ey, Hn. reflexivity.
  - intros y Hy. apply filter_In in Hy. destruct Hy as [Hy Hn].
    apply negb_true_iff in Hn. rewrite (R y Hy). unfold replies_of.
    rewrite count_filter. apply count_ext_in. intros q _.
    destruct (Z.eqb_spec (Post.threadId q) (Thread.id y)) as [Eq|_];
      [|rewrite andb_false_r; reflexivity].
    rewrite Eq, Hn. reflexivity.
  - intros c Hc Hk. destruct (C c Hc) as [Ct Cp]. split.
    + rewrite Ct. unfold threads_of. rewrite count_filter.
      apply count_ext_in. intros y Hy.
      destruct (Z.eqb_spec (Thread.categoryId y) (Category.id c)) as [Ey|_];
        [|rewrite andb_false_r; reflexivity].
      rewrite (Other y Hy) by congruence. reflexivity.
    + rewrite Cp. unfold posts_of. rewrite count_filter.
      apply count_ext_in. intros q _. unfold in_category.
      rewrite existsb_filter.
      destruct (Z.eqb_spec (Post.threadId q) id) as [Eq|Eq].
      * simpl. rewrite Eq. apply not_in_category; [exact Nt|].
        intros y Hy. rewrite F in Hy. inversion Hy; subst y. fold k.
        congruence.
      * simpl. apply existsb_ext_in. intros y Hy.
        destruct (Z.eqb_spec (Thread.id y) (Post.threadId q)) as [Ey|_];
          [|rewrite andb_false_r; reflexivity].
        destruct (Z.eqb_spec (Thread.id y) id) as [Ei|_]; [congruence|].
        reflexivity.
Qed.

Lemma incrementViewCount_counters id d d' :
  incrementViewCount id d = Some d' -> counters_exact d -> counters_exact d'.
Proof.
  unfold incrementViewCount. destruct (_ && _); [|discriminate].
  intros E; inversion E; subst; clear E.
  intros ((Np & Nt & FK) & R & C).
  set (see := fun x => Thread.set_viewCount (Thread.viewCount x + 1) x).
  assert (Si : forall x, Thread.id (see x) = Thread.id x)
    by (intros [ ]; reflexivity).
  assert (Sc : forall x, Thread.categoryId (see x) = Thread.categoryId x)
    by (intros [ ]; reflexivity).
  unfold counters_exact, keys_respected, reply_counts_exact,
    category_counts_exact, threads_of, posts_of, replies_of, in_category.
  cbn [threads posts categories set_threads].
  split; [split; [|split]|split].
  - exact Np.
  - rewrite (map_key_update Thread.id see id _ Si). exact Nt.
  - intros q Hq.
    rewrite (existsb_update Thread.id see
               (fun x => Thread.id x =? Post.threadId q) id)
      by (intros x; rewrite Si; reflexivity).
    apply FK, Hq.
  - intros x' Hx'. apply in_map_iff in Hx'. destruct Hx' as (x & <- & Hx).
    pose proof (R x Hx) as Rx. unfold replies_of in Rx.
    destruct (Thread.id x =? id); [|exact Rx].
    destruct x; simpl in *. exact Rx.
  - intros c Hc. destruct (C c Hc) as [Ct Cp]. split.
    + rewrite (count_update Thread.id see
                 (fun x => Thread.categoryId x =? Category.id c) id)
        by (intros x; rewrite Sc; reflexivity).
      exact Ct.
    + rewrite Cp. unfold posts_of. apply count_ext_in. intros q _.
      unfold in_category. symmetry.
      apply (existsb_update Thread.id see
               (fun x => (Thread.id x =? Post.threadId q)
                         && (Thread.categoryId x =? Category.id c)) id).
      intros x. rewrite Si, Sc. reflexivity.
Qed.

Lemma run_op_counters_exact time op d d' :
  run_op time op d = Some d' -> counters_exact d -> counters_exact d'.
Proof.
  destruct op as [ins|ins|id|id]; simpl.
  - destruct (createThread time ins d) as [[x d1]|] eqn:E; [|discriminate].
    intros H; inversion H; subst. eapply createThread_counters; eauto.
  - destruct (createPost time ins d) as [[x d1]|] eqn:E; [|discriminate].
    intros H; inversion H; subst. eapply createPost_counters; eauto.
  - apply deletePost_counters.
  - apply deleteThread_counters.
Qed.

(** X12. In a store that respects the keys of the schema (post ids and
    thread ids unique, every post in an existing thread), if every
    thread's replyCount is the number of its posts and every category's
    threadCount and postCount are the numbers of its threads and of the
    posts in them, then this is still so, and the keys still respected,
    after any sequence of createThread, createPost, deletePost and
    deleteThread that runs to its end.  (The counters of the users are
    another matter: deletions never lower them.) *)
Theorem content_counters_stay_exact (ops : list (Z * Op)) :
  forall d d' : DB,
    run ops d = Some d' -> counters_exact d -> counters_exact d'.
Proof.
  induction ops as [|[time op] r IH]; intros d d' Hrun Hc.
  - simpl in Hrun. inversion Hrun; subst. exact Hc.
  - simpl in Hrun. destruct (run_op time op d) as [d1|] eqn:E; [|discriminate].
    apply (IH d1 d' Hrun). eapply run_op_counters_exact; eauto.
Qed.

Lemma logged_counters env uid d1 d :
  logged env uid d1 d -> counters_exact d1 -> counters_exact d.
Proof.
  intros L. destruct (logged_tables _ _ _ _ L) as (_ & T & P & _ & C & _).
  apply counters_exact_tables; assumption.
Qed.

Lemma effect_counters env who d d' :
  DbEffect env who d d' -> counters_exact d -> counters_exact d'.
Proof.
  intros E. effect_cases E.
  - auto.
  - destruct (createUser_tables _ _ _ _ _ E) as (_ & T & P & _ & _ & C & _).
    apply counters_exact_tables; assumption.
  - destruct (updateUser_tables _ _ _ _ _ E) as (T & P & _ & _ & C).
    apply counters_exact_tables; assumption.
  - eapply incrementViewCount_counters; eauto.
  - eapply createThread_counters; eauto.
  - eapply createPost_counters; eauto.
  - intros H. eapply logged_counters; [exact L|].
    eapply deletePost_counters; eauto.
  - destruct (createPrivateInvite_tables _ _ _ _ _ E) as (_ & T & P & _ & _ & C).
    apply counters_exact_tables; assumption.
  - intros H. eapply logged_counters; [exact L|].
    destruct (updatePrivateInvite_tables _ _ _ _ _ _ _ E) as (T & P & _ & C).
    revert H. apply counters_exact_tables; assumption.
  - intros H. eapply logged_counters; [exact L|].
    destruct (updateUser_tables _ _ _ _ _ E) as (T & P & _ & _ & C).
    revert H. apply counters_exact_tables; assumption.
  - intros H. eapply logged_counters; [exact L|].
    destruct (updateUser_tables _ _ _ _ _ E) as (T & P & _ & _ & C).
    revert H. apply counters_exact_tables; assumption.
Qed.

(** X13. The same through the routes: whatever the request and whoever
    sends it, if before it the keys are respected and the reply count of
    every thread and the two counters of every category are exact, they
    are after it. *)
Theorem requests_keep_counters_exact
    (env : Env) (req : Request) (w : World) :
  counters_exact (db w) -> counters_exact (db (snd (handle env req w))).
Proof. apply effect_counters with (env := env) (who := visitor env req w), handle_effect. Qed.

End Routes.

(* ================================================================== *)
(** * A concrete forum *)
(* ================================================================== *)

(** Stand-ins for the library functions, enough to run the examples
    below. *)
Definition lib_isEmail (s : jsstring) : bool := existsb (N.eqb 64) s.
Definition lib_zodMessage (path : string) (v : JSON) : jsstring := js "Required".
Definition lib_toLowerCase (s : jsstring) : jsstring :=
  map (fun c => if ((65 <=? c) && (c <=? 90))%N then (c + 32)%N else c) s.
Definition lib_bcrypt_hash (salt password : jsstring) : jsstring :=
  js "$2b$12$" ++ salt ++ password.
Definition lib_bcrypt_compare (password hash : jsstring) : bool :=
  str_eqb (skipn 29 hash) password.
Definition lib_pg_text (v : JSON) : jsstring := js "{}".
Definition lib_notRouted (req : Request) : Response := json 404 JUndefined.

Definition forum : Env -> Request -> World -> Response * World :=
  handle lib_isEmail lib_zodMessage lib_toLowerCase lib_bcrypt_hash
    lib_bcrypt_compare lib_pg_text lib_notRouted.

Definition a_user (id : Z) (name : string) (r : Role) (threadCount : Z)
    (banned access : bool) : User.t :=
  User.mk id (js name) (js name ++ js "@example.org")
    (js "$2b$12$abcdefghijklmnopqrstuv" ++ js name) r None None 0 threadCount
    banned (if banned then Some (js "spam") else None) access 10 10.

Definition admin1 : User.t := a_user 1 "admin" admin 1 false true.
Definition moderateur : User.t := a_user 2 "moderateur" moderator 0 false true.
Definition amina : User.t := a_user 3 "amina" member 1 false false.
Definition yanis : User.t := a_user 4 "yanis" new_user 0 false false.
Definition idir : User.t := a_user 5 "idir" member 0 true false.
Definition lounes : User.t := a_user 6 "lounes" member 0 false false.
Definition massi : User.t := a_user 7 "massi" member 0 false false.

Definition generale : Category.t :=
  Category.mk 1 (js "Discussion Générale") None (js "discussion-generale")
    None 1 false 2 0.
Definition makist : Category.t :=
  Category.mk 2 (js "Makist") None (js "makist") None 10 true 0 0.

Definition bienvenue : Thread.t :=
  Thread.mk 1 (js "Bienvenue") (js "Azul fellawen") 1 3 false false 0 0
    None None 20 20.
Definition regles : Thread.t :=
  Thread.mk 2 (js "Règles") (js "À lire avant de poster") 1 1 true true 0 0
    None None 21 21.

(** A request of amina, rejected by the moderator. *)
Definition demande : Invite.t :=
  Invite.mk 1 3
    (js "Je participe depuis longtemps et souhaite lire la section privée.")
    rejected (Some 2) (Some 60) 50.

(** A request of lounes, not decided yet. *)
Definition attente : Invite.t :=
  Invite.mk 2 6
    (js "Membre depuis un an, je voudrais rejoindre la section réservée.")
    pending None None 55.

Definition journal : ModLog.t :=
  ModLog.mk 1 2 (Some 3) reject_invite None None 60.

Definition db0 : DB :=
  mkDB [admin1; moderateur; amina; yanis; idir; lounes; massi]
       [generale; makist] [bienvenue; regles] [] [demande; attente] [journal]
       8 3 1 3 2.

Definition session_of (u : User.t) (token : string) : SessionData :=
  {| userId := Some (User.id u); csrfToken := Some (js token) |}.

Definition w0 : World :=
  {| db := db0;
     sessions := [ (101%N, session_of admin1 "aa");
                   (102%N, session_of moderateur "bb");
                   (103%N, session_of amina "cc");
                   (104%N, session_of yanis "dd");
                   (105%N, session_of idir "ee");
                   (106%N, session_of lounes "ff");
                   (107%N, session_of massi "gg") ] |}.

Definition at_time (t : Z) : Env :=
  {| now := t; randomToken := js "0f0f"; randomSalt := js "salt";
     newSid := 999%N |}.

Definition request (m : Method) (p : Path) (sid : N) (token : option string)
    (props : list (string * JSON)) : Request :=
  {| r_method := m; r_path := p; r_cookie := Some sid;
     r_csrf := option_map js token; r_body := JObj props |}.

Ltac by_computation := vm_compute; repeat split; try reflexivity; try discriminate.

Ltac is_authenticated :=
  unfold authenticated; repeat split;
  first [ reflexivity | vm_compute; discriminate ].

Ltac token_echoed :=
  unfold echoes_token; eexists; repeat split;
  first [ reflexivity | vm_compute; discriminate ].

(* ------------------------------------------------------------------ *)
(** ** C4: a banned user's session *)

Definition req_idir_me : Request := request GET P_auth_me 105 None [].

Lemma banned_session_destroyed_witness :
  fst (forum (at_time 1000) req_idir_me w0)
  = message 403 "Votre compte a été banni" /\
  kind (fst (forum (at_time 1000) req_idir_me w0)) = Some Forbidden /\
  sess_get 105 (sessions (snd (forum (at_time 1000) req_idir_me w0))) = None /\
  db (snd (forum (at_time 1000) req_idir_me w0)) = db w0.
Proof.
  apply (banned_session_destroyed lib_isEmail lib_zodMessage lib_toLowerCase
           lib_bcrypt_hash lib_bcrypt_compare lib_pg_text lib_notRouted
           (at_time 1000) req_idir_me w0 105%N (session_of idir "ee") idir).
  - is_authenticated.
  - reflexivity.
Defined.

(** The same for a session that predates the ban: amina is logged in, the
    administrator bans her, and her next request is refused and her
    session destroyed. *)
Definition req_ban_amina : Request :=
  request POST (P_admin_user_ban (Some 3)) 101 (Some "aa"%string)
    [("reason", JStr (js "spam"))]%string.

Definition req_amina_me : Request := request GET P_auth_me 103 None [].

Example ban_then_request :
  let w1 := snd (forum (at_time 1000) req_ban_amina w0) in
  status (fst (forum (at_time 900) req_amina_me w0)) = 200 /\
  status (fst (forum (at_time 1000) req_ban_amina w0)) = 200 /\
  sess_get 103 (sessions w1) = Some (session_of amina "cc") /\
  fst (forum (at_time 1100) req_amina_me w1)
  = message 403 "Votre compte a été banni" /\
  sess_get 103 (sessions (snd (forum (at_time 1100) req_amina_me w1))) = None.
Proof. by_computation. Qed.

(* ------------------------------------------------------------------ *)
(** ** C5: the anti-forgery gate *)

(** idir, who is banned, sends a POST without the token header. *)
Definition req_idir_post : Request :=
  request POST P_threads 105 None
    [("title", JStr (js "Azul")); ("content", JStr (js "Azul fellawen"));
     ("categoryId", JNum 1)]%string.

(** C5, as stated, fails: a state-changing request without the token is
    answered with the ban refusal (Forbidden), not with the anti-forgery
    refusal, when its session belongs to a banned user; [checkBanned] is
    mounted before [csrfProtection]. *)
Lemma banned_session_is_answered_before_csrf :
  safe_method (r_method req_idir_post) = false /\
  r_csrf req_idir_post = None /\
  fst (forum (at_time 1000) req_idir_post w0)
  = message 403 "Votre compte a été banni" /\
  kind (fst (forum (at_time 1000) req_idir_post w0)) <> Some ForbiddenCsrf.
Proof. by_computation. Qed.

(** amina posts with a token that is not her session's. *)
Definition req_amina_forged : Request :=
  request POST P_threads 103 (Some "zz"%string)
    [("title", JStr (js "Azul")); ("content", JStr (js "Azul fellawen"));
     ("categoryId", JNum 1)]%string.

Lemma csrf_gate_witness :
  (fst (forum (at_time 1000) req_amina_forged w0)
   = message 403 "Token CSRF invalide" /\
   snd (forum (at_time 1000) req_amina_forged w0) = w0) /\
  app lib_isEmail lib_zodMessage lib_toLowerCase lib_bcrypt_hash
    lib_bcrypt_compare lib_pg_text lib_notRouted (at_time 1000) req_amina_me
    {| st_db := db0; st_sess := Some (session_of amina "cc") |}
  = (json 200 (JObj [("user"%string, safeUser amina)]),
     {| st_db := db0; st_sess := Some (session_of amina "cc") |}).
Proof.
  split.
  - destruct (csrf_gate lib_isEmail lib_zodMessage lib_toLowerCase
                lib_bcrypt_hash lib_bcrypt_compare lib_pg_text lib_notRouted
                (at_time 1000) req_amina_forged w0) as [H _].
    + reflexivity.
    + destruct H as (E & _ & _).
      * reflexivity.
      * intros c Hc. right. inversion Hc; subst c. vm_compute. discriminate.
      * unfold forum. rewrite E. split; reflexivity.
  - destruct (csrf_gate lib_isEmail lib_zodMessage lib_toLowerCase
                lib_bcrypt_hash lib_bcrypt_compare lib_pg_text lib_notRouted
                (at_time 1000) req_amina_me w0) as [_ H].
    + reflexivity.
    + specialize (H eq_refl).
      change (snd (load (at_time 1000) req_amina_me w0))
        with (session_of amina "cc") in H.
      change (db w0) with db0 in H.
      rewrite H. reflexivity.
Defined.

(* ------------------------------------------------------------------ *)
(** ** C1: deciding a request twice *)

(** The moderator approves amina's request, which was rejected before. *)
Definition req_decide : Request :=
  request PATCH (P_admin_private_invite (Some 1)) 102 (Some "bb"%string)
    [("status", JStr (js "approved"))]%string.

(** C1, as stated, fails: a decide call on a request that is no longer
    pending is answered 200, not 404, and it changes the state; here it
    turns a rejected request into an approved one and grants access. *)
Lemma decided_request_decided_again :
  option_map Invite.status
    (find (fun i => Invite.id i =? 1) (privateInvites (db w0))) = Some rejected /\
  option_map User.hasPrivateAccess (getUser (db w0) 3) = Some false /\
  status (fst (forum (at_time 1000) req_decide w0)) = 200 /\
  kind (fst (forum (at_time 1000) req_decide w0)) <> Some NotFound /\
  option_map Invite.status
    (find (fun i => Invite.id i =? 1)
       (privateInvites (db (snd (forum (at_time 1000) req_decide w0)))))
  = Some approved /\
  option_map User.hasPrivateAccess
    (getUser (db (snd (forum (at_time 1000) req_decide w0))) 3) = Some true.
Proof. by_computation. Qed.

(** The moderator decides a request that does not exist, and one whose id
    is beyond the range of the integer column. *)
Definition req_decide_missing : Request :=
  request PATCH (P_admin_private_invite (Some 99)) 102 (Some "bb"%string)
    [("status", JStr (js "rejected"))]%string.

Definition req_decide_beyond : Request :=
  request PATCH (P_admin_private_invite (Some 99999999999)) 102
    (Some "bb"%string) [("status", JStr (js "rejected"))]%string.

Lemma db0_log_seq_fresh : log_seq_fresh db0.
Proof.
  split; [reflexivity|].
  intros l Hl. simpl in Hl. destruct Hl as [<-|[]]. discriminate.
Qed.

Lemma decide_request_witness :
  forum (at_time 1000) req_decide_beyond w0
  = (message 500 "Erreur lors de la mise à jour de la demande", w0) /\
  forum (at_time 1000) req_decide_missing w0
  = (message 404 "Demande introuvable", w0) /\
  fst (forum (at_time 1000) req_decide w0)
  = json 200 (Invite.json (Invite.review approved 2 1000 demande)) /\
  find (fun i => Invite.id i =? 1)
    (privateInvites (db (snd (forum (at_time 1000) req_decide w0))))
  = Some (Invite.review approved 2 1000 demande) /\
  getUser (db (snd (forum (at_time 1000) req_decide w0))) 3
  = Some (User.set_hasPrivateAccess true amina).
Proof.
  split; [|split].
  - destruct (decide_request lib_isEmail lib_zodMessage lib_toLowerCase
                lib_bcrypt_hash lib_bcrypt_compare lib_pg_text lib_notRouted
                (at_time 1000) req_decide_beyond w0 102%N
                (session_of moderateur "bb") moderateur 99999999999 rejected)
      as (H & _).
    + is_authenticated.
    + reflexivity.
    + token_echoed.
    + right; reflexivity.
    + reflexivity.
    + reflexivity.
    + reflexivity.
    + apply H. reflexivity.
  - destruct (decide_request lib_isEmail lib_zodMessage lib_toLowerCase
                lib_bcrypt_hash lib_bcrypt_compare lib_pg_text lib_notRouted
                (at_time 1000) req_decide_missing w0 102%N
                (session_of moderateur "bb") moderateur 99 rejected)
      as (_ & H & _).
    + is_authenticated.
    + reflexivity.
    + token_echoed.
    + right; reflexivity.
    + reflexivity.
    + reflexivity.
    + reflexivity.
    + apply H; reflexivity.
  - destruct (decide_request lib_isEmail lib_zodMessage lib_toLowerCase
                lib_bcrypt_hash lib_bcrypt_compare lib_pg_text lib_notRouted
                (at_time 1000) req_decide w0 102%N (session_of moderateur "bb")
                moderateur 1 approved) as (_ & _ & H).
    + is_authenticated.
    + reflexivity.
    + token_echoed.
    + right; reflexivity.
    + reflexivity.
    + reflexivity.
    + reflexivity.
    + destruct (H demande amina eq_refl eq_refl eq_refl db0_log_seq_fresh)
        as (R & F & G).
      split; [exact R|]. split; [exact F | exact (G eq_refl)].
Defined.

(* ------------------------------------------------------------------ *)
(** ** C7: submitting a request *)

(** Sixty spaces. *)
Definition blank : jsstring := repeat 32%N 60.

Definition req_submit (sid : N) (token : string) (reason : jsstring) : Request :=
  request POST P_private_invites sid (Some token) [("reason"%string, JStr reason)].

(** C7, as stated, fails: massi has neither the grant nor any request,
    and his justification is 60 characters long, yet the submission fails
    with Validation; the length that counts is the trimmed one. *)
Lemma blank_justification_refused :
  List.length blank = 60%nat /\
  User.hasPrivateAccess massi = false /\
  filter (fun i => Invite.userId i =? 7) (privateInvites (db w0)) = [] /\
  fst (forum (at_time 1000) (req_submit 107 "gg" blank) w0)
  = message 400 "La raison doit contenir au moins 50 caractères" /\
  kind (fst (forum (at_time 1000) (req_submit 107 "gg" blank) w0))
  = Some Validation /\
  snd (forum (at_time 1000) (req_submit 107 "gg" blank) w0) = w0.
Proof. by_computation. Qed.

Definition motif : jsstring :=
  js "  Je lis le forum chaque jour et je voudrais contribuer à <Makist>.  ".

(** The same text with the character U+0000 in it. *)
Definition motif_nul : jsstring := motif ++ [0%N; 33%N].

(** The requests on record: the one of amina is rejected, the one of
    lounes is pending, massi has none. *)
Ltac requests_on_record :=
  let i := fresh "i" in let Hi := fresh "Hi" in let Hu := fresh "Hu" in
  intros i (Hi & Hu & _); simpl in Hi;
  destruct Hi as [<-|[<-|[]]];
  first [ discriminate Hu | reflexivity | discriminate ].

Lemma db0_invite_seq_fresh : invite_seq_fresh db0.
Proof.
  split; [reflexivity|].
  intros i Hi. simpl in Hi.
  destruct Hi as [<-|[<-|[]]]; vm_compute; discriminate.
Qed.

(** The moderator has the grant; the request of lounes is pending; massi
    sends sixty spaces; amina, whose earlier request was rejected, sends a
    text with U+0000 in it, and then submits again. *)
Lemma submit_request_witness :
  forum (at_time 1000) (req_submit 102 "bb" motif) w0
  = (message 400 "Vous avez déjà accès", w0) /\
  forum (at_time 1000) (req_submit 106 "ff" motif) w0
  = (message 400 "Vous avez déjà une demande en cours", w0) /\
  forum (at_time 1000) (req_submit 107 "gg" blank) w0
  = (message 400 "La raison doit contenir au moins 50 caractères", w0) /\
  forum (at_time 1000) (req_submit 103 "cc" motif_nul) w0
  = (message 500 "Erreur lors de la création de la demande", w0) /\
  forum (at_time 1000) (req_submit 103 "cc" motif) w0
  = (json 201 (Invite.json (Invite.mk 3 3 (wire (sanitizeInput motif)) pending
                              None None 1000)),
     {| db := push_invite (Invite.mk 3 3 (wire (sanitizeInput motif)) pending
                             None None 1000) db0;
        sessions := sessions w0 |}).
Proof.
  split; [|split; [|split; [|split]]].
  - destruct (submit_request lib_isEmail lib_zodMessage lib_toLowerCase
                lib_bcrypt_hash lib_bcrypt_compare lib_pg_text lib_notRouted
                (at_time 1000) (req_submit 102 "bb" motif) w0 102%N
                (session_of moderateur "bb") moderateur motif)
      as (H & _);
      [is_authenticated | reflexivity | token_echoed | reflexivity
      | reflexivity | reflexivity |].
    apply H. reflexivity.
  - destruct (submit_request lib_isEmail lib_zodMessage lib_toLowerCase
                lib_bcrypt_hash lib_bcrypt_compare lib_pg_text lib_notRouted
                (at_time 1000) (req_submit 106 "ff" motif) w0 106%N
                (session_of lounes "ff") lounes motif)
      as (_ & H & _);
      [is_authenticated | reflexivity | token_echoed | reflexivity
      | reflexivity | reflexivity |].
    apply H.
    + reflexivity.
    + exists attente. split; [simpl; auto|]. split; [reflexivity|].
      intros j Hj Hu. simpl in Hj.
      destruct Hj as [<-|[<-|[]]]; [discriminate Hu|]. reflexivity.
    + requests_on_record.
  - destruct (submit_request lib_isEmail lib_zodMessage lib_toLowerCase
                lib_bcrypt_hash lib_bcrypt_compare lib_pg_text lib_notRouted
                (at_time 1000) (req_submit 107 "gg" blank) w0 107%N
                (session_of massi "gg") massi blank)
      as (_ & _ & H & _);
      [is_authenticated | reflexivity | token_echoed | reflexivity
      | reflexivity | reflexivity |].
    apply H.
    + reflexivity.
    + requests_on_record.
    + apply Nat.ltb_lt. vm_compute. reflexivity.
  - destruct (submit_request lib_isEmail lib_zodMessage lib_toLowerCase
                lib_bcrypt_hash lib_bcrypt_compare lib_pg_text lib_notRouted
                (at_time 1000) (req_submit 103 "cc" motif_nul) w0 103%N
                (session_of amina "cc") amina motif_nul)
      as (_ & _ & _ & H & _);
      [is_authenticated | reflexivity | token_echoed | reflexivity
      | reflexivity | reflexivity |].
    apply H.
    + reflexivity.
    + requests_on_record.
    + apply Nat.leb_le. vm_compute. reflexivity.
    + reflexivity.
  - destruct (submit_request lib_isEmail lib_zodMessage lib_toLowerCase
                lib_bcrypt_hash lib_bcrypt_compare lib_pg_text lib_notRouted
                (at_time 1000) (req_submit 103 "cc" motif) w0 103%N
                (session_of amina "cc") amina motif)
      as (_ & _ & _ & _ & H);
      [is_authenticated | reflexivity | token_echoed | reflexivity
      | reflexivity | reflexivity |].
    apply H.
    + reflexivity.
    + requests_on_record.
    + apply Nat.leb_le. vm_compute. reflexivity.
    + reflexivity.
    + exact db0_invite_seq_fresh.
Defined.

(** A pending request that is not the most recent one does not stand in
    the way either: lounes, who has a pending request of time 55 and a
    rejected one of time 70, submits again and is answered 201. *)
Definition refus : Invite.t :=
  Invite.mk 3 6 (js "Une autre demande, refusée depuis.") rejected
    (Some 2) (Some 80) 70.

Definition w_two_requests : World :=
  {| db := mkDB (users db0) (categories db0) (threads db0) (posts db0)
             [demande; attente; refus] (moderationLogs db0) 8 3 1 4 2;
     sessions := sessions w0 |}.

Example pending_request_passed_over :
  In attente (privateInvites (db w_two_requests)) /\
  Invite.userId attente = User.id lounes /\
  Invite.status attente = pending /\
  status (fst (forum (at_time 1000) (req_submit 106 "ff" motif) w_two_requests))
  = 201.
Proof. by_computation. simpl. auto. Qed.

(* ------------------------------------------------------------------ *)
(** ** C8: posting into a locked thread *)

Definition req_yanis_reply : Request :=
  request POST (P_thread_posts (Some 2)) 104 (Some "dd"%string)
    [("content", JStr (js "Azul"))]%string.

(** C8, as stated, fails: yanis is a new_user and the thread is locked,
    yet his post does not fail with Locked; it fails with the Forbidden
    that every reply of a new_user meets. *)
Lemma new_user_on_locked_thread :
  option_map Thread.isLocked
    (find (fun x => Thread.id x =? 2) (threads (db w0))) = Some true /\
  User.role yanis = new_user /\
  fst (forum (at_time 1000) req_yanis_reply w0)
  = message 403 "Les nouveaux utilisateurs ne peuvent pas répondre" /\
  kind (fst (forum (at_time 1000) req_yanis_reply w0)) <> Some Locked.
Proof. by_computation. Qed.

Definition req_admin_reply : Request :=
  request POST (P_thread_posts (Some 2)) 101 (Some "aa"%string)
    [("content", JStr (js "Azul"))]%string.

Lemma locked_thread_refuses_posts_witness :
  (forum (at_time 1000) req_admin_reply w0
   = (message 403 "Cette discussion est verrouillée", w0) /\
   kind (fst (forum (at_time 1000) req_admin_reply w0)) = Some Locked) /\
  (forum (at_time 1000) req_yanis_reply w0
   = (message 403 "Les nouveaux utilisateurs ne peuvent pas répondre", w0) /\
   kind (fst (forum (at_time 1000) req_yanis_reply w0)) = Some Forbidden).
Proof.
  split.
  - destruct (locked_thread_refuses_posts lib_isEmail lib_zodMessage
                lib_toLowerCase lib_bcrypt_hash lib_bcrypt_compare lib_pg_text
                lib_notRouted (at_time 1000) req_admin_reply w0 101%N
                (session_of admin1 "aa") admin1 2 regles) as [H _];
      [is_authenticated | reflexivity | token_echoed | reflexivity
      | reflexivity | reflexivity | reflexivity |].
    apply H. discriminate.
  - destruct (locked_thread_refuses_posts lib_isEmail lib_zodMessage
                lib_toLowerCase lib_bcrypt_hash lib_bcrypt_compare lib_pg_text
                lib_notRouted (at_time 1000) req_yanis_reply w0 104%N
                (session_of yanis "dd") yanis 2 regles) as [_ H];
      [is_authenticated | reflexivity | token_echoed | reflexivity
      | reflexivity | reflexivity | reflexivity |].
    apply H. reflexivity.
Defined.

(* ------------------------------------------------------------------ *)
(** ** C3: the counters of a user *)

Definition reply_then_delete : list (Z * Op) :=
  [ (1000, OpCreatePost {| ip_content := js "Azul"; ip_threadId := 1;
                           ip_authorId := 3; ip_parentId := None |});
    (2000, OpDeletePost 1);
    (3000, OpDeleteThread 1) ].

(** C3, as stated, fails: amina starts with one live thread and no post,
    and her counters say so; she replies, the reply is deleted, then her
    thread is deleted.  She is left with no live thread and no live post,
    and her counters read 1 and 1. *)
Lemma counters_survive_deletes :
  option_map User.threadCount (getUser db0 3) = Some (live_threads 3 db0) /\
  option_map User.postCount (getUser db0 3) = Some (live_posts 3 db0) /\
  match run reply_then_delete db0 with
  | Some d =>
      live_threads 3 d = 0 /\ live_posts 3 d = 0 /\
      option_map User.threadCount (getUser d 3) = Some 1 /\
      option_map User.postCount (getUser d 3) = Some 1
  | None => False
  end.
Proof. by_computation. Qed.

Lemma user_counters_count_authored_witness :
  match run reply_then_delete db0 with
  | Some d =>
      exists u', getUser d 3 = Some u' /\
        User.threadCount u' = User.threadCount amina
          + threads_created 3 reply_then_delete /\
        User.postCount u' = User.postCount amina
          + posts_created 3 reply_then_delete
  | None => False
  end.
Proof.
  destruct (run reply_then_delete db0) as [d|] eqn:E.
  - apply (user_counters_count_authored reply_then_delete db0 d 3 amina E).
    reflexivity.
  - vm_compute in E. discriminate.
Defined.

(* ------------------------------------------------------------------ *)
(** ** C2: the last reply of a thread *)

Definition req_amina_reply : Request :=
  request POST (P_thread_posts (Some 1)) 103 (Some "cc"%string)
    [("content", JStr (js "Azul"))]%string.

Definition req_delete (id : Z) : Request :=
  request DELETE (P_post (Some id)) 102 (Some "bb"%string) [].

(** C2 on the code.  amina replies in thread 1 at time 1000 (201); the
    moderator deletes that reply at time 2000 (200).  The thread has no
    post left, and still names amina and time 1000 as its last reply:
    [deletePost] lowers replyCount and never writes lastReplyAt or
    lastReplyById. *)
Theorem deleted_reply_remains_last_reply :
  let w1 := snd (forum (at_time 1000) req_amina_reply w0) in
  let w2 := snd (forum (at_time 2000) (req_delete 1) w1) in
  status (fst (forum (at_time 1000) req_amina_reply w0)) = 201 /\
  status (fst (forum (at_time 2000) (req_delete 1) w1)) = 200 /\
  posts (db w2) = [] /\
  latest_post (db w2) 1 = None /\
  option_map Thread.replyCount
    (find (fun x => Thread.id x =? 1) (threads (db w2))) = Some 0 /\
  option_map Thread.lastReplyById
    (find (fun x => Thread.id x =? 1) (threads (db w2))) = Some (Some 3) /\
  option_map Thread.lastReplyAt
    (find (fun x => Thread.id x =? 1) (threads (db w2))) = Some (Some 1000).
Proof. by_computation. Qed.

(* ------------------------------------------------------------------ *)
(** ** C6: deleting a post that does not exist *)

(** C6 on the code.  The moderator deletes post 999, which does not
    exist: the answer is 200 "Message supprimé", not 404, no post is
    touched, and the audit trail records a deletion. *)
Theorem delete_missing_post_reports_success :
  find (fun p => Post.id p =? 999) (posts (db w0)) = None /\
  fst (forum (at_time 1000) (req_delete 999) w0)
  = message 200 "Message supprimé" /\
  kind (fst (forum (at_time 1000) (req_delete 999) w0)) <> Some NotFound /\
  posts (db (snd (forum (at_time 1000) (req_delete 999) w0))) = posts (db w0) /\
  moderationLogs (db (snd (forum (at_time 1000) (req_delete 999) w0)))
  = moderationLogs (db w0) ++ [delete_post_log (at_time 1000) db0 2 999].
Proof. by_computation. Qed.

(* ------------------------------------------------------------------ *)
(** ** C10: user rows in responses *)

Definition req_admin_list : Request := request GET P_admin_users 101 None [].

Lemma user_responses_omit_password_witness :
  mentions "password" (body (fst (forum (at_time 1000) req_admin_list w0)))
  = false.
Proof.
  apply (user_responses_omit_password lib_isEmail lib_zodMessage
           lib_toLowerCase lib_bcrypt_hash lib_bcrypt_compare lib_pg_text
           lib_notRouted (at_time 1000) req_admin_list w0).
  reflexivity.
Defined.

(* ------------------------------------------------------------------ *)
(** ** What no request does, on the concrete forum *)

Ltac visitor_is :=
  let s := fresh "s" in let Hs := fresh "Hs" in
  intros s Hs; vm_compute in Hs; inversion Hs; subst s; clear Hs.

Lemma accounts_are_kept_witness :
  exists u', getUser (db (snd (forum (at_time 1000) req_decide w0))) 3 = Some u'
             /\ account_kept amina u'.
Proof.
  apply (accounts_are_kept lib_isEmail lib_zodMessage lib_toLowerCase
           lib_bcrypt_hash lib_bcrypt_compare lib_pg_text lib_notRouted
           (at_time 1000) req_decide w0 3 amina).
  reflexivity.
Defined.

Lemma grant_needs_staff_witness :
  exists u, getUser (db w0) 1 = Some u /\ User.hasPrivateAccess u = true.
Proof.
  apply (grant_needs_staff lib_isEmail lib_zodMessage lib_toLowerCase
           lib_bcrypt_hash lib_bcrypt_compare lib_pg_text lib_notRouted
           (at_time 1000) (req_submit 103 "cc" motif) w0 1 admin1).
  - visitor_is. intros [H|H]; discriminate.
  - reflexivity.
  - reflexivity.
Defined.

Lemma role_and_ban_need_admin_witness :
  match getUser (db w0) 3 with
  | Some u => User.role amina = User.role u /\
              User.isBanned amina = User.isBanned u
  | None => User.role amina = new_user /\ User.isBanned amina = false
  end.
Proof.
  apply (role_and_ban_need_admin lib_isEmail lib_zodMessage lib_toLowerCase
           lib_bcrypt_hash lib_bcrypt_compare lib_pg_text lib_notRouted
           (at_time 1000) req_ban_amina
           {| db := db0;
              sessions := [(101%N, session_of moderateur "aa")] |}
           3 amina).
  - visitor_is. discriminate.
  - reflexivity.
Defined.

Lemma audit_log_append_only_witness :
  exists l,
    moderationLogs (db (snd (forum (at_time 1000) (req_delete 999) w0)))
    = moderationLogs (db w0) ++ l /\
    (List.length l <= 1)%nat /\
    forall row, In row l ->
      exists s, visitor (at_time 1000) (req_delete 999) w0 = Some s /\
                can_moderate s /\ ModLog.moderatorId row = User.id s.
Proof.
  apply (audit_log_append_only lib_isEmail lib_zodMessage lib_toLowerCase
           lib_bcrypt_hash lib_bcrypt_compare lib_pg_text lib_notRouted
           (at_time 1000) (req_delete 999) w0).
Defined.


Lemma only_staff_moderate_witness :
  (exists l, posts (db (snd (forum (at_time 1000) req_amina_reply w0)))
             = posts (db w0) ++ l) /\
  (exists l, privateInvites (db (snd (forum (at_time 1000) req_amina_reply w0)))
             = privateInvites (db w0) ++ l) /\
  moderationLogs (db (snd (forum (at_time 1000) req_amina_reply w0)))
  = moderationLogs (db w0).
Proof.
  apply (only_staff_moderate lib_isEmail lib_zodMessage lib_toLowerCase
           lib_bcrypt_hash lib_bcrypt_compare lib_pg_text lib_notRouted
           (at_time 1000) req_amina_reply w0).
  visitor_is. intros [H|H]; discriminate.
Defined.

Lemma new_posts_were_allowed_witness :
  let p := Post.mk 1 (js "Azul") 1 3 None false 1000 1000 in
  In p (posts (db w0)) \/
  exists u x, visitor (at_time 1000) req_amina_reply w0 = Some u /\
              User.role u <> new_user /\
              Post.authorId p = User.id u /\
              getThread (db w0) (Post.threadId p) = Some x /\
              Thread.isLocked (thread x) = false /\
              (forall c, category x = Some c -> Category.isPrivate c = true ->
                         User.hasPrivateAccess u = true).
Proof.
  intros p.
  apply (new_posts_were_allowed lib_isEmail lib_zodMessage lib_toLowerCase
           lib_bcrypt_hash lib_bcrypt_compare lib_pg_text lib_notRouted
           (at_time 1000) req_amina_reply w0 p).
  vm_compute. left. reflexivity.
Defined.

(** Somebody who is not logged in reads thread 1. *)
Definition req_anonymous_read : Request :=
  {| r_method := GET; r_path := P_thread (Some 1); r_cookie := None;
     r_csrf := None; r_body := JUndefined |}.


(** The read is answered 200 with the thread as it was, and has counted a
    view of it. *)
Example anonymous_read_counts_a_view :
  status (fst (forum (at_time 1000) req_anonymous_read w0)) = 200 /\
  option_map Thread.viewCount
    (find (fun x => Thread.id x =? 1) (threads (db w0))) = Some 0 /\
  option_map Thread.viewCount
    (find (fun x => Thread.id x =? 1)
       (threads (db (snd (forum (at_time 1000) req_anonymous_read w0)))))
  = Some 1.
Proof. by_computation. Qed.

(** ** The counters, on the concrete forum *)

Lemma db0_counters_exact : counters_exact db0.
Proof.
  split; [split; [|split]|split].
  - constructor.
  - simpl. repeat constructor; simpl; intuition discriminate.
  - intros p [].
  - intros x Hx. simpl in Hx. destruct Hx as [<-|[<-|[]]]; reflexivity.
  - intros c Hc. simpl in Hc. destruct Hc as [<-|[<-|[]]]; split; reflexivity.
Qed.

(** amina opens a thread and replies twice in it; the first reply is
    deleted, and then the whole thread. *)
Definition some_operations : list (Z * Op) :=
  [ (100, OpCreateThread {| it_title := js "Tamazight"; it_content := js "Azul";
                            it_categoryId := 1; it_authorId := 3 |});
    (101, OpCreatePost {| ip_content := js "un"; ip_threadId := 3;
                          ip_authorId := 3; ip_parentId := None |});
    (102, OpCreatePost {| ip_content := js "deux"; ip_threadId := 3;
                          ip_authorId := 4; ip_parentId := None |});
    (103, OpDeletePost 1);
    (104, OpDeleteThread 3) ].

Lemma content_counters_stay_exact_witness :
  exists d, run some_operations db0 = Some d /\ counters_exact d.
Proof.
  eexists. split; [vm_compute; reflexivity|].
  apply (content_counters_stay_exact some_operations db0).
  - vm_compute. reflexivity.
  - exact db0_counters_exact.
Defined.

Lemma requests_keep_counters_exact_witness :
  counters_exact (db (snd (forum (at_time 1000) req_amina_reply w0))).
Proof.
  apply (requests_keep_counters_exact lib_isEmail lib_zodMessage
           lib_toLowerCase lib_bcrypt_hash lib_bcrypt_compare lib_pg_text
           lib_notRouted (at_time 1000) req_amina_reply w0).
  exact db0_counters_exact.
Defined.

(** ** Sessions and views, on the concrete forum *)



(** Somebody without a session logs in as amina, echoing the token the
    request has just been issued. *)
Definition req_login_amina : Request :=
  {| r_method := POST; r_path := P_auth_login; r_cookie := None;
     r_csrf := Some (js "0f0f");
     r_body := JObj [("email", JStr (js "Amina@Example.org"));
                     ("password", JStr (js "amina"))]%string |}.

Lemma login_needs_credentials_witness :
  exists email password u,
    loginSchema_parse lib_isEmail lib_zodMessage (r_body req_login_amina)
    = inl (email, password) /\
    In u (users (db w0)) /\ User.email u = wire (lib_toLowerCase email) /\
    User.isBanned u = false /\
    lib_bcrypt_compare password (User.password u) = true /\
    fst (forum (at_time 1000) req_login_amina w0)
    = json 200 (JObj [("user"%string, safeUser u)]) /\
    exists sd',
      sess_get (fst (load (at_time 1000) req_login_amina w0))
        (sessions (snd (forum (at_time 1000) req_login_amina w0)))
      = Some sd' /\ userId sd' = Some (User.id u).
Proof.
  apply (login_needs_credentials lib_isEmail lib_zodMessage lib_toLowerCase
           lib_bcrypt_hash lib_bcrypt_compare lib_pg_text lib_notRouted
           (at_time 1000) req_login_amina w0).
  - reflexivity.
  - reflexivity.
  - vm_compute. reflexivity.
Defined.

Lemma views_need_access_witness :
  (exists l,
     map thread_views
       (threads (db (snd (forum (at_time 1000) req_anonymous_read w0))))
     = map thread_views (threads (db w0)) ++ map thread_views l /\
     forall x, In x l -> Thread.viewCount x = 0)
  \/
  (exists id x,
     getThread (db w0) id = Some x /\
     threads (db (snd (forum (at_time 1000) req_anonymous_read w0)))
     = viewed id (threads (db w0)) /\
     Thread.viewCount (thread x) < 2147483647 /\
     forall c, category x = Some c -> Category.isPrivate c = true ->
               exists u, visitor (at_time 1000) req_anonymous_read w0 = Some u /\
                         User.hasPrivateAccess u = true).
Proof.
  apply (views_need_access lib_isEmail lib_zodMessage lib_toLowerCase
           lib_bcrypt_hash lib_bcrypt_compare lib_pg_text lib_notRouted
           (at_time 1000) req_anonymous_read w0).
Defined.
